(** * upside.py: portfolio analysis pipeline

    A shallow embedding of [src/upside.py]: the monetary parser
    [clean_value], the line extractor of [process_portfolio_image], the
    recommendation loader [load_recommendations_from_excel], the merge block
    that builds [analysis_df], and the narrative generator
    [generate_recommendation_text].

    Conventions of the embedding.
    - Python [str] values are [string]s of bytes.  The character classes of
      [str.strip], [float] and the regular expression are those Python
      applies to ASCII characters; the white space and the digits Python
      also knows beyond ASCII are not represented, and the statements that
      depend on the classes are about ASCII text.
    - Python floats are read in two ways.  [fval] is an exact rational, an
      infinity or NaN: finite arithmetic is exact, so rounding and
      overflow of binary floats are not represented.  It is used for the
      parser, the merge block and the sector table.  [float] is binary64
      itself, with the rounding of each operation: it is used for
      [generate_recommendation_text64], where the last bit of a percentage
      decides whether the concentration remark is printed and which digits
      are shown.
    - Exceptions are the [Raise] branch of [result].
    - Calls into Streamlit only display messages and are left out. *)

From Stdlib Require Import ZArith QArith Qcanon Qround Qabs.
From Stdlib Require Import String Ascii List Bool Lia Lqa DecimalString.
From Stdlib Require Import Permutation Sorted.
From Stdlib Require Import NArith DecimalN.
From Stdlib Require DecimalFacts.
From Stdlib Require Import Floats.
Import ListNotations.

Local Open Scope string_scope.
Local Open Scope list_scope.

(** ** Exceptions *)

Inductive exn : Type :=
| ValueError (msg : string)
| TypeError (msg : string)
| IndexError (msg : string)
| OtherError (msg : string).

Inductive result (A : Type) : Type :=
| Ok (a : A)
| Raise (e : exn).

Arguments Ok {A} a.
Arguments Raise {A} e.

Definition bind {A B : Type} (m : result A) (k : A -> result B) : result B :=
  match m with
  | Ok a => k a
  | Raise e => Raise e
  end.

Notation "x <- m ;; k" := (bind m (fun x => k))
  (at level 61, m at next level, right associativity).

(** [try: body except Exception: handler] *)
Definition try_except {A : Type} (body : result A) (handler : exn -> result A)
  : result A :=
  match body with
  | Ok a => Ok a
  | Raise e => handler e
  end.

(** ** Floats *)

Inductive fval : Type :=
| Fin (q : Qc)
| PInf
| NInf
| NaN.

Definition qz (z : Z) : Qc := Q2Qc (inject_Z z).

Definition Qc_ltb (a b : Qc) : bool :=
  match Qccompare a b with Lt => true | _ => false end.

Definition Qc_is_zero (a : Qc) : bool := Qc_eq_bool a (qz 0).

Definition fneg (x : fval) : fval :=
  match x with
  | Fin q => Fin (- q)%Qc
  | PInf => NInf
  | NInf => PInf
  | NaN => NaN
  end.

Definition fadd (x y : fval) : fval :=
  match x, y with
  | NaN, _ | _, NaN => NaN
  | Fin a, Fin b => Fin (a + b)%Qc
  | PInf, NInf | NInf, PInf => NaN
  | PInf, _ | _, PInf => PInf
  | NInf, _ | _, NInf => NInf
  end.

Definition fsub (x y : fval) : fval := fadd x (fneg y).

(** Sign of an infinite product or quotient; zero counts as positive in a
    divisor (there is no negative zero here). *)
Definition inf_of_sign (negative : bool) : fval :=
  if negative then NInf else PInf.

Definition fmul (x y : fval) : fval :=
  match x, y with
  | NaN, _ | _, NaN => NaN
  | Fin a, Fin b => Fin (a * b)%Qc
  | Fin a, PInf | PInf, Fin a =>
      if Qc_is_zero a then NaN else inf_of_sign (Qc_ltb a (qz 0))
  | Fin a, NInf | NInf, Fin a =>
      if Qc_is_zero a then NaN else inf_of_sign (negb (Qc_ltb a (qz 0)))
  | PInf, PInf | NInf, NInf => PInf
  | PInf, NInf | NInf, PInf => NInf
  end.

(** Division as numpy performs it on a float64 column: a zero divisor gives
    an infinity, or NaN for 0/0, and raises nothing. *)
Definition fdiv (x y : fval) : fval :=
  match x, y with
  | NaN, _ | _, NaN => NaN
  | Fin a, Fin b =>
      if Qc_is_zero b then
        if Qc_is_zero a then NaN else inf_of_sign (Qc_ltb a (qz 0))
      else Fin (a / b)%Qc
  | Fin _, (PInf | NInf) => Fin (qz 0)
  | PInf, Fin b => inf_of_sign (Qc_ltb b (qz 0))
  | NInf, Fin b => inf_of_sign (negb (Qc_ltb b (qz 0)))
  | (PInf | NInf), (PInf | NInf) => NaN
  end.

(** [x > y]; false as soon as one side is NaN. *)
Definition fgt (x y : fval) : bool :=
  match x, y with
  | NaN, _ | _, NaN => false
  | Fin a, Fin b => Qc_ltb b a
  | PInf, PInf => false
  | PInf, _ => true
  | _, PInf => false
  | NInf, _ => false
  | Fin _, NInf => true
  end.

Definition is_nan (x : fval) : bool :=
  match x with NaN => true | _ => false end.

Definition is_fin (x : fval) : bool :=
  match x with Fin _ => true | _ => false end.

(** [Series.fillna(v)] on a float column. *)
Definition fillna (v : fval) (x : fval) : fval :=
  if is_nan x then v else x.

(** [Series.sum()]: NaN entries are skipped, the rest accumulated from the
    left starting at 0. *)
Definition fsum (l : list fval) : fval :=
  fold_left fadd (filter (fun x => negb (is_nan x)) l) (Fin (qz 0)).

(** ** Strings *)

Definition code (c : ascii) : nat := nat_of_ascii c.

Definition in_range (lo hi : nat) (c : ascii) : bool :=
  (lo <=? code c)%nat && (code c <=? hi)%nat.

(** [str.isspace] on ASCII: TAB..CR, FS..US and the space. *)
Definition is_space (c : ascii) : bool :=
  in_range 9 13 c || in_range 28 32 c.

(** [\d] / a decimal digit. *)
Definition is_digit (c : ascii) : bool := in_range 48 57 c.

Fixpoint lstrip (s : string) : string :=
  match s with
  | String c s' => if is_space c then lstrip s' else s
  | EmptyString => EmptyString
  end.

Fixpoint rstrip (s : string) : string :=
  match s with
  | EmptyString => EmptyString
  | String c s' =>
      match rstrip s' with
      | EmptyString => if is_space c then EmptyString else String c EmptyString
      | r => String c r
      end
  end.

(** [s.strip()] *)
Definition strip (s : string) : string := rstrip (lstrip s).

(** [s.startswith(p)] *)
Fixpoint startswith (p s : string) : bool :=
  match p, s with
  | EmptyString, _ => true
  | String a p', String b s' => Ascii.eqb a b && startswith p' s'
  | String _ _, EmptyString => false
  end.

(** [s.replace(old, new)] for a non-empty [old]: occurrences are replaced
    from the left and do not overlap.  [skip] counts the characters of an
    occurrence that are still to be dropped. *)
Fixpoint replace_from (old new : string) (skip : nat) (s : string) : string :=
  match s with
  | EmptyString => EmptyString
  | String c s' =>
      match skip with
      | S k => replace_from old new k s'
      | O =>
          if startswith old s
          then (new ++ replace_from old new (String.length old - 1) s')%string
          else String c (replace_from old new 0 s')
      end
  end.

Definition replace (old new s : string) : string := replace_from old new 0 s.

(** [s.split('\n')] *)
Fixpoint split_lines (s : string) : list string :=
  match s with
  | EmptyString => [EmptyString]
  | String c s' =>
      if Ascii.eqb c "010"%char then EmptyString :: split_lines s'
      else
        match split_lines s' with
        | l :: ls => String c l :: ls
        | [] => [String c EmptyString]
        end
  end.

(** Longest prefix whose characters satisfy [p], and the rest. *)
Fixpoint span (p : ascii -> bool) (s : string) : string * string :=
  match s with
  | String c s' =>
      if p c then let '(a, b) := span p s' in (String c a, b)
      else (EmptyString, s)
  | EmptyString => (EmptyString, EmptyString)
  end.

Definition to_lower (c : ascii) : ascii :=
  if in_range 65 90 c then ascii_of_nat (code c + 32) else c.

Fixpoint lower (s : string) : string :=
  match s with
  | EmptyString => EmptyString
  | String c s' => String (to_lower c) (lower s')
  end.

(** ** The builtin [float] on strings *)

(** Value of a string of decimal digits. *)
Fixpoint digits_value (acc : N) (s : string) : N :=
  match s with
  | EmptyString => acc
  | String c s' => digits_value (acc * 10 + N.of_nat (code c - 48)) s'
  end.

(** An underscore is accepted only between two digits; [prev] is the
    character read before.  Returns the string without its underscores. *)
Fixpoint drop_underscores (prev : option ascii) (s : string) : option string :=
  match s with
  | EmptyString =>
      match prev with
      | Some "_"%char => None
      | _ => Some EmptyString
      end
  | String c s' =>
      if Ascii.eqb c "_"%char then
        match prev with
        | Some p => if is_digit p then drop_underscores (Some c) s' else None
        | None => None
        end
      else
        match prev with
        | Some "_"%char =>
            if is_digit c
            then option_map (String c) (drop_underscores (Some c) s')
            else None
        | _ => option_map (String c) (drop_underscores (Some c) s')
        end
  end.

(** Optional sign: [true] for a minus. *)
Definition read_sign (s : string) : bool * string :=
  match s with
  | String "-"%char s' => (true, s')
  | String "+"%char s' => (false, s')
  | _ => (false, s)
  end.

(** [mantissa * 10 ^ exponent] as an exact rational. *)
Definition scale10 (mantissa : N) (exponent : Z) : Qc :=
  if (0 <=? exponent)%Z
  then qz (Z.of_N mantissa * 10 ^ exponent)
  else Q2Qc (Z.of_N mantissa # Z.to_pos (10 ^ (- exponent))).

(** Decimal literal: digits, optional point and digits (one digit at
    least), optional exponent; the whole string is consumed. *)
Definition parse_decimal (s : string) : option Qc :=
  let '(ip, r1) := span is_digit s in
  let '(fp, r2) :=
    match r1 with
    | String "."%char r => span is_digit r
    | _ => (EmptyString, r1)
    end in
  if (String.length ip + String.length fp =? 0)%nat then None
  else
    let mantissa := digits_value 0 (ip ++ fp)%string in
    let shift := Z.of_nat (String.length fp) in
    match r2 with
    | EmptyString => Some (scale10 mantissa (- shift))
    | String c r3 =>
        if Ascii.eqb (to_lower c) "e"%char then
          let '(eneg, r4) := read_sign r3 in
          let '(ed, r5) := span is_digit r4 in
          match ed, r5 with
          | String _ _, EmptyString =>
              let e := Z.of_N (digits_value 0 ed) in
              Some (scale10 mantissa ((if eneg then - e else e) - shift))
          | _, _ => None
          end
        else None
    end.

(** The white space [float] skips around its argument: TAB..CR and the
    space.  The separators FS..US, which [str.strip] removes, are not
    skipped: [float] refuses a string that keeps one. *)
Definition is_float_space (c : ascii) : bool :=
  in_range 9 13 c || (code c =? 32)%nat.

Fixpoint float_lstrip (s : string) : string :=
  match s with
  | String c s' => if is_float_space c then float_lstrip s' else s
  | EmptyString => EmptyString
  end.

Fixpoint float_rstrip (s : string) : string :=
  match s with
  | EmptyString => EmptyString
  | String c s' =>
      match float_rstrip s' with
      | EmptyString =>
          if is_float_space c then EmptyString else String c EmptyString
      | r => String c r
      end
  end.

Definition float_strip (s : string) : string := float_rstrip (float_lstrip s).

(** [float(s)] for a string [s]; [None] stands for [ValueError]. *)
Definition py_float_str (s : string) : option fval :=
  match drop_underscores None (float_strip s) with
  | None => None
  | Some t =>
      let '(neg, body) := read_sign t in
      let word := lower body in
      if String.eqb word "inf" || String.eqb word "infinity"
      then Some (if neg then NInf else PInf)
      else if String.eqb word "nan" then Some NaN
      else
        match parse_decimal body with
        | Some q => Some (Fin (if neg then (- q)%Qc else q))
        | None => None
        end
  end.

(** ** Python values reaching [clean_value] *)

Inductive pyval : Type :=
| PStr (s : string)
| PInt (z : Z)
| PFloat (x : fval)
| PNone.

(** The builtin [float]. *)
Definition py_float (v : pyval) : result fval :=
  match v with
  | PStr s =>
      match py_float_str s with
      | Some x => Ok x
      | None => Raise (ValueError "could not convert string to float")
      end
  | PInt z => Ok (Fin (qz z))
  | PFloat x => Ok x
  | PNone => Raise (TypeError "float() argument must be a string or a real number")
  end.

(** The handler of [clean_value] catches [ValueError] and [TypeError]
    only. *)
Definition catches_value_or_type (e : exn) : bool :=
  match e with
  | ValueError _ | TypeError _ => true
  | _ => false
  end.

(** [clean_value], lines 11-20. *)
Definition clean_value (text_value : pyval) : result fval :=
  match text_value with
  | PStr s =>
      let text_value := strip (replace "R$" "" s) in
      let text_value := replace "," "." (replace "." "" text_value) in
      try_except (py_float (PStr text_value))
        (fun e => if catches_value_or_type e then Ok (Fin (qz 0)) else Raise e)
  | _ => py_float text_value
  end.

(** ** The line pattern of [process_portfolio_image]

    [([A-Z0-9]+)\s+.*\s+(R\$\s*[\d,\.]+)\s+(R\$\s*[\d,\.]+)], matched by
    backtracking.  A quantified character class tries its longest run
    first and gives characters back one at a time; the continuation [k]
    is the rest of the pattern. *)

Section Backtracking.
Context {R : Type}.

(** [cls*]: [k] receives the run and the rest of the input. *)
Fixpoint star (cls : ascii -> bool) (s : string)
         (k : string -> string -> option R) : option R :=
  match s with
  | String c s' =>
      if cls c then
        match star cls s' (fun run rest => k (String c run) rest) with
        | Some r => Some r
        | None => k EmptyString s
        end
      else k EmptyString s
  | EmptyString => k EmptyString s
  end.

(** [cls+] *)
Definition plus (cls : ascii -> bool) (s : string)
           (k : string -> string -> option R) : option R :=
  match s with
  | String c s' =>
      if cls c then star cls s' (fun run rest => k (String c run) rest)
      else None
  | EmptyString => None
  end.

(** A literal. *)
Fixpoint lit (p : string) (s : string) (k : string -> option R) : option R :=
  match p, s with
  | EmptyString, _ => k s
  | String a p', String b s' => if Ascii.eqb a b then lit p' s' k else None
  | String _ _, EmptyString => None
  end.
End Backtracking.

(** [[A-Z0-9]] *)
Definition is_ticker_char (c : ascii) : bool := in_range 65 90 c || is_digit c.

(** [.]: anything but a line feed. *)
Definition is_dot (c : ascii) : bool := negb (Ascii.eqb c "010"%char).

(** [[\d,\.]] *)
Definition is_amount_char (c : ascii) : bool :=
  is_digit c || Ascii.eqb c ","%char || Ascii.eqb c "."%char.

(** [(R\$\s*[\d,\.]+)]: the captured text and the rest. *)
Definition amount_group {R : Type} (s : string)
           (k : string -> string -> option R) : option R :=
  lit "R$" s (fun s1 =>
  star is_space s1 (fun sp s2 =>
  plus is_amount_char s2 (fun ds s3 =>
  k ("R$" ++ sp ++ ds)%string s3))).

(** The pattern anchored at the start of [s]; the three groups. *)
Definition line_regex_match (s : string) : option (string * string * string) :=
  plus is_ticker_char s (fun g1 s1 =>
  plus is_space s1 (fun _ s2 =>
  star is_dot s2 (fun _ s3 =>
  plus is_space s3 (fun _ s4 =>
  amount_group s4 (fun g2 s5 =>
  plus is_space s5 (fun _ s6 =>
  amount_group s6 (fun g3 _ =>
  Some (g1, g2, g3)))))))).

(** [line_regex.search(line)]: the leftmost position with a match. *)
Fixpoint line_regex_search (line : string) : option (string * string * string) :=
  match line_regex_match line with
  | Some m => Some m
  | None =>
      match line with
      | String _ rest => line_regex_search rest
      | EmptyString => None
      end
  end.

(** ** [process_portfolio_image], lines 22-60 *)

Record HoldingRow : Type := mkHolding {
  h_Ticker : string;
  h_Ultima_Cotacao : fval;
  h_Posicao : fval
}.

Definition denylist : list string := ["Ativo"; "AURE3S"; "BBAS3S"].

Definition not_in (x : string) (l : list string) : bool :=
  negb (existsb (String.eqb x) l).

(** Body of the [for line in lines] loop, lines 40-50. *)
Definition process_line (line : string) (portfolio_data : list HoldingRow)
  : result (list HoldingRow) :=
  match line_regex_search line with
  | Some (ativo, ultima_cotacao, posicao) =>
      if not_in ativo denylist then
        q <- clean_value (PStr ultima_cotacao) ;;
        p <- clean_value (PStr posicao) ;;
        Ok (portfolio_data ++ [mkHolding ativo q p])
      else Ok portfolio_data
  | None => Ok portfolio_data
  end.

Fixpoint process_lines (lines : list string) (portfolio_data : list HoldingRow)
  : result (list HoldingRow) :=
  match lines with
  | [] => Ok portfolio_data
  | line :: rest =>
      data <- process_line line portfolio_data ;;
      process_lines rest data
  end.

(** From the recognised text on: lines 32-60.  The table is the list of
    its rows; the empty [DataFrame] is the empty list. *)
Definition process_portfolio_text (text : string) : list HoldingRow :=
  let lines := split_lines (strip text) in
  match process_lines lines [] with
  | Ok [] => []                          (* nothing extracted: [pd.DataFrame()] *)
  | Ok portfolio_data => portfolio_data  (* [pd.DataFrame(portfolio_data)] *)
  | Raise _ => []                        (* [except Exception]: [pd.DataFrame()] *)
  end.

(** The image enters as the outcome of [Image.open] and
    [pytesseract.image_to_string]: the recognised text or an exception. *)
Definition process_portfolio_image (ocr : result string) : list HoldingRow :=
  match ocr with
  | Ok text => process_portfolio_text text
  | Raise _ => []
  end.

(** ** [load_recommendations_from_excel], lines 62-87 *)

Inductive cell : Type :=
| CStr (s : string)
| CNum (x : fval).

(** A table by columns: the header and the values of each column. *)
Definition column : Type := (string * list cell)%type.
Definition DataFrame : Type := list column.

Definition df_columns (df : DataFrame) : list string := map fst df.

Definition same_lengths (data : list column) : bool :=
  match data with
  | [] => true
  | (_, c0) :: rest =>
      forallb (fun c => (List.length (snd c) =? List.length c0)%nat) rest
  end.

(** [pd.DataFrame(data)] for a dict of lists: lists of different lengths
    are refused. *)
Definition pd_DataFrame (data : list column) : result DataFrame :=
  if same_lengths data then Ok data
  else Raise (ValueError "All arrays must be of the same length").

(** What [pd.read_excel] meets: a file that cannot be read, or a workbook
    with its sheets. *)
Inductive excel_file : Type :=
| Unreadable (e : exn)
| Workbook (sheets : list (string * DataFrame)).

Fixpoint find_sheet (name : string) (sheets : list (string * DataFrame))
  : option DataFrame :=
  match sheets with
  | [] => None
  | (n, df) :: rest => if String.eqb n name then Some df else find_sheet name rest
  end.

Definition read_excel (f : excel_file) (sheet_name : string) : result DataFrame :=
  match f with
  | Unreadable e => Raise e
  | Workbook sheets =>
      match find_sheet sheet_name sheets with
      | Some df => Ok df
      | None => Raise (ValueError "Worksheet not found")
      end
  end.

Definition expected_cols : list string :=
  ["Ticker"; "Empresa"; "Setor"; "Recomendação"; "Preço Alvo (R$)"].

Definition str_in (x : string) (l : list string) : bool :=
  existsb (String.eqb x) l.

Definition price (n d : Z) : cell := CNum (Fin (Q2Qc (n # Z.to_pos d))).

(** The dict of lines 80-86. *)
Definition fallback_data : list column :=
  [ ("Ticker", map CStr
       ["AURE3"; "BBAS3"; "BBDC4"; "CPLE6"; "CXSE3"; "ITSA4"; "PETR4";
        "PRIO3"; "VALE3"; "CSNA3"; "WEGE3"; "SIMH3"; "HASH11"; "IVVB11"]);
    ("Empresa", map CStr
       ["Auren Energia"; "Banco do Brasil"; "Bradesco"; "Copel";
        "Caixa Seguridade"; "Itaúsa"; "Petrobras"; "Prio"; "Vale"; "CSN";
        "WEG"; "Simpar"; "Hashdex Nasdaq Crypto"; "iShares S&P 500"]);
    ("Setor", map CStr
       ["Utilities Elétricas"; "Financeiro"; "Financeiro";
        "Utilities Elétricas"; "Financeiro"; "Petróleo e Gás";
        "Petróleo e Gás"; "Mineração"; "Mineração"; "Bens de Capital";
        "Consumo Cíclico"; "Ativos Digitais"; "Internacional (ETF)"]);
    ("Recomendação", map CStr
       ["Compra"; "Compra"; "Neutro"; "Compra"; "Compra"; "Compra"; "Compra";
        "Compra"; "Compra"; "Venda"; "Neutro"; "Compra"; "N/A"; "N/A"]);
    ("Preço Alvo (R$)",
       [price 15 1; price 30 1; price 18 1; price 14 1; price 16 1;
        price 27 2; price 40 1; price 60 1; price 80 1; price 12 1;
        price 40 1; price 12 1; price 100 1; price 450 1]) ].

Definition load_recommendations_from_excel (f : excel_file) : result DataFrame :=
  try_except
    (reco_df <- read_excel f "Recomendações" ;;
     if negb (forallb (fun col => str_in col (df_columns reco_df)) expected_cols)
     then Raise (ValueError "Colunas não encontradas")
     else Ok reco_df)
    (fun _ => pd_DataFrame fallback_data).

(** ** The merge block, lines 158-165

    The recommendation table enters row by row with its five expected
    columns.  A missing cell is [None] in a text column and [NaN] in the
    price column. *)

Record RecoRow : Type := mkReco {
  r_Ticker : string;
  r_Empresa : option string;
  r_Setor : option string;
  r_Recomendacao : option string;
  r_Preco_Alvo : fval
}.

(** A row of [pd.merge(portfolio_df, reco_df, on='Ticker', how='left')]. *)
Record MergedRow : Type := mkMerged {
  m_Ticker : string;
  m_Ultima_Cotacao : fval;
  m_Posicao : fval;
  m_Empresa : option string;
  m_Setor : option string;
  m_Recomendacao : option string;
  m_Preco_Alvo : fval
}.

(** A row of [analysis_df] once lines 160-165 have run. *)
Record AnalysisRow : Type := mkAnalysis {
  Ticker : string;
  Ultima_Cotacao : fval;
  Posicao : fval;
  Empresa : option string;
  Setor : string;
  Recomendacao : option string;
  Preco_Alvo : fval;
  Potencial : fval
}.

Definition joined (h : HoldingRow) (r : RecoRow) : MergedRow :=
  mkMerged (h_Ticker h) (h_Ultima_Cotacao h) (h_Posicao h)
           (r_Empresa r) (r_Setor r) (r_Recomendacao r) (r_Preco_Alvo r).

Definition unmatched (h : HoldingRow) : MergedRow :=
  mkMerged (h_Ticker h) (h_Ultima_Cotacao h) (h_Posicao h)
           None None None NaN.

(** The rows of the right table with the key of [h], in their order; a
    left row without any is kept once, its right columns missing. *)
Definition merge_one (reco_df : list RecoRow) (h : HoldingRow) : list MergedRow :=
  match filter (fun r => String.eqb (r_Ticker r) (h_Ticker h)) reco_df with
  | [] => [unmatched h]
  | matches => map (joined h) matches
  end.

Definition pd_merge_left (portfolio_df : list HoldingRow)
           (reco_df : list RecoRow) : list MergedRow :=
  flat_map (merge_one reco_df) portfolio_df.

(** [Series.fillna(v)] on a text column. *)
Definition fillna_str (v : string) (x : option string) : string :=
  match x with Some s => s | None => v end.

(** [Series.where(cond, other)] at one position. *)
Definition where_ (cond : bool) (x other : fval) : fval :=
  if cond then x else other.

(** Lines 160-165 at one row. *)
Definition analysis_row (m : MergedRow) : AnalysisRow :=
  let setor := fillna_str "Não Classificado" (m_Setor m) in
  let preco_alvo := fillna (Fin (qz 0)) (m_Preco_Alvo m) in
  let potencial :=
    fmul (fsub (fdiv preco_alvo (m_Ultima_Cotacao m)) (Fin (qz 1)))
         (Fin (qz 100)) in
  let potencial :=
    where_ (fgt (m_Ultima_Cotacao m) (Fin (qz 0))) potencial (Fin (qz 0)) in
  let potencial := fillna (Fin (qz 0)) potencial in
  mkAnalysis (m_Ticker m) (m_Ultima_Cotacao m) (m_Posicao m) (m_Empresa m)
             setor (m_Recomendacao m) preco_alvo potencial.

Definition analysis_df (portfolio_df : list HoldingRow)
           (reco_df : list RecoRow) : list AnalysisRow :=
  map analysis_row (pd_merge_left portfolio_df reco_df).

(** ** Sorting and grouping *)

Section InsertionSort.
Context {A : Type} (before : A -> A -> bool).

Fixpoint insert_by (x : A) (l : list A) : list A :=
  match l with
  | [] => [x]
  | y :: l' => if before x y then x :: l else y :: insert_by x l'
  end.

(** Stable: of two elements neither of which must follow the other, the
    one that came first stays first. *)
Definition sort_by (l : list A) : list A := fold_right insert_by [] l.
End InsertionSort.

(** Order of [sort_values(ascending=False)]: larger values first, NaN
    last. *)
Definition desc_before (x y : fval) : bool :=
  if is_nan y then true
  else if is_nan x then false
  else negb (fgt y x).

(** Sum of the positions of the rows of one sector. *)
Definition sector_sum (df : list AnalysisRow) (sector : string) : fval :=
  fsum (map Posicao (filter (fun r => String.eqb (Setor r) sector) df)).

(** The group keys of [groupby('Setor')]: each sector once, sorted. *)
Definition group_keys (df : list AnalysisRow) : list string :=
  sort_by String.leb (nodup string_dec (map Setor df)).

(** [df.groupby('Setor')['Posição (R$)'].sum()] *)
Definition groupby_sum (df : list AnalysisRow) : list (string * fval) :=
  map (fun k => (k, sector_sum df k)) (group_keys df).

(** [series.sort_values(ascending=False)] *)
Definition sort_values_desc (s : list (string * fval)) : list (string * fval) :=
  sort_by (fun a b => desc_before (snd a) (snd b)) s.

(** [(series / total) * 100] *)
Definition percent_of (total : fval) (s : list (string * fval))
  : list (string * fval) :=
  map (fun kv => (fst kv, fmul (fdiv (snd kv) total) (Fin (qz 100)))) s.

(** Lines 169-171: the sector table with its [Percentual] column. *)
Definition sector_allocation (df : list AnalysisRow) : list (string * fval * fval) :=
  let total_portfolio_value := fsum (map Posicao df) in
  map (fun kv =>
         (fst kv, snd kv,
          fmul (fdiv (snd kv) total_portfolio_value) (Fin (qz 100))))
      (groupby_sum df).

(** ** Number formatting: [format(x, '.Nf')] *)

(** Nearest integer, ties to even. *)
Definition round_half_even (q : Q) : Z :=
  let f := Qfloor q in
  let r := (q - inject_Z f)%Q in
  match Qcompare r (1 # 2) with
  | Lt => f
  | Gt => (f + 1)%Z
  | Eq => if Z.even f then f else (f + 1)%Z
  end.

Definition Z_to_string (z : Z) : string :=
  NilZero.string_of_uint (N.to_uint (Z.to_N z)).

Fixpoint zeros (n : nat) : string :=
  match n with
  | O => EmptyString
  | S k => String "0"%char (zeros k)
  end.

(** [n] written with at least [width] digits. *)
Definition pad_digits (width : nat) (n : Z) : string :=
  let s := Z_to_string n in
  (zeros (width - String.length s) ++ s)%string.

Definition format_fixed (decimals : nat) (x : fval) : string :=
  match x with
  | NaN => "nan"
  | PInf => "inf"
  | NInf => "-inf"
  | Fin q =>
      let unit := (10 ^ Z.of_nat decimals)%Z in
      let n := round_half_even (Qabs q * inject_Z unit)%Q in
      let sign := if Qc_ltb q (qz 0) then "-" else "" in
      let ipart := Z_to_string (n / unit) in
      match decimals with
      | O => (sign ++ ipart)%string
      | _ => (sign ++ ipart ++ "." ++ pad_digits decimals (n mod unit))%string
      end
  end.

(** ** [generate_recommendation_text], lines 89-136, over exact numbers

    The text is built by appending; each appended piece is a [part], and
    [render] gives the characters it stands for.  This reading tells
    whether the function returns and which shares it works with; what is
    printed, digit by digit, is the matter of the binary64 reading
    below. *)

Inductive part : Type :=
| Greeting
| Intro
| AllocationHeader
| AllocationLine (sector : string) (percent : fval)
| ConcentrationRemark (sector : string)
| Blank
| BuyHeader
| BuyLine (ticker sector : string) (potencial preco_alvo : fval)
| AttentionHeader
| AttentionLine (ticker sector recomendacao : string)
| NextStepsHeader
| NextSteps
| Closing
| Signature.

Definition nl : string := String "010"%char EmptyString.

Definition render (p : part) : string :=
  (match p with
   | Greeting => "Olá! Tudo bem?" ++ nl ++ nl
   | Intro =>
       "Fiz uma análise da sua carteira de investimentos com base nas nossas recomendações mais recentes e na alocação atual. Seguem os principais pontos:"
       ++ nl ++ nl
   | AllocationHeader => "📊 **Alocação Setorial:**" ++ nl
   | AllocationLine sector percent =>
       "- **" ++ sector ++ ":** " ++ format_fixed 1 percent ++ "%" ++ nl
   | ConcentrationRemark sector =>
       nl ++ "Sua carteira apresenta uma concentração um pouco maior no setor de **"
       ++ sector
       ++ "**. Podemos avaliar estratégias para diversificar e mitigar riscos, se estiver de acordo com seu perfil."
       ++ nl
   | Blank => nl
   | BuyHeader =>
       "👍 **Pontos Fortes e Oportunidades (Recomendação de Compra):**" ++ nl
   | BuyLine ticker sector potencial preco_alvo =>
       "- **" ++ ticker ++ " (" ++ sector
       ++ "):** Mantemos uma visão positiva para o ativo, com um potencial de valorização de **"
       ++ format_fixed 2 potencial
       ++ "%** em relação ao nosso preço-alvo de R$ "
       ++ format_fixed 2 preco_alvo ++ "." ++ nl
   | AttentionHeader =>
       "⚠️ **Pontos de Atenção (Recomendação Neutra ou Venda):**" ++ nl
   | AttentionLine ticker sector recomendacao =>
       "- **" ++ ticker ++ " (" ++ sector
       ++ "):** Nossa recomendação atual é **" ++ recomendacao
       ++ "**. Seria interessante conversarmos sobre a possibilidade de realocar essa posição para ativos com maior potencial de crescimento no setor ou em outros setores estratégicos."
       ++ nl
   | NextStepsHeader => "💡 **Próximos Passos:**" ++ nl
   | NextSteps =>
       "Com base nesta análise, sugiro agendarmos uma conversa para discutirmos esses pontos e alinharmos a estratégia da sua carteira com seus objetivos e nosso cenário de mercado."
       ++ nl ++ nl
   | Closing => "Qualquer dúvida, estou à disposição." ++ nl ++ nl
   | Signature => "Abraço!"
   end)%string.

(** [series.iloc[0]] *)
Definition iloc0 {A : Type} (s : list A) : result A :=
  match s with
  | x :: _ => Ok x
  | [] => Raise (IndexError "single positional indexer is out-of-bounds")
  end.

(** [column == label] at one row; a missing cell equals no label. *)
Definition label_is (label : string) (x : option string) : bool :=
  match x with
  | Some s => String.eqb s label
  | None => false
  end.

(** [column.isin(labels)] at one row. *)
Definition label_isin (labels : list string) (x : option string) : bool :=
  existsb (fun l => label_is l x) labels.

(** A text cell inside an f-string. *)
Definition str_of (x : option string) : string :=
  match x with Some s => s | None => "nan" end.

(** The rows labelled "Compra", by descending [Potencial]: line 112. *)
Definition compra_rows (analysis_df : list AnalysisRow) : list AnalysisRow :=
  sort_by (fun a b => desc_before (Potencial a) (Potencial b))
          (filter (fun r => label_is "Compra" (Recomendacao r)) analysis_df).

(** The rows labelled "Neutro" or "Venda": line 122. *)
Definition reavaliar_rows (analysis_df : list AnalysisRow) : list AnalysisRow :=
  filter (fun r => label_isin ["Neutro"; "Venda"] (Recomendacao r)) analysis_df.

(** The lines printed by the loop of lines 115-117. *)
Definition buy_lines (compra_df : list AnalysisRow) : list part :=
  flat_map
    (fun row =>
       if fgt (Potencial row) (Fin (qz 0))
       then [BuyLine (Ticker row) (Setor row) (Potencial row) (Preco_Alvo row)]
       else [])
    compra_df.

Definition attention_lines (reavaliar_df : list AnalysisRow) : list part :=
  map (fun row =>
         AttentionLine (Ticker row) (Setor row) (str_of (Recomendacao row)))
      reavaliar_df.

(** The sectors with their share of the total, largest sum first:
    lines 92-94. *)
Definition sector_percent (analysis_df : list AnalysisRow) : list (string * fval) :=
  let total_value := fsum (map Posicao analysis_df) in
  let sector_allocation := sort_values_desc (groupby_sum analysis_df) in
  percent_of total_value sector_allocation.

Definition narrative_parts (analysis_df : list AnalysisRow) : result (list part) :=
  let text := [Greeting; Intro] in
  (* 1. sector allocation *)
  let text := text ++ [AllocationHeader] in
  let top_sectors := firstn 3 (sector_percent analysis_df) in
  let text :=
    text ++ map (fun kv => AllocationLine (fst kv) (snd kv)) top_sectors in
  largest <- iloc0 top_sectors ;;
  let text :=
    if fgt (snd largest) (Fin (qz 35))
    then text ++ [ConcentrationRemark (fst largest)]
    else text in
  let text := text ++ [Blank] in
  (* 2. buy recommendations *)
  let compra_df := compra_rows analysis_df in
  let text :=
    match compra_df with
    | [] => text
    | _ => text ++ [BuyHeader] ++ buy_lines compra_df
    end in
  let text := text ++ [Blank] in
  (* 3. neutral or sell *)
  let reavaliar_df := reavaliar_rows analysis_df in
  let text :=
    match reavaliar_df with
    | [] => text
    | _ => text ++ [AttentionHeader] ++ attention_lines reavaliar_df
    end in
  let text := text ++ [Blank] in
  (* 4. closing *)
  Ok (text ++ [NextStepsHeader; NextSteps; Closing; Signature]).

Definition generate_recommendation_text (analysis_df : list AnalysisRow)
  : result string :=
  parts <- narrative_parts analysis_df ;;
  Ok (String.concat "" (map render parts)).

(** Lines 158-211 of the page: nothing is analysed unless both tables
    have rows. *)
Definition client_text (portfolio_df : list HoldingRow) (reco_df : list RecoRow)
  : option (result string) :=
  match portfolio_df, reco_df with
  | _ :: _, _ :: _ =>
      Some (generate_recommendation_text (analysis_df portfolio_df reco_df))
  | _, _ => None
  end.

(** ** Binary64 numbers

    Where the last bit of a number decides what is printed, the code is
    read over [float], the binary64 numbers of the kernel: their [+], [-],
    [*] and [/] round to nearest, ties to even, as the float64 columns of
    pandas do. *)

(** The number a binary64 value stands for; both zeros stand for 0. *)
Definition exact (x : float) : fval :=
  match Prim2SF x with
  | S754_zero _ => Fin (qz 0)
  | S754_infinity negative => if negative then NInf else PInf
  | S754_nan => NaN
  | S754_finite negative m e =>
      let v :=
        if (0 <=? e)%Z then qz (Zpos m * 2 ^ e)
        else Q2Qc (Zpos m # Z.to_pos (2 ^ (- e))) in
      Fin (if negative then (- v)%Qc else v)
  end.

Definition sign_bit (x : float) : bool :=
  match Prim2SF x with
  | S754_zero s | S754_infinity s | S754_finite s _ _ => s
  | S754_nan => false
  end.

(** [x > y] on binary64 numbers compares the numbers they stand for. *)
Definition float_gt (x y : float) : bool := fgt (exact x) (exact y).

(** [format(x, '.Nf')] of a binary64 number: the number it stands for,
    rounded half to even at [decimals] places.  A negative zero keeps its
    sign. *)
Definition format_float (decimals : nat) (x : float) : string :=
  match exact x with
  | Fin q =>
      if Qc_is_zero q && sign_bit x
      then ("-" ++ format_fixed decimals (Fin q))%string
      else format_fixed decimals (Fin q)
  | v => format_fixed decimals v
  end.

(** [Series.sum()] of a column of fewer than 8 numbers: NaN entries count
    as 0 and the rest is accumulated from the left, starting at 0. *)
Definition sequential_sum (l : list float) : float :=
  fold_left
    (fun acc x => (acc + (if is_nan (exact x) then 0 else x))%float) l 0%float.

(** ** [generate_recommendation_text] over binary64, lines 89-136

    A row carries the columns the function reads; the sector is a string,
    as it is once line 160 has filled the column.

    How pandas adds up a column, and in which order it leaves entries that
    compare equal when it sorts, depend on the length of the column and on
    the version.  The two sums and the two sorts are therefore parameters:
    [series_sum] for [Series.sum()] of line 92, [group_sum] for the sum of
    one group of line 93, [sort_sums] for the [sort_values] of line 93 and
    [sort_rows] for that of line 112. *)

Record Row64 : Type := mkRow64 {
  Ticker64 : string;
  Posicao64 : float;
  Setor64 : string;
  Recomendacao64 : option string;
  Preco_Alvo64 : float;
  Potencial64 : float
}.

(** Order of [sort_values(ascending=False)] on the sector sums and on the
    rows. *)
Definition by_sum (a b : string * float) : bool :=
  desc_before (exact (snd a)) (exact (snd b)).

Definition by_potencial64 (a b : Row64) : bool :=
  desc_before (exact (Potencial64 a)) (exact (Potencial64 b)).

(** A sort that leaves entries that compare equal in the order they
    had. *)
Definition stable_sort_sums (s : list (string * float)) : list (string * float) :=
  sort_by by_sum s.

Definition stable_sort_rows (df : list Row64) : list Row64 :=
  sort_by by_potencial64 df.

Section Binary64.
Variables series_sum group_sum : list float -> float.
Variable sort_sums : list (string * float) -> list (string * float).
Variable sort_rows : list Row64 -> list Row64.

Definition group_keys64 (df : list Row64) : list string :=
  sort_by String.leb (nodup string_dec (map Setor64 df)).

(** [df.groupby('Setor')['Posição (R$)'].sum()] *)
Definition groupby_sum64 (df : list Row64) : list (string * float) :=
  map (fun k =>
         (k, group_sum
               (map Posicao64
                    (filter (fun r => String.eqb (Setor64 r) k) df))))
      (group_keys64 df).

(** Line 93: the sector sums, largest first, NaN last. *)
Definition sector_allocation64 (df : list Row64) : list (string * float) :=
  sort_sums (groupby_sum64 df).

(** Line 94. *)
Definition sector_percent64 (df : list Row64) : list (string * float) :=
  let total_value := series_sum (map Posicao64 df) in
  map (fun kv => (fst kv, (snd kv / total_value * 100)%float))
      (sector_allocation64 df).

(** Line 112. *)
Definition compra_rows64 (df : list Row64) : list Row64 :=
  sort_rows (filter (fun r => label_is "Compra" (Recomendacao64 r)) df).

(** Line 122. *)
Definition reavaliar_rows64 (df : list Row64) : list Row64 :=
  filter (fun r => label_isin ["Neutro"; "Venda"] (Recomendacao64 r)) df.

Definition generate_recommendation_text64 (analysis_df : list Row64)
  : result string :=
  let sector_percent := sector_percent64 analysis_df in
  let text := ("Olá! Tudo bem?" ++ nl ++ nl)%string in
  let text :=
    (text
     ++ "Fiz uma análise da sua carteira de investimentos com base nas nossas recomendações mais recentes e na alocação atual. Seguem os principais pontos:"
     ++ nl ++ nl)%string in
  (* 1. sector allocation *)
  let text := (text ++ "📊 **Alocação Setorial:**" ++ nl)%string in
  let top_sectors := firstn 3 sector_percent in
  let text :=
    fold_left
      (fun text kv =>
         (text ++ "- **" ++ fst kv ++ ":** " ++ format_float 1 (snd kv)
          ++ "%" ++ nl)%string)
      top_sectors text in
  largest <- iloc0 top_sectors ;;
  let text :=
    if float_gt (snd largest) 35
    then
      (text ++ nl
       ++ "Sua carteira apresenta uma concentração um pouco maior no setor de **"
       ++ fst largest
       ++ "**. Podemos avaliar estratégias para diversificar e mitigar riscos, se estiver de acordo com seu perfil."
       ++ nl)%string
    else text in
  let text := (text ++ nl)%string in
  (* 2. buy recommendations *)
  let compra_df := compra_rows64 analysis_df in
  let text :=
    match compra_df with
    | [] => text
    | _ =>
        fold_left
          (fun text row =>
             if float_gt (Potencial64 row) 0
             then
               (text ++ "- **" ++ Ticker64 row ++ " (" ++ Setor64 row
                ++ "):** Mantemos uma visão positiva para o ativo, com um potencial de valorização de **"
                ++ format_float 2 (Potencial64 row)
                ++ "%** em relação ao nosso preço-alvo de R$ "
                ++ format_float 2 (Preco_Alvo64 row) ++ "." ++ nl)%string
             else text)
          compra_df
          (text
           ++ "👍 **Pontos Fortes e Oportunidades (Recomendação de Compra):**"
           ++ nl)%string
    end in
  let text := (text ++ nl)%string in
  (* 3. neutral or sell *)
  let reavaliar_df := reavaliar_rows64 analysis_df in
  let text :=
    match reavaliar_df with
    | [] => text
    | _ =>
        fold_left
          (fun text row =>
             (text ++ "- **" ++ Ticker64 row ++ " (" ++ Setor64 row
              ++ "):** Nossa recomendação atual é **"
              ++ str_of (Recomendacao64 row)
              ++ "**. Seria interessante conversarmos sobre a possibilidade de realocar essa posição para ativos com maior potencial de crescimento no setor ou em outros setores estratégicos."
              ++ nl)%string)
          reavaliar_df
          (text
           ++ "⚠️ **Pontos de Atenção (Recomendação Neutra ou Venda):**"
           ++ nl)%string
    end in
  let text := (text ++ nl)%string in
  (* 4. closing *)
  let text := (text ++ "💡 **Próximos Passos:**" ++ nl)%string in
  let text :=
    (text
     ++ "Com base nesta análise, sugiro agendarmos uma conversa para discutirmos esses pontos e alinharmos a estratégia da sua carteira com seus objetivos e nosso cenário de mercado."
     ++ nl ++ nl)%string in
  let text := (text ++ "Qualquer dúvida, estou à disposição." ++ nl ++ nl)%string in
  Ok (text ++ "Abraço!")%string.
End Binary64.

(** ** Definitions used by the statements *)

(** What [clean_value] hands to [float] for a string. *)
Definition stripped_amount (s : string) : string :=
  replace "," "." (replace "." "" (strip (replace "R$" "" s))).

(** The value of a call that returned. *)
Definition value_of (r : result fval) : fval :=
  match r with Ok x => x | Raise _ => Fin (qz 0) end.

(** The rows one line contributes. *)
Definition line_rows (line : string) : list HoldingRow :=
  match line_regex_search line with
  | Some (ativo, ultima_cotacao, posicao) =>
      if not_in ativo denylist
      then [mkHolding ativo (value_of (clean_value (PStr ultima_cotacao)))
                      (value_of (clean_value (PStr posicao)))]
      else []
  | None => []
  end.

(** A small portfolio and recommendation table: "C" is quoted at 0 and
    "D" has no recommendation. *)
Definition sample_holdings : list HoldingRow :=
  [ mkHolding "A" (Fin (qz 5)) (Fin (qz 1000));
    mkHolding "B" (Fin (qz 5)) (Fin (qz 3000));
    mkHolding "C" (Fin (qz 0)) (Fin (qz 10));
    mkHolding "D" (Fin (qz 4)) (Fin (qz 40)) ].

Definition sample_reco : list RecoRow :=
  [ mkReco "A" (Some "Alfa") (Some "X") (Some "Compra") (Fin (qz 10));
    mkReco "B" (Some "Beta") (Some "Y") (Some "Venda") (Fin (qz 20));
    mkReco "C" (Some "Gama") (Some "X") (Some "Compra") (Fin (qz 7));
    mkReco "Z" (Some "Zeta") (Some "W") (Some "Neutro") (Fin (qz 1)) ].

Definition sample_row_A : AnalysisRow :=
  mkAnalysis "A" (Fin (qz 5)) (Fin (qz 1000)) (Some "Alfa") "X" (Some "Compra")
             (Fin (qz 10)) (Fin (qz 100)).

Definition sample_row_D : AnalysisRow :=
  mkAnalysis "D" (Fin (qz 4)) (Fin (qz 40)) None "Não Classificado" None
             (Fin (qz 0)) (Fin (qz (-100))).

(** The rational carried by a finite float. *)
Definition fin_part (x : fval) : Qc :=
  match x with Fin q => q | _ => 0%Qc end.

(** Rational sum of the finite entries. *)
Definition qsum (l : list fval) : Qc :=
  fold_right (fun x acc => (fin_part x + acc)%Qc) 0%Qc l.

Definition fin_or_nan (x : fval) : Prop :=
  match x with Fin _ | NaN => True | _ => False end.

(** Sum of [f] over a list of keys. *)
Definition ksum (f : string -> Qc) (keys : list string) : Qc :=
  fold_right (fun k acc => (f k + acc)%Qc) 0%Qc keys.

(** Rational sum of the positions of one sector. *)
Definition sector_q (df : list AnalysisRow) (sector : string) : Qc :=
  qsum (map Posicao (filter (fun r => String.eqb (Setor r) sector) df)).

(** An analysis table of total 1000 in which sector "X" holds 400. *)
Definition sample_analysis : list AnalysisRow :=
  [ mkAnalysis "A" (Fin (qz 5)) (Fin (qz 400)) (Some "Alfa") "X" (Some "Compra")
               (Fin (qz 10)) (Fin (qz 100));
    mkAnalysis "B" (Fin (qz 5)) (Fin (qz 250)) (Some "Beta") "Y" (Some "Venda")
               (Fin (qz 20)) (Fin (qz 300));
    mkAnalysis "C" (Fin (qz 2)) (Fin (qz 150)) (Some "Gama") "W" (Some "Compra")
               (Fin (qz 7)) (Fin (qz 250));
    mkAnalysis "D" (Fin (qz 4)) (Fin (qz 200)) None "Não Classificado" None
               (Fin (qz 0)) (Fin (qz (-100))) ].

(** The blocks of the text, as [narrative_parts] appends them. *)
Definition allocation_lines (top_sectors : list (string * fval)) : list part :=
  map (fun kv => AllocationLine (fst kv) (snd kv)) top_sectors.

Definition remark_block (largest : string * fval) : list part :=
  if fgt (snd largest) (Fin (qz 35))
  then [ConcentrationRemark (fst largest)]
  else [].

Definition buy_block (df : list AnalysisRow) : list part :=
  match compra_rows df with
  | [] => []
  | rows => [BuyHeader] ++ buy_lines rows
  end.

Definition attention_block (df : list AnalysisRow) : list part :=
  match reavaliar_rows df with
  | [] => []
  | rows => [AttentionHeader] ++ attention_lines rows
  end.

(** [piece] is a contiguous part of [text]. *)
Definition occurs (piece text : string) : Prop :=
  exists pre post, text = (pre ++ piece ++ post)%string.

(** ** Definitions used by the further properties *)

Fixpoint all_chars (p : ascii -> bool) (s : string) : bool :=
  match s with
  | EmptyString => true
  | String c s' => p c && all_chars p s'
  end.

(** [[A-Z0-9]+] *)
Definition is_ticker (g : string) : Prop :=
  g <> EmptyString /\ all_chars is_ticker_char g = true.

(** [\s+] *)
Definition is_gap (w : string) : Prop :=
  w <> EmptyString /\ all_chars is_space w = true.

(** [R\$\s*[\d,\.]+] *)
Definition is_amount (g : string) : Prop :=
  exists sp ds,
    g = ("R$" ++ sp ++ ds)%string
    /\ all_chars is_space sp = true
    /\ ds <> EmptyString /\ all_chars is_amount_char ds = true.

(** [s] starts with a match of the pattern whose groups are [g1], [g2]
    and [g3]. *)
Definition pattern_at (s g1 g2 g3 : string) : Prop :=
  exists w1 mid w2 w3 post,
    s = (g1 ++ w1 ++ mid ++ w2 ++ g2 ++ w3 ++ g3 ++ post)%string
    /\ is_ticker g1 /\ is_gap w1 /\ all_chars is_dot mid = true
    /\ is_gap w2 /\ is_amount g2 /\ is_gap w3 /\ is_amount g3.

(** Some suffix of [line] starts with such a match. *)
Definition pattern_in (line g1 g2 g3 : string) : Prop :=
  exists pre s, line = (pre ++ s)%string /\ pattern_at s g1 g2 g3.

(** Every byte is below 128: the text holds ASCII characters only. *)
Definition is_ascii (s : string) : bool :=
  all_chars (fun c => (code c <? 128)%nat) s.

Definition sample_line : string := "PETR4  100  R$ 30,50  R$ 3.050,00".

Definition sample_text : string :=
  "Ativo Qtd Cotacao Posicao" ++ nl
  ++ "PETR4  100  R$ 30,50  R$ 3.050,00" ++ nl
  ++ "AURE3S 10 R$ 1,00 R$ 2,00" ++ nl
  ++ "VALE3 7 R$ 60,00 R$ 420,00".

(** A digit or a point: what is left of an amount once cleaned. *)
Definition is_plain (c : ascii) : bool := is_digit c || Ascii.eqb c "."%char.

(** *** The page, lines 180-197 *)

(** Truth value of a float: only zero is false. *)
Definition truthy (x : fval) : bool :=
  match x with
  | Fin q => negb (Qc_is_zero q)
  | _ => true
  end.

(** The text of the metric "Potencial de Valorização", line 197. *)
Definition potencial_metric (row : AnalysisRow) : string :=
  if truthy (Potencial row) && fgt (Preco_Alvo row) (Fin (qz 0))
  then (format_fixed 2 (Potencial row) ++ "%")%string
  else "N/A".

(** Digits in groups of three from the right, as the [,] of a format
    specification writes them. *)
Definition group_boundary (digits_left : nat) : bool :=
  (0 <? digits_left)%nat && (digits_left mod 3 =? 0)%nat.

Fixpoint group_digits (sep : ascii) (s : string) : string :=
  match s with
  | EmptyString => EmptyString
  | String c s' =>
      if group_boundary (String.length s')
      then String c (String sep (group_digits sep s'))
      else String c (group_digits sep s')
  end.

(** [format(x, ',.Nf')] *)
Definition format_grouped (decimals : nat) (x : fval) : string :=
  match x with
  | NaN => "nan"
  | PInf => "inf"
  | NInf => "-inf"
  | Fin q =>
      let unit := (10 ^ Z.of_nat decimals)%Z in
      let n := round_half_even (Qabs q * inject_Z unit)%Q in
      let sign := if Qc_ltb q (qz 0) then "-" else "" in
      let ipart := group_digits ","%char (Z_to_string (n / unit)) in
      match decimals with
      | O => (sign ++ ipart)%string
      | _ => (sign ++ ipart ++ "." ++ pad_digits decimals (n mod unit))%string
      end
  end.

(** [posicao_formatada], line 185. *)
Definition posicao_formatada (x : fval) : string :=
  replace "X" "." (replace "." "," (replace "," "X"
    ("R$ " ++ format_grouped 2 x)%string)).

Fixpoint map_string (f : ascii -> ascii) (s : string) : string :=
  match s with
  | EmptyString => EmptyString
  | String c s' => String (f c) (map_string f s')
  end.

(** Commas and points exchanged. *)
Definition swap_separators (c : ascii) : ascii :=
  if Ascii.eqb c ","%char then "."%char
  else if Ascii.eqb c "."%char then ","%char
  else c.

(** The number of cents nearest to [q], as a signed fraction. *)
Definition to_cents (q : Qc) : Qc :=
  let n := round_half_even (Qabs q * inject_Z 100)%Q in
  if Qc_ltb q (qz 0) then (- Q2Qc (n # 100))%Qc else Q2Qc (n # 100).

Definition two_digits_ok (k : nat) : bool :=
  let f := pad_digits 2 (Z.of_nat k) in
  all_chars is_digit f && (String.length f =? 2)%nat
  && (digits_value 0 f =? N.of_nat k)%N.

(** Neither NaN nor below zero. *)
Definition not_negative (x : fval) : Prop :=
  is_nan x = false /\ fgt (Fin (qz 0)) x = false.

(** A digit, a separator or a minus sign. *)
Definition is_signed_amount_char (c : ascii) : bool :=
  is_amount_char c || Ascii.eqb c "-"%char.

Definition nonneg_number (x : fval) : Prop :=
  exists q, x = Fin q /\ (0 <= q)%Qc.

(** ** Definitions used by the statements over binary64 *)

(** Lines 97-101. *)
Definition opening_text : string :=
  "Olá! Tudo bem?" ++ nl ++ nl
  ++ "Fiz uma análise da sua carteira de investimentos com base nas nossas recomendações mais recentes e na alocação atual. Seguem os principais pontos:"
  ++ nl ++ nl
  ++ "📊 **Alocação Setorial:**" ++ nl.

(** Lines 131-134. *)
Definition closing_text : string :=
  "💡 **Próximos Passos:**" ++ nl
  ++ "Com base nesta análise, sugiro agendarmos uma conversa para discutirmos esses pontos e alinharmos a estratégia da sua carteira com seus objetivos e nosso cenário de mercado."
  ++ nl ++ nl
  ++ "Qualquer dúvida, estou à disposição." ++ nl ++ nl
  ++ "Abraço!".

Definition allocation_line_text (kv : string * float) : string :=
  "- **" ++ fst kv ++ ":** " ++ format_float 1 (snd kv) ++ "%" ++ nl.

Definition allocation_text (top_sectors : list (string * float)) : string :=
  String.concat "" (map allocation_line_text top_sectors).

Definition remark_text (largest : string * float) : string :=
  if float_gt (snd largest) 35
  then
    nl ++ "Sua carteira apresenta uma concentração um pouco maior no setor de **"
    ++ fst largest
    ++ "**. Podemos avaliar estratégias para diversificar e mitigar riscos, se estiver de acordo com seu perfil."
    ++ nl
  else "".

Definition buy_line_text (row : Row64) : string :=
  "- **" ++ Ticker64 row ++ " (" ++ Setor64 row
  ++ "):** Mantemos uma visão positiva para o ativo, com um potencial de valorização de **"
  ++ format_float 2 (Potencial64 row)
  ++ "%** em relação ao nosso preço-alvo de R$ "
  ++ format_float 2 (Preco_Alvo64 row) ++ "." ++ nl.

Definition buy_text (compra_df : list Row64) : string :=
  match compra_df with
  | [] => ""
  | _ =>
      "👍 **Pontos Fortes e Oportunidades (Recomendação de Compra):**" ++ nl
      ++ String.concat ""
           (map buy_line_text
                (filter (fun row => float_gt (Potencial64 row) 0) compra_df))
  end.

Definition attention_line_text (row : Row64) : string :=
  "- **" ++ Ticker64 row ++ " (" ++ Setor64 row
  ++ "):** Nossa recomendação atual é **" ++ str_of (Recomendacao64 row)
  ++ "**. Seria interessante conversarmos sobre a possibilidade de realocar essa posição para ativos com maior potencial de crescimento no setor ou em outros setores estratégicos."
  ++ nl.

Definition attention_text (reavaliar_df : list Row64) : string :=
  match reavaliar_df with
  | [] => ""
  | _ =>
      "⚠️ **Pontos de Atenção (Recomendação Neutra ou Venda):**" ++ nl
      ++ String.concat "" (map attention_line_text reavaliar_df)
  end.

(** [s] prints the number [x] stands for, rounded half to even at
    [decimals] places: a minus sign when the sign bit is set, the digits
    of the integer part without leading zeros, a point and [decimals]
    digits. *)
Definition shows_rounded (decimals : nat) (x : float) (s : string) : Prop :=
  match exact x with
  | NaN => s = "nan"
  | PInf => s = "inf"
  | NInf => s = "-inf"
  | Fin q =>
      exists ip fp : string,
        s = ((if sign_bit x then "-" else "") ++ ip ++ "." ++ fp)%string
        /\ ip <> EmptyString /\ all_chars is_digit ip = true
        /\ (ip = "0" \/ startswith "0" ip = false)
        /\ String.length fp = decimals /\ all_chars is_digit fp = true
        /\ let n := Z.of_N (digits_value 0 (ip ++ fp)) in
           let t := (Qabs q * inject_Z (10 ^ Z.of_nat decimals))%Q in
           (Qabs (inject_Z n - t) <= 1 # 2)%Q
           /\ (Qabs (inject_Z n - t) == 1 # 2 -> Z.even n = true)%Q
  end.

Definition one_digit_ok (k : nat) : bool :=
  let f := pad_digits 1 (Z.of_nat k) in
  all_chars is_digit f && (String.length f =? 1)%nat
  && (digits_value 0 f =? N.of_nat k)%N.

(** Four sectors of one holding each: 139.32, 209.58, 251.44 and 118.06,
    which add up to 718.40, of which 251.44 is 35%. *)
Definition boundary_rows : list Row64 :=
  [ mkRow64 "A1" (13932 / 100) "A" None 0 0;
    mkRow64 "B1" (20958 / 100) "B" None 0 0;
    mkRow64 "C1" (25144 / 100) "C" None 0 0;
    mkRow64 "D1" (11806 / 100) "D" None 0 0 ].

(** The sample analysis table over binary64: total 1000, sector "X"
    holds 400. *)
Definition sample_rows : list Row64 :=
  [ mkRow64 "A" 400 "X" (Some "Compra") 10 100;
    mkRow64 "B" 250 "Y" (Some "Venda") 20 300;
    mkRow64 "C" 150 "W" (Some "Compra") 7 250;
    mkRow64 "D" 200 "Não Classificado" None 0 (-100);
    mkRow64 "E" 0 "W" (Some "Compra") 3 (-25) ].

(** The share of a sector in exact arithmetic, in percent. *)
Definition exact_share (df : list Row64) (sector : string) : Qc :=
  (qsum (map (fun r => exact (Posicao64 r))
             (filter (fun r => String.eqb (Setor64 r) sector) df))
   / qsum (map (fun r => exact (Posicao64 r)) df) * qz 100)%Qc.

(** The function with sums taken from the left and stable sorts. *)
Definition narrative64 (df : list Row64) : result string :=
  generate_recommendation_text64 sequential_sum sequential_sum
    stable_sort_sums stable_sort_rows df.

(** The text for [sample_rows]. *)
Definition sample_narrative : string :=
  opening_text
  ++ "- **X:** 40.0%" ++ nl
  ++ "- **Y:** 25.0%" ++ nl
  ++ "- **Não Classificado:** 20.0%" ++ nl
  ++ nl
  ++ "Sua carteira apresenta uma concentração um pouco maior no setor de **X**. Podemos avaliar estratégias para diversificar e mitigar riscos, se estiver de acordo com seu perfil."
  ++ nl
  ++ nl
  ++ "👍 **Pontos Fortes e Oportunidades (Recomendação de Compra):**" ++ nl
  ++ "- **C (W):** Mantemos uma visão positiva para o ativo, com um potencial de valorização de **250.00%** em relação ao nosso preço-alvo de R$ 7.00."
  ++ nl
  ++ "- **A (X):** Mantemos uma visão positiva para o ativo, com um potencial de valorização de **100.00%** em relação ao nosso preço-alvo de R$ 10.00."
  ++ nl
  ++ nl
  ++ "⚠️ **Pontos de Atenção (Recomendação Neutra ou Venda):**" ++ nl
  ++ "- **B (Y):** Nossa recomendação atual é **Venda**. Seria interessante conversarmos sobre a possibilidade de realocar essa posição para ativos com maior potencial de crescimento no setor ou em outros setores estratégicos."
  ++ nl
  ++ nl
  ++ closing_text.

(** The text for [boundary_rows]. *)
Definition boundary_narrative : string :=
  opening_text
  ++ "- **C:** 35.0%" ++ nl
  ++ "- **B:** 29.2%" ++ nl
  ++ "- **A:** 19.4%" ++ nl
  ++ nl
  ++ "Sua carteira apresenta uma concentração um pouco maior no setor de **C**. Podemos avaliar estratégias para diversificar e mitigar riscos, se estiver de acordo com seu perfil."
  ++ nl
  ++ nl ++ nl ++ nl
  ++ closing_text.

(** * Properties *)

(** Equal tables of computed values: rationals are compared by their
    reduced fractions. *)
Ltac same_values :=
  repeat first [apply Qc_is_canon; reflexivity | reflexivity | f_equal].

(** ** Rational comparisons *)

Lemma Qc_ltb_true (a b : Qc) : Qc_ltb a b = true <-> (a < b)%Qc.
Proof.
  unfold Qc_ltb. rewrite Qclt_alt.
  destruct (Qccompare a b); split; intro H; congruence.
Qed.

Lemma Qc_ltb_false (a b : Qc) : Qc_ltb a b = false <-> (b <= a)%Qc.
Proof.
  split; intro H.
  - apply Qcnot_lt_le. intro L. apply Qc_ltb_true in L. congruence.
  - destruct (Qc_ltb a b) eqn:E; [|reflexivity].
    apply Qc_ltb_true in E. exfalso. exact (Qcle_not_lt _ _ H E).
Qed.

Lemma Qc_is_zero_true (a : Qc) : Qc_is_zero a = true <-> a = qz 0.
Proof.
  unfold Qc_is_zero. split; intro H.
  - apply Qc_eq_bool_correct. exact H.
  - subst a. reflexivity.
Qed.

Lemma Qc_is_zero_false (a : Qc) : Qc_is_zero a = false <-> a <> qz 0.
Proof.
  split; intro H.
  - intro E. apply Qc_is_zero_true in E. congruence.
  - destruct (Qc_is_zero a) eqn:E; [|reflexivity].
    apply Qc_is_zero_true in E. contradiction.
Qed.

Lemma qz0 : qz 0 = 0%Qc.
Proof. apply Qc_is_canon. reflexivity. Qed.

Lemma qz1 : qz 1 = 1%Qc.
Proof. apply Qc_is_canon. reflexivity. Qed.

Lemma Qc_pos_nonzero (q : Qc) : (0 < q)%Qc -> Qc_is_zero q = false.
Proof.
  intro H. apply Qc_is_zero_false. rewrite qz0. intro E. subst q.
  exact (Qclt_not_eq _ _ H eq_refl).
Qed.

(** ** The monetary parser *)

Lemma clean_value_str (s : string) :
  clean_value (PStr s) =
  match py_float_str (stripped_amount s) with
  | Some x => Ok x
  | None => Ok (Fin (qz 0))
  end.
Proof.
  unfold clean_value, stripped_amount, py_float, try_except.
  destruct (py_float_str _); reflexivity.
Qed.

Lemma clean_value_str_returns (s : string) :
  exists x, clean_value (PStr s) = Ok x.
Proof.
  rewrite clean_value_str. destruct (py_float_str _); eauto.
Qed.

(** C4: [clean_value] on the three sample inputs, and on every string
    that [float] refuses once the currency symbol and the separators are
    handled: the result is 0.0; no string input raises. *)
Theorem clean_value_spec :
  clean_value (PStr "R$ 1.275,34") = Ok (Fin (Q2Qc (127534 # 100)))
  /\ clean_value (PStr "") = Ok (Fin (qz 0))
  /\ clean_value (PInt 42) = Ok (Fin (qz 42))
  /\ (forall s, py_float (PStr (stripped_amount s))
                = Raise (ValueError "could not convert string to float") ->
                clean_value (PStr s) = Ok (Fin (qz 0)))
  /\ (forall s, exists x, clean_value (PStr s) = Ok x).
Proof.
  split; [vm_compute; f_equal; f_equal; apply Qc_is_canon; reflexivity|].
  split; [reflexivity|].
  split; [reflexivity|].
  split.
  - intros s H. rewrite clean_value_str. simpl in H.
    destruct (py_float_str (stripped_amount s)); [discriminate|reflexivity].
  - exact clean_value_str_returns.
Qed.

Lemma clean_value_spec_witness :
  py_float (PStr (stripped_amount "R$ 12,x"))
  = Raise (ValueError "could not convert string to float")
  /\ clean_value (PStr "R$ 12,x") = Ok (Fin (qz 0)).
Proof.
  split; [reflexivity|].
  apply (proj1 (proj2 (proj2 (proj2 clean_value_spec)))).
  reflexivity.
Defined.

(** ** The extractor *)

Lemma process_line_rows (line : string) (acc : list HoldingRow) :
  process_line line acc = Ok (acc ++ line_rows line).
Proof.
  unfold process_line, line_rows.
  destruct (line_regex_search line) as [[[a q] p]|]; [|now rewrite app_nil_r].
  destruct (not_in a denylist); [|now rewrite app_nil_r].
  destruct (clean_value_str_returns q) as [x ->].
  destruct (clean_value_str_returns p) as [y ->].
  reflexivity.
Qed.

Lemma process_lines_rows (lines : list string) (acc : list HoldingRow) :
  process_lines lines acc = Ok (acc ++ flat_map line_rows lines).
Proof.
  revert acc. induction lines as [|l ls IH]; intro acc; simpl.
  - now rewrite app_nil_r.
  - rewrite process_line_rows. simpl. rewrite IH, <- app_assoc. reflexivity.
Qed.

Lemma process_portfolio_text_rows (text : string) :
  process_portfolio_text text = flat_map line_rows (split_lines (strip text)).
Proof.
  unfold process_portfolio_text. rewrite process_lines_rows. simpl.
  now destruct (flat_map line_rows _).
Qed.

Lemma denylisted_not_in (ativo : string) :
  In ativo denylist -> not_in ativo denylist = false.
Proof.
  intro H. unfold not_in. apply negb_false_iff, existsb_exists.
  exists ativo. split; [exact H|apply String.eqb_refl].
Qed.

(** C7: a line that matches the pattern with a denylisted ticker adds no
    row, and the rows of the lines around it are the ones they give
    without it. *)
Theorem denylisted_line_dropped :
  forall (before after : list string) (line ativo cotacao posicao : string)
         (acc : list HoldingRow),
    line_regex_search line = Some (ativo, cotacao, posicao) ->
    In ativo denylist ->
    process_line line acc = Ok acc
    /\ process_lines (before ++ line :: after) []
       = process_lines (before ++ after) []
    /\ exists rows_before rows_after,
        process_lines before [] = Ok rows_before
        /\ process_lines after [] = Ok rows_after
        /\ process_lines (before ++ line :: after) []
           = Ok (rows_before ++ rows_after).
Proof.
  intros before after line ativo cotacao posicao acc Hm Hd.
  assert (Hl : line_rows line = []).
  { unfold line_rows. rewrite Hm, (denylisted_not_in _ Hd). reflexivity. }
  split; [|split].
  - rewrite process_line_rows, Hl, app_nil_r. reflexivity.
  - rewrite !process_lines_rows, !flat_map_app. simpl. rewrite Hl. reflexivity.
  - exists (flat_map line_rows before), (flat_map line_rows after).
    rewrite !process_lines_rows, flat_map_app. simpl. rewrite Hl.
    repeat split.
Qed.

Lemma denylisted_line_dropped_witness :
  process_lines
    (["PETR4  100  R$ 30,50  R$ 3.050,00"]
       ++ "AURE3S 10 R$ 1,00 R$ 2,00" :: ["VALE3 7 R$ 60,00 R$ 420,00"]) []
  = process_lines
      (["PETR4  100  R$ 30,50  R$ 3.050,00"] ++ ["VALE3 7 R$ 60,00 R$ 420,00"])
      [].
Proof.
  apply (denylisted_line_dropped
           ["PETR4  100  R$ 30,50  R$ 3.050,00"]
           ["VALE3 7 R$ 60,00 R$ 420,00"]
           "AURE3S 10 R$ 1,00 R$ 2,00" "AURE3S" "R$ 1,00" "R$ 2,00" []).
  - reflexivity.
  - simpl. auto.
Defined.

(** ** The loader *)

Lemma build_fallback_raises :
  pd_DataFrame fallback_data
  = Raise (ValueError "All arrays must be of the same length").
Proof. reflexivity. Qed.

Lemma missing_column (cols : list string) :
  (exists col, In col expected_cols /\ ~ In col cols) ->
  forallb (fun col => str_in col cols) expected_cols = false.
Proof.
  intros [col [Hin Hno]].
  destruct (forallb _ expected_cols) eqn:E; [|reflexivity].
  rewrite forallb_forall in E. specialize (E col Hin).
  unfold str_in in E. apply existsb_exists in E. destruct E as [x [Hx Heq]].
  apply String.eqb_eq in Heq. subst x. contradiction.
Qed.

(** C1, as the code behaves: whenever the sheet cannot be read or lacks an
    expected column, building the built-in table raises [ValueError]
    (its "Setor" list has 13 entries, the other lists 14), so no table is
    returned. *)
Theorem fallback_path_raises :
  forall f : excel_file,
    (forall df, read_excel f "Recomendações" = Ok df ->
                exists col, In col expected_cols /\ ~ In col (df_columns df)) ->
    load_recommendations_from_excel f
    = Raise (ValueError "All arrays must be of the same length").
Proof.
  intros f H. unfold load_recommendations_from_excel.
  destruct (read_excel f "Recomendações") as [df|e] eqn:E;
    unfold bind, try_except.
  - rewrite (missing_column _ (H df eq_refl)). reflexivity.
  - reflexivity.
Qed.

Lemma fallback_path_raises_witness :
  load_recommendations_from_excel
    (Workbook [("Recomendações",
                [("Ticker", [CStr "PETR4"]); ("Empresa", [CStr "Petrobras"]);
                 ("Setor", [CStr "Petróleo e Gás"]);
                 ("Recomendação", [CStr "Compra"])])])
  = Raise (ValueError "All arrays must be of the same length").
Proof.
  apply fallback_path_raises.
  intros df H. injection H as <-.
  exists "Preço Alvo (R$)". split.
  - simpl. auto 10.
  - simpl. intros [E|[E|[E|[E|[]]]]]; discriminate E.
Defined.

Lemma fallback_names_petr4_vale3 :
  exists tickers,
    In ("Ticker", tickers) fallback_data
    /\ In (CStr "PETR4") tickers /\ In (CStr "VALE3") tickers.
Proof.
  eexists. split; [left; reflexivity|]. split; simpl; auto 20.
Qed.

(** ** The merge *)

Lemma in_analysis_df (portfolio_df : list HoldingRow) (reco_df : list RecoRow)
      (a : AnalysisRow) :
  In a (analysis_df portfolio_df reco_df) <->
  exists h m, In h portfolio_df /\ In m (merge_one reco_df h)
              /\ a = analysis_row m.
Proof.
  unfold analysis_df, pd_merge_left. rewrite in_map_iff. split.
  - intros [m [<- Hm]]. apply in_flat_map in Hm. destruct Hm as [h [Hh Hm]].
    eauto.
  - intros [h [m [Hh [Hm ->]]]]. exists m. split; [reflexivity|].
    apply in_flat_map. eauto.
Qed.

Lemma merge_one_ticker (reco_df : list RecoRow) (h : HoldingRow) (m : MergedRow) :
  In m (merge_one reco_df h) ->
  m_Ticker m = h_Ticker h /\ m_Ultima_Cotacao m = h_Ultima_Cotacao h
  /\ m_Posicao m = h_Posicao h.
Proof.
  unfold merge_one.
  destruct (filter _ reco_df) as [|r rs].
  - intros [<-|[]]. repeat split.
  - intro H. apply in_map_iff in H. destruct H as [r' [<- _]]. repeat split.
Qed.

Lemma merge_one_unmatched (reco_df : list RecoRow) (h : HoldingRow) :
  (forall r, In r reco_df -> r_Ticker r <> h_Ticker h) ->
  merge_one reco_df h = [unmatched h].
Proof.
  intro H. unfold merge_one.
  destruct (filter _ reco_df) as [|r rs] eqn:E; [reflexivity|].
  assert (Hr : In r (filter (fun r => String.eqb (r_Ticker r) (h_Ticker h)) reco_df))
    by (rewrite E; left; reflexivity).
  apply filter_In in Hr. destruct Hr as [Hin Heq].
  apply String.eqb_eq in Heq. exfalso. exact (H r Hin Heq).
Qed.

(** The upside of a row quoted at [q > 0] with a finite target [t]. *)
Lemma potencial_finite (m : MergedRow) (q t : Qc) :
  m_Ultima_Cotacao m = Fin q -> (0 < q)%Qc ->
  fillna (Fin (qz 0)) (m_Preco_Alvo m) = Fin t ->
  Potencial (analysis_row m) = Fin ((t / q - 1) * qz 100)%Qc.
Proof.
  intros Hq Hpos Ht. unfold analysis_row. cbn [Potencial].
  rewrite Ht, Hq. unfold fdiv. rewrite (Qc_pos_nonzero q Hpos).
  cbn [fsub fneg fadd fmul fgt where_].
  assert (L : Qc_ltb (qz 0) q = true) by (apply Qc_ltb_true; now rewrite qz0).
  rewrite L. cbn [fillna is_nan]. rewrite qz1. reflexivity.
Qed.

Lemma potencial_formula (m : MergedRow) (q : Qc) :
  m_Ultima_Cotacao m = Fin q -> (0 < q)%Qc ->
  Potencial (analysis_row m)
  = fmul (fsub (fdiv (Preco_Alvo (analysis_row m)) (Fin q)) (Fin (qz 1)))
         (Fin (qz 100)).
Proof.
  intros Hq Hpos. unfold analysis_row. cbn [Potencial Preco_Alvo]. rewrite Hq.
  assert (L : Qc_ltb (qz 0) q = true) by (apply Qc_ltb_true; now rewrite qz0).
  assert (N : Qc_ltb q (qz 0) = false).
  { apply Qc_ltb_false. rewrite qz0. now apply Qclt_le_weak. }
  cbn [fgt where_]. rewrite L.
  destruct (m_Preco_Alvo m) as [t| | |]; cbn [fillna is_nan fdiv];
    rewrite ?(Qc_pos_nonzero q Hpos), ?N; reflexivity.
Qed.

Lemma potencial_zero_quote (m : MergedRow) :
  m_Ultima_Cotacao m = Fin (qz 0) ->
  Potencial (analysis_row m) = Fin (qz 0).
Proof.
  intro Hq. unfold analysis_row. cbn [Potencial]. rewrite Hq.
  replace (fgt (Fin (qz 0)) (Fin (qz 0))) with false by reflexivity.
  reflexivity.
Qed.

(** C2: in every row of the analysis table, the upside is
    [(target / quote - 1) * 100] when the quote is positive, and 0 when the
    quote is 0, whatever the target price. *)
Theorem upside_percent_formula :
  forall (portfolio_df : list HoldingRow) (reco_df : list RecoRow)
         (a : AnalysisRow),
    In a (analysis_df portfolio_df reco_df) ->
    (forall q, Ultima_Cotacao a = Fin q -> (0 < q)%Qc ->
       Potencial a
       = fmul (fsub (fdiv (Preco_Alvo a) (Ultima_Cotacao a)) (Fin (qz 1)))
              (Fin (qz 100))
       /\ forall t, Preco_Alvo a = Fin t ->
                    Potencial a = Fin ((t / q - 1) * qz 100)%Qc)
    /\ (Ultima_Cotacao a = Fin (qz 0) -> Potencial a = Fin (qz 0)).
Proof.
  intros portfolio_df reco_df a Ha.
  apply in_analysis_df in Ha. destruct Ha as [h [m [_ [_ ->]]]].
  split.
  - intros q Hq Hpos. split.
    + rewrite Hq. now apply potencial_formula.
    + intros t Ht. now apply potencial_finite.
  - apply potencial_zero_quote.
Qed.

Lemma sample_row_A_in : In sample_row_A (analysis_df sample_holdings sample_reco).
Proof. left. vm_compute. repeat f_equal; apply Qc_is_canon; reflexivity. Qed.

Lemma qz_pos (z : Z) : (0 < z)%Z -> (0 < qz z)%Qc.
Proof.
  intro H. change (0 < Qred (inject_Z z))%Q. rewrite Qred_correct.
  unfold Qlt. simpl. lia.
Qed.

Lemma upside_percent_formula_witness :
  Potencial sample_row_A = Fin ((qz 10 / qz 5 - 1) * qz 100)%Qc.
Proof.
  apply (proj1 (upside_percent_formula sample_holdings sample_reco
                  sample_row_A sample_row_A_in) (qz 5)).
  - reflexivity.
  - apply qz_pos. lia.
  - reflexivity.
Defined.

(** *** Row counts *)

Lemma at_most_one_match (reco_df : list RecoRow) (k : string) :
  NoDup (map r_Ticker reco_df) ->
  (List.length (filter (fun r => String.eqb (r_Ticker r) k) reco_df) <= 1)%nat.
Proof.
  induction reco_df as [|r rs IH]; intro Hnd; simpl; [lia|].
  inversion Hnd as [|x xs Hnotin Hnd']; subst.
  destruct (String.eqb (r_Ticker r) k) eqn:E.
  - apply String.eqb_eq in E. simpl.
    assert (Hnil : filter (fun r0 => String.eqb (r_Ticker r0) k) rs = []).
    { destruct (filter _ rs) as [|r' rs'] eqn:F; [reflexivity|].
      assert (Hr : In r' (filter (fun r0 => String.eqb (r_Ticker r0) k) rs))
        by (rewrite F; left; reflexivity).
      apply filter_In in Hr. destruct Hr as [Hin Heq].
      apply String.eqb_eq in Heq. exfalso. apply Hnotin.
      rewrite E, <- Heq. now apply in_map. }
    rewrite Hnil. simpl. lia.
  - now apply IH.
Qed.

Lemma merge_one_single (reco_df : list RecoRow) (h : HoldingRow) :
  NoDup (map r_Ticker reco_df) ->
  exists m, merge_one reco_df h = [m].
Proof.
  intro Hnd. pose proof (at_most_one_match reco_df (h_Ticker h) Hnd) as L.
  unfold merge_one.
  destruct (filter _ reco_df) as [|r [|r' rs]]; simpl in *; eauto; lia.
Qed.

Lemma merge_one_nonempty (reco_df : list RecoRow) (h : HoldingRow) :
  (1 <= List.length (merge_one reco_df h))%nat.
Proof.
  unfold merge_one. destruct (filter _ reco_df); simpl; lia.
Qed.

Lemma merge_keeps_tickers (portfolio_df : list HoldingRow) (reco_df : list RecoRow) :
  NoDup (map r_Ticker reco_df) ->
  map Ticker (analysis_df portfolio_df reco_df) = map h_Ticker portfolio_df.
Proof.
  intro Hnd. unfold analysis_df, pd_merge_left.
  induction portfolio_df as [|h hs IH]; [reflexivity|].
  simpl. rewrite map_app, map_app, IH.
  destruct (merge_one_single reco_df h Hnd) as [m Hm].
  assert (Ht : m_Ticker m = h_Ticker h).
  { apply (merge_one_ticker reco_df). rewrite Hm. left; reflexivity. }
  rewrite Hm. simpl. now rewrite Ht.
Qed.

Lemma merge_never_drops (portfolio_df : list HoldingRow) (reco_df : list RecoRow) :
  (List.length portfolio_df <= List.length (analysis_df portfolio_df reco_df))%nat.
Proof.
  unfold analysis_df, pd_merge_left. rewrite length_map.
  induction portfolio_df as [|h hs IH]; simpl; [lia|].
  rewrite length_app. pose proof (merge_one_nonempty reco_df h). lia.
Qed.

(** C3 as stated fails: a recommendation table that lists a ticker twice
    gives two analysis rows for the one holding of that ticker. *)
Lemma merge_duplicates_holding :
  List.length
    (analysis_df [mkHolding "PETR4" (Fin (qz 30)) (Fin (qz 3000))]
       [ mkReco "PETR4" (Some "Petrobras") (Some "Petróleo e Gás")
                (Some "Compra") (Fin (qz 40));
         mkReco "PETR4" (Some "Petrobras PN") (Some "Petróleo e Gás")
                (Some "Neutro") (Fin (qz 35)) ])
  <> List.length [mkHolding "PETR4" (Fin (qz 30)) (Fin (qz 3000))].
Proof. simpl. discriminate. Qed.

(** C3, amended: when no ticker occurs twice in the recommendation table,
    the analysis table has the tickers of the holdings, each once and in
    their order, hence as many rows; for every recommendation table no
    holding is dropped and every analysis row carries the ticker of a
    holding. *)
Theorem merge_row_count :
  forall (portfolio_df : list HoldingRow) (reco_df : list RecoRow),
    (NoDup (map r_Ticker reco_df) ->
       List.length (analysis_df portfolio_df reco_df) = List.length portfolio_df
       /\ map Ticker (analysis_df portfolio_df reco_df)
          = map h_Ticker portfolio_df)
    /\ (List.length portfolio_df
        <= List.length (analysis_df portfolio_df reco_df))%nat
    /\ (forall h, In h portfolio_df ->
          In (h_Ticker h) (map Ticker (analysis_df portfolio_df reco_df)))
    /\ (forall t, In t (map Ticker (analysis_df portfolio_df reco_df)) ->
          In t (map h_Ticker portfolio_df)).
Proof.
  intros portfolio_df reco_df. split; [|split; [|split]].
  - intro Hnd. pose proof (merge_keeps_tickers portfolio_df reco_df Hnd) as E.
    split; [|exact E].
    rewrite <- (length_map Ticker), E. apply length_map.
  - apply merge_never_drops.
  - intros h Hh. apply in_map_iff.
    pose proof (merge_one_nonempty reco_df h) as L.
    destruct (merge_one reco_df h) as [|m ms] eqn:E; [simpl in L; lia|].
    exists (analysis_row m). split.
    + apply (merge_one_ticker reco_df h m). rewrite E. left; reflexivity.
    + apply in_analysis_df. exists h, m. rewrite E. simpl; auto.
  - intros t Ht. apply in_map_iff in Ht. destruct Ht as [a [<- Ha]].
    apply in_analysis_df in Ha. destruct Ha as [h [m [Hh [Hm ->]]]].
    apply in_map_iff. exists h. split; [|exact Hh].
    symmetry. apply (merge_one_ticker reco_df h m Hm).
Qed.

Lemma sample_reco_tickers_distinct : NoDup (map r_Ticker sample_reco).
Proof.
  simpl. repeat constructor; simpl; intuition discriminate.
Qed.

Lemma merge_row_count_witness :
  List.length (analysis_df sample_holdings sample_reco)
  = List.length sample_holdings
  /\ map Ticker (analysis_df sample_holdings sample_reco)
     = map h_Ticker sample_holdings.
Proof.
  exact (proj1 (merge_row_count sample_holdings sample_reco)
               sample_reco_tickers_distinct).
Defined.

(** *** Holdings without a recommendation *)

Lemma minus_hundred (q : Qc) :
  q <> 0%Qc -> ((qz 0 / q - 1) * qz 100)%Qc = qz (-100).
Proof.
  intro H. rewrite qz0.
  replace (qz 100) with (- qz (-100))%Qc by (apply Qc_is_canon; reflexivity).
  field. exact H.
Qed.

(** C10: a holding whose ticker is in no row of the recommendation table
    gets one analysis row, with sector "Não Classificado" and target
    price 0; when its quote is positive its upside is -100. *)
Theorem unmatched_holding_row :
  forall (portfolio_df : list HoldingRow) (reco_df : list RecoRow)
         (a : AnalysisRow),
    In a (analysis_df portfolio_df reco_df) ->
    (forall r, In r reco_df -> r_Ticker r <> Ticker a) ->
    Setor a = "Não Classificado"
    /\ Preco_Alvo a = Fin (qz 0)
    /\ (forall q, Ultima_Cotacao a = Fin q -> (0 < q)%Qc ->
          Potencial a = Fin (qz (-100)))
    /\ (forall h, In h portfolio_df -> h_Ticker h = Ticker a ->
          map analysis_row (merge_one reco_df h)
          = [analysis_row (unmatched h)]).
Proof.
  intros portfolio_df reco_df a Ha Hno.
  apply in_analysis_df in Ha. destruct Ha as [h [m [Hh [Hm ->]]]].
  destruct (merge_one_ticker reco_df h m Hm) as [Ht _].
  assert (Hu : merge_one reco_df h = [unmatched h]).
  { apply merge_one_unmatched. intros r Hr.
    rewrite <- Ht. exact (Hno r Hr). }
  rewrite Hu in Hm. destruct Hm as [<-|[]].
  split; [reflexivity|]. split; [reflexivity|]. split.
  - intros q Hq Hpos.
    rewrite (potencial_finite (unmatched h) q (qz 0) Hq Hpos eq_refl).
    apply (f_equal Fin). apply minus_hundred. intro E. subst q.
    exact (Qclt_not_eq _ _ Hpos eq_refl).
  - intros h' Hh' Ht'. rewrite merge_one_unmatched; [reflexivity|].
    intros r Hr. rewrite Ht'. exact (Hno r Hr).
Qed.

Lemma sample_row_D_in : In sample_row_D (analysis_df sample_holdings sample_reco).
Proof.
  do 3 right. left. vm_compute. repeat f_equal; apply Qc_is_canon; reflexivity.
Qed.

Lemma sample_reco_lacks_D :
  forall r, In r sample_reco -> r_Ticker r <> Ticker sample_row_D.
Proof.
  intros r [<-|[<-|[<-|[<-|[]]]]]; discriminate.
Qed.

Lemma unmatched_holding_row_witness :
  Setor sample_row_D = "Não Classificado"
  /\ Preco_Alvo sample_row_D = Fin (qz 0)
  /\ Potencial sample_row_D = Fin (qz (-100)).
Proof.
  destruct (unmatched_holding_row sample_holdings sample_reco sample_row_D
              sample_row_D_in sample_reco_lacks_D) as [Hs [Hp [Hu _]]].
  split; [exact Hs|]. split; [exact Hp|].
  apply (Hu (qz 4)); [reflexivity|apply qz_pos; lia].
Defined.

(** ** Sorting *)

Section SortFacts.
Context {A : Type} (before : A -> A -> bool).

Lemma insert_by_perm (x : A) (l : list A) :
  Permutation (x :: l) (insert_by before x l).
Proof.
  induction l as [|y l IH]; simpl; [reflexivity|].
  destruct (before x y); [reflexivity|].
  rewrite perm_swap. now constructor.
Qed.

Lemma sort_by_perm (l : list A) : Permutation l (sort_by before l).
Proof.
  induction l as [|x l IH]; simpl; [constructor|].
  rewrite <- insert_by_perm. now constructor.
Qed.

Lemma sort_by_in (l : list A) (x : A) : In x (sort_by before l) <-> In x l.
Proof.
  split; apply Permutation_in;
    [symmetry|]; apply sort_by_perm.
Qed.

Lemma sort_by_length (l : list A) :
  List.length (sort_by before l) = List.length l.
Proof. symmetry. apply Permutation_length, sort_by_perm. Qed.

Hypothesis before_total :
  forall x y, before x y = false -> before y x = true.
Hypothesis before_trans :
  forall x y z, before x y = true -> before y z = true -> before x z = true.

Local Notation "'ordered'" := (fun x y => before x y = true).

Lemma insert_by_sorted (x : A) (l : list A) :
  StronglySorted ordered l -> StronglySorted ordered (insert_by before x l).
Proof.
  induction 1 as [|y l Hs IH Hall]; simpl.
  - repeat constructor.
  - destruct (before x y) eqn:E.
    + constructor; [now constructor|].
      constructor; [exact E|].
      eapply Forall_impl; [|exact Hall].
      intros z Hz. exact (before_trans x y z E Hz).
    + constructor; [exact IH|].
      apply (Permutation_Forall (insert_by_perm x l)).
      constructor; [now apply before_total|exact Hall].
Qed.

Lemma sort_by_sorted (l : list A) : StronglySorted ordered (sort_by before l).
Proof.
  induction l as [|x l IH]; simpl; [constructor|].
  now apply insert_by_sorted.
Qed.

End SortFacts.

(** [desc_before] is a total preorder on floats, NaN included. *)
Lemma desc_before_total (x y : fval) :
  desc_before x y = false -> desc_before y x = true.
Proof.
  destruct x as [a| | |], y as [b| | |];
    unfold desc_before; simpl; try congruence.
  intro H.
  apply negb_false_iff, Qc_ltb_true in H. apply negb_true_iff, Qc_ltb_false.
  now apply Qclt_le_weak.
Qed.

Lemma desc_before_trans (x y z : fval) :
  desc_before x y = true -> desc_before y z = true -> desc_before x z = true.
Proof.
  destruct x as [a| | |], y as [b| | |], z as [c| | |];
    unfold desc_before; simpl; try congruence.
  intros H1 H2.
  apply negb_true_iff, Qc_ltb_false in H1.
  apply negb_true_iff, Qc_ltb_false in H2.
  apply negb_true_iff, Qc_ltb_false. exact (Qcle_trans _ _ _ H2 H1).
Qed.

(** ** Sums *)

Lemma fadd_not_fin (x y : fval) : is_fin x = false -> is_fin (fadd x y) = false.
Proof. destruct x, y; simpl; congruence. Qed.

Lemma fold_fadd_not_fin (l : list fval) (acc : fval) :
  is_fin acc = false -> is_fin (fold_left fadd l acc) = false.
Proof.
  revert acc. induction l as [|x l IH]; intros acc H; simpl; [exact H|].
  apply IH. now apply fadd_not_fin.
Qed.

Lemma fold_fadd_fin (l : list fval) (a t : Qc) :
  fold_left fadd l (Fin a) = Fin t ->
  Forall (fun x => is_fin x = true) l /\ t = (a + qsum l)%Qc.
Proof.
  revert a. induction l as [|x l IH]; intros a H; simpl in *.
  - injection H as <-. split; [constructor|ring].
  - destruct x as [b| | |]; simpl in H.
    + destruct (IH _ H) as [Hall ->].
      split; [now constructor|]. simpl. ring.
    + pose proof (fold_fadd_not_fin l PInf eq_refl) as N.
      rewrite H in N. discriminate N.
    + pose proof (fold_fadd_not_fin l NInf eq_refl) as N.
      rewrite H in N. discriminate N.
    + pose proof (fold_fadd_not_fin l NaN eq_refl) as N.
      rewrite H in N. discriminate N.
Qed.

Lemma fold_fadd_all_fin (l : list fval) (a : Qc) :
  Forall (fun x => is_fin x = true) l ->
  fold_left fadd l (Fin a) = Fin (a + qsum l)%Qc.
Proof.
  intro H. revert a. induction H as [|x l Hx _ IH]; intro a; simpl.
  - f_equal. ring.
  - destruct x as [b| | |]; try discriminate. simpl. rewrite IH.
    f_equal. ring.
Qed.

Lemma qsum_skip_nan (l : list fval) :
  qsum (filter (fun x => negb (is_nan x)) l) = qsum l.
Proof.
  induction l as [|x l IH]; [reflexivity|].
  destruct x; simpl; rewrite IH; try reflexivity. ring.
Qed.

(** A finite sum has only finite or missing terms, and is their rational
    sum. *)
Lemma fsum_fin (l : list fval) (t : Qc) :
  fsum l = Fin t -> Forall fin_or_nan l /\ t = qsum l.
Proof.
  unfold fsum. intro H. apply fold_fadd_fin in H. destruct H as [Hall ->].
  split.
  - rewrite Forall_forall in *. intros x Hx.
    destruct x as [b| | |]; simpl; auto.
    + assert (F : is_fin PInf = true); [|discriminate F].
      apply Hall, filter_In. split; [exact Hx|reflexivity].
    + assert (F : is_fin NInf = true); [|discriminate F].
      apply Hall, filter_In. split; [exact Hx|reflexivity].
  - rewrite qsum_skip_nan, qz0. ring.
Qed.

Lemma fsum_of_fin_or_nan (l : list fval) :
  Forall fin_or_nan l -> fsum l = Fin (qsum l).
Proof.
  intro H. unfold fsum. rewrite fold_fadd_all_fin.
  - rewrite qsum_skip_nan. f_equal. rewrite qz0. ring.
  - rewrite Forall_forall in *. intros x Hx. apply filter_In in Hx.
    destruct Hx as [Hx Hn]. specialize (H x Hx).
    destruct x; simpl in *; auto; discriminate.
Qed.

(** ** Grouping by sector *)

Lemma group_keys_nodup (df : list AnalysisRow) : NoDup (group_keys df).
Proof.
  unfold group_keys.
  apply (Permutation_NoDup (sort_by_perm String.leb _)), NoDup_nodup.
Qed.

Lemma group_keys_in (df : list AnalysisRow) (s : string) :
  In s (group_keys df) <-> In s (map Setor df).
Proof.
  unfold group_keys. rewrite sort_by_in. apply nodup_In.
Qed.

Lemma qsum_map_fin (f : string -> Qc) (keys : list string) :
  qsum (map (fun k => Fin (f k)) keys) = ksum f keys.
Proof.
  induction keys as [|k ks IH]; simpl; [reflexivity|]. now rewrite IH.
Qed.

Lemma ksum_ext (f g : string -> Qc) (keys : list string) :
  (forall k, In k keys -> f k = g k) -> ksum f keys = ksum g keys.
Proof.
  induction keys as [|k ks IH]; intro H; simpl; [reflexivity|].
  rewrite (H k (or_introl eq_refl)), IH; [reflexivity|].
  intros k' Hk'. apply H. now right.
Qed.

Lemma ksum_add (f g : string -> Qc) (keys : list string) :
  ksum (fun k => (f k + g k)%Qc) keys = (ksum f keys + ksum g keys)%Qc.
Proof.
  induction keys as [|k ks IH]; simpl; [ring|]. rewrite IH. ring.
Qed.


Lemma ksum_zero (keys : list string) : ksum (fun _ => 0%Qc) keys = 0%Qc.
Proof.
  induction keys as [|k ks IH]; simpl; [reflexivity|]. rewrite IH. ring.
Qed.

(** Over keys without repetition, the indicator of one key sums to its
    value. *)
Lemma ksum_indicator (s : string) (v : Qc) (keys : list string) :
  NoDup keys ->
  ksum (fun k => if String.eqb s k then v else 0%Qc) keys
  = if in_dec string_dec s keys then v else 0%Qc.
Proof.
  induction 1 as [|k ks Hnotin Hnd IH]; simpl; [reflexivity|].
  rewrite IH. destruct (String.eqb s k) eqn:E.
  - apply String.eqb_eq in E. subst k.
    destruct (string_dec s s) as [Hs|N]; [|contradiction].
    destruct (in_dec string_dec s ks) as [I|I]; [contradiction|]. ring.
  - apply String.eqb_neq in E.
    destruct (string_dec k s) as [Hk|Hk]; [symmetry in Hk; contradiction|].
    destruct (in_dec string_dec s ks); ring.
Qed.

Lemma sector_q_cons (r : AnalysisRow) (df : list AnalysisRow) (k : string) :
  sector_q (r :: df) k
  = ((if String.eqb (Setor r) k then fin_part (Posicao r) else 0) + sector_q df k)%Qc.
Proof.
  unfold sector_q. simpl. destruct (String.eqb (Setor r) k); simpl; ring.
Qed.

(** The sector sums add up to the sum of all positions. *)
Lemma ksum_sectors (keys : list string) (df : list AnalysisRow) :
  NoDup keys ->
  (forall r, In r df -> In (Setor r) keys) ->
  ksum (sector_q df) keys = qsum (map Posicao df).
Proof.
  intros Hnd. induction df as [|r df IH]; intro Hin.
  - simpl. apply ksum_zero.
  - rewrite (ksum_ext _ _ keys (fun k _ => sector_q_cons r df k)).
    rewrite ksum_add, ksum_indicator by exact Hnd.
    destruct (in_dec string_dec (Setor r) keys) as [Y|N].
    + rewrite IH; [reflexivity|]. intros r' Hr'. apply Hin. now right.
    + exfalso. apply N, Hin. now left.
Qed.

Lemma sector_sum_fin (df : list AnalysisRow) (k : string) :
  Forall fin_or_nan (map Posicao df) ->
  sector_sum df k = Fin (sector_q df k).
Proof.
  intro H. unfold sector_sum, sector_q. apply fsum_of_fin_or_nan.
  rewrite Forall_forall in *. intros x Hx.
  apply in_map_iff in Hx. destruct Hx as [r [<- Hr]].
  apply filter_In in Hr. apply H, in_map, Hr.
Qed.



Lemma sample_analysis_total : fsum (map Posicao sample_analysis) = Fin (qz 1000).
Proof. vm_compute. reflexivity. Qed.


(** ** The narrative *)

(** The parts of the text, block by block. *)
Lemma narrative_parts_blocks (df : list AnalysisRow)
      (largest : string * fval) (rest : list (string * fval)) :
  sector_percent df = largest :: rest ->
  narrative_parts df
  = Ok ([Greeting; Intro; AllocationHeader]
          ++ allocation_lines (firstn 3 (sector_percent df))
          ++ remark_block largest
          ++ [Blank] ++ buy_block df
          ++ [Blank] ++ attention_block df
          ++ [Blank; NextStepsHeader; NextSteps; Closing; Signature]).
Proof.
  intro H. unfold narrative_parts, buy_block, attention_block, remark_block.
  rewrite H. cbn [firstn iloc0 bind]. fold (allocation_lines (largest :: firstn 2 rest)).
  destruct (fgt (snd largest) (Fin (qz 35)));
    destruct (compra_rows df); destruct (reavaliar_rows df);
    repeat rewrite <- app_assoc; reflexivity.
Qed.

Lemma sector_percent_length (df : list AnalysisRow) :
  List.length (sector_percent df) = List.length (group_keys df).
Proof.
  unfold sector_percent, percent_of, sort_values_desc, groupby_sum.
  now rewrite length_map, sort_by_length, length_map.
Qed.

Lemma group_keys_nonempty (df : list AnalysisRow) :
  df <> [] -> group_keys df <> [].
Proof.
  destruct df as [|r df]; [congruence|]. intros _ E.
  assert (H : In (Setor r) (group_keys (r :: df)))
    by (apply group_keys_in; left; reflexivity).
  rewrite E in H. exact H.
Qed.

Lemma sector_percent_nonempty (df : list AnalysisRow) :
  df <> [] -> exists largest rest, sector_percent df = largest :: rest.
Proof.
  intro H. pose proof (sector_percent_length df) as L.
  pose proof (group_keys_nonempty df H) as K.
  destruct (sector_percent df) as [|x xs]; [|eauto].
  destruct (group_keys df); [congruence|discriminate L].
Qed.

Lemma narrative_parts_returns (df : list AnalysisRow) :
  df <> [] -> exists parts, narrative_parts df = Ok parts.
Proof.
  intro H. destruct (sector_percent_nonempty df H) as [largest [rest E]].
  rewrite (narrative_parts_blocks df largest rest E). eauto.
Qed.

Lemma analysis_df_nonempty (portfolio_df : list HoldingRow) (reco_df : list RecoRow) :
  portfolio_df <> [] -> analysis_df portfolio_df reco_df <> [].
Proof.
  intros H E. pose proof (merge_never_drops portfolio_df reco_df) as L.
  rewrite E in L. destruct portfolio_df; [congruence|simpl in L; lia].
Qed.

(** C5 as stated fails: on the table without rows, [top_sectors.iloc[0]]
    raises. *)
Lemma narrative_raises_on_empty_table :
  generate_recommendation_text []
  = Raise (IndexError "single positional indexer is out-of-bounds")
  /\ ~ (exists text, generate_recommendation_text [] = Ok text).
Proof.
  split; [reflexivity|]. intros [text H]. discriminate H.
Qed.

(** C5, amended: on every analysis table with at least one row the
    generator returns a string; the page calls it only on such a table. *)
Theorem narrative_returns_text :
  (forall df : list AnalysisRow,
      df <> [] -> exists text, generate_recommendation_text df = Ok text)
  /\ (forall portfolio_df reco_df out,
        client_text portfolio_df reco_df = Some out ->
        exists text, out = Ok text).
Proof.
  assert (G : forall df : list AnalysisRow,
             df <> [] -> exists text, generate_recommendation_text df = Ok text).
  { intros df H. destruct (narrative_parts_returns df H) as [parts E].
    unfold generate_recommendation_text. rewrite E. simpl. eauto. }
  split; [exact G|].
  intros portfolio_df reco_df out H. unfold client_text in H.
  destruct portfolio_df as [|h hs]; [discriminate|].
  destruct reco_df as [|r rs]; [discriminate|].
  injection H as <-. apply G, analysis_df_nonempty. discriminate.
Qed.

Lemma narrative_returns_text_witness :
  exists text, generate_recommendation_text sample_analysis = Ok text.
Proof.
  apply (proj1 narrative_returns_text sample_analysis). discriminate.
Defined.

(** *** Pieces of the text *)

Lemma append_empty_r (s : string) : (s ++ "")%string = s.
Proof. induction s as [|c s IH]; simpl; [reflexivity|now rewrite IH]. Qed.

Lemma append_assoc (a b c : string) :
  ((a ++ b) ++ c)%string = (a ++ b ++ c)%string.
Proof. induction a as [|x a IH]; simpl; [reflexivity|now rewrite IH]. Qed.

Lemma concat_cons (x : string) (xs : list string) :
  String.concat "" (x :: xs) = (x ++ String.concat "" xs)%string.
Proof.
  destruct xs as [|y ys]; simpl; [now rewrite append_empty_r|reflexivity].
Qed.

(** *** Labels and sorted lists *)

Lemma label_is_true (label : string) (x : option string) :
  label_is label x = true <-> x = Some label.
Proof.
  destruct x as [s|]; simpl.
  - rewrite String.eqb_eq. split; congruence.
  - split; discriminate.
Qed.

Lemma StronglySorted_filter {A : Type} (R : A -> A -> Prop) (f : A -> bool)
      (l : list A) :
  StronglySorted R l -> StronglySorted R (filter f l).
Proof.
  induction 1 as [|x l Hs IH Hall]; simpl; [constructor|].
  destruct (f x); [|exact IH].
  constructor; [exact IH|].
  rewrite Forall_forall in *. intros y Hy. apply filter_In in Hy.
  apply Hall, Hy.
Qed.

(** *** Rounding *)

Lemma round_half_even_near (q : Q) :
  (Qabs (inject_Z (round_half_even q) - q) <= 1 # 2)%Q.
Proof.
  unfold round_half_even.
  pose proof (Qfloor_le q) as L. pose proof (Qlt_floor q) as U.
  rewrite inject_Z_plus in U. change (inject_Z 1) with 1%Q in U.
  apply Qabs_Qle_condition.
  destruct (Qcompare_spec (q - inject_Z (Qfloor q)) (1 # 2)) as [E|E|E];
    [destruct (Z.even (Qfloor q))| |];
    rewrite ?inject_Z_plus; change (inject_Z 1) with 1%Q;
    set (f := inject_Z (Qfloor q)) in *; split; lra.
Qed.

(** * Further properties *)

(** ** The pattern as a set of lines *)

Lemma star_sound {R : Type} (cls : ascii -> bool) (s : string)
      (k : string -> string -> option R) (r : R) :
  star cls s k = Some r ->
  exists run rest,
    s = (run ++ rest)%string /\ all_chars cls run = true
    /\ k run rest = Some r.
Proof.
  revert k. induction s as [|c s IH]; intros k H; simpl in H.
  - exists EmptyString, EmptyString. auto.
  - destruct (cls c) eqn:C.
    + destruct (star cls s (fun run rest => k (String c run) rest)) as [r'|] eqn:E.
      * injection H as ->. apply IH in E. destruct E as [run [rest [-> [A K]]]].
        exists (String c run), rest. simpl. rewrite C, A. auto.
      * exists EmptyString, (String c s). auto.
    + exists EmptyString, (String c s). auto.
Qed.

Lemma plus_sound {R : Type} (cls : ascii -> bool) (s : string)
      (k : string -> string -> option R) (r : R) :
  plus cls s k = Some r ->
  exists run rest,
    s = (run ++ rest)%string /\ run <> EmptyString
    /\ all_chars cls run = true /\ k run rest = Some r.
Proof.
  destruct s as [|c s]; simpl; [discriminate|].
  destruct (cls c) eqn:C; [|discriminate]. intro H.
  apply star_sound in H. destruct H as [run [rest [-> [A K]]]].
  exists (String c run), rest. simpl. rewrite C, A.
  repeat split; auto. discriminate.
Qed.

Lemma lit_sound {R : Type} (p s : string) (k : string -> option R) (r : R) :
  lit p s k = Some r ->
  exists rest, s = (p ++ rest)%string /\ k rest = Some r.
Proof.
  revert s. induction p as [|a p IH]; intros s H; simpl in H.
  - exists s. auto.
  - destruct s as [|b s]; [discriminate|].
    destruct (Ascii.eqb a b) eqn:E; [|discriminate].
    apply Ascii.eqb_eq in E. subst b.
    apply IH in H. destruct H as [rest [-> K]]. exists rest. auto.
Qed.

Lemma amount_group_sound {R : Type} (s : string)
      (k : string -> string -> option R) (r : R) :
  amount_group s k = Some r ->
  exists g rest,
    s = (g ++ rest)%string /\ is_amount g /\ k g rest = Some r.
Proof.
  unfold amount_group. intro H.
  apply lit_sound in H. destruct H as [s1 [-> H]].
  apply star_sound in H. destruct H as [sp [s2 [-> [Hsp H]]]].
  apply plus_sound in H. destruct H as [ds [s3 [-> [Hne [Hds H]]]]].
  exists ("R$" ++ sp ++ ds)%string, s3. split; [|split; [|exact H]].
  - simpl. now rewrite append_assoc.
  - exists sp, ds. auto.
Qed.

Lemma line_regex_match_sound (s g1 g2 g3 : string) :
  line_regex_match s = Some (g1, g2, g3) -> pattern_at s g1 g2 g3.
Proof.
  unfold line_regex_match. intro H.
  apply plus_sound in H. destruct H as [t [s1 [-> [Tne [Tall H]]]]].
  apply plus_sound in H. destruct H as [w1 [s2 [-> [W1ne [W1 H]]]]].
  apply star_sound in H. destruct H as [mid [s3 [-> [Mid H]]]].
  apply plus_sound in H. destruct H as [w2 [s4 [-> [W2ne [W2 H]]]]].
  apply amount_group_sound in H. destruct H as [a2 [s5 [-> [A2 H]]]].
  apply plus_sound in H. destruct H as [w3 [s6 [-> [W3ne [W3 H]]]]].
  apply amount_group_sound in H. destruct H as [a3 [post [-> [A3 H]]]].
  injection H as -> -> ->.
  exists w1, mid, w2, w3, post. unfold is_ticker, is_gap. auto 15.
Qed.

(** A match found by [search] is a match of the pattern somewhere in the
    line: a ticker of capitals and digits, then two amounts, separated by
    white space. *)
Lemma line_regex_search_sound :
  forall line g1 g2 g3,
    line_regex_search line = Some (g1, g2, g3) -> pattern_in line g1 g2 g3.
Proof.
  induction line as [|c line IH]; intros g1 g2 g3 H;
    cbn [line_regex_search] in H.
  - discriminate H.
  - destruct (line_regex_match (String c line)) as [m|] eqn:E.
    + injection H as ->. exists EmptyString, (String c line).
      split; [reflexivity|now apply line_regex_match_sound].
    + apply IH in H. destruct H as [pre [s [-> P]]].
      exists (String c pre), s. auto.
Qed.

Lemma star_fallback {R : Type} (cls : ascii -> bool) (s : string)
      (k : string -> string -> option R) :
  (exists r, k EmptyString s = Some r) -> exists r, star cls s k = Some r.
Proof.
  intros [r H]. destruct s as [|c s]; simpl; [eauto|].
  destruct (cls c); [|eauto].
  destruct (star cls s _) as [r'|]; eauto.
Qed.

Lemma star_complete {R : Type} (cls : ascii -> bool) (run rest : string)
      (k : string -> string -> option R) :
  all_chars cls run = true ->
  (exists r, k run rest = Some r) ->
  exists r, star cls (run ++ rest) k = Some r.
Proof.
  revert k. induction run as [|c run IH]; intros k A H.
  - now apply star_fallback.
  - simpl in A. apply andb_prop in A. destruct A as [C A].
    simpl. rewrite C.
    destruct (IH (fun run rest => k (String c run) rest) A H) as [r E].
    rewrite E. eauto.
Qed.

Lemma plus_complete {R : Type} (cls : ascii -> bool) (run rest : string)
      (k : string -> string -> option R) :
  run <> EmptyString -> all_chars cls run = true ->
  (exists r, k run rest = Some r) ->
  exists r, plus cls (run ++ rest) k = Some r.
Proof.
  destruct run as [|c run]; [congruence|]. intros _ A H.
  simpl in A. apply andb_prop in A. destruct A as [C A].
  simpl. rewrite C.
  exact (star_complete cls run rest (fun run rest => k (String c run) rest) A H).
Qed.

Lemma lit_complete {R : Type} (p rest : string) (k : string -> option R) :
  lit p (p ++ rest) k = k rest.
Proof.
  induction p as [|a p IH]; simpl; [now destruct rest|].
  now rewrite Ascii.eqb_refl.
Qed.

Lemma amount_group_complete {R : Type} (g rest : string)
      (k : string -> string -> option R) :
  is_amount g ->
  (exists r, k g rest = Some r) ->
  exists r, amount_group (g ++ rest) k = Some r.
Proof.
  intros [sp [ds [-> [Hsp [Hne Hds]]]]] H. unfold amount_group.
  rewrite !append_assoc, lit_complete.
  apply star_complete; [exact Hsp|].
  apply plus_complete; assumption.
Qed.

Lemma line_regex_match_complete (s g1 g2 g3 : string) :
  pattern_at s g1 g2 g3 -> exists m, line_regex_match s = Some m.
Proof.
  intros [w1 [mid [w2 [w3 [post [-> [[T1 T2] [[W1n W1] [M [[W2n W2] [A2 [[W3n W3] A3]]]]]]]]]]]].
  unfold line_regex_match.
  apply plus_complete; [assumption..|].
  apply plus_complete; [assumption..|].
  apply star_complete; [assumption|].
  apply plus_complete; [assumption..|].
  apply amount_group_complete; [assumption|].
  apply plus_complete; [assumption..|].
  apply amount_group_complete; [assumption|].
  eauto.
Qed.

Lemma line_regex_search_unfold (line : string) :
  line_regex_search line
  = match line_regex_match line with
    | Some m => Some m
    | None =>
        match line with
        | String _ rest => line_regex_search rest
        | EmptyString => None
        end
    end.
Proof. destruct line; reflexivity. Qed.

(** X1: a line of ASCII characters gets a match exactly when it contains
    the pattern: a non-empty run of capitals and digits, white space, any
    characters but a line feed, white space, an amount ("R$", optional
    white space, a non-empty run of digits, commas and points), white space
    and a second amount. *)
Theorem line_regex_search_matches_iff :
  forall line,
    is_ascii line = true ->
    ((exists m, line_regex_search line = Some m)
     <-> (exists g1 g2 g3, pattern_in line g1 g2 g3)).
Proof.
  intros line _. split.
  - intros [[[g1 g2] g3] H]. exists g1, g2, g3.
    now apply line_regex_search_sound.
  - intros [g1 [g2 [g3 [pre [s [-> P]]]]]].
    induction pre as [|c pre IH].
    + rewrite line_regex_search_unfold. simpl.
      destruct (line_regex_match_complete _ _ _ _ P) as [m ->]. eauto.
    + rewrite line_regex_search_unfold.
      change (String c pre ++ s)%string with (String c (pre ++ s)).
      destruct (line_regex_match (String c (pre ++ s))); [eauto|exact IH].
Qed.

Lemma line_regex_search_matches_iff_witness :
  is_ascii sample_line = true
  /\ line_regex_search sample_line = Some ("PETR4", "R$ 30,50", "R$ 3.050,00")
  /\ exists g1 g2 g3, pattern_in sample_line g1 g2 g3.
Proof.
  split; [reflexivity|]. split; [reflexivity|].
  apply (line_regex_search_matches_iff sample_line); [reflexivity|].
  exists ("PETR4", "R$ 30,50", "R$ 3.050,00"). reflexivity.
Defined.

(** X2: the ticker captured in a line is a run of capitals and digits, so it
    is never "Ativo": that entry of the denylist rejects nothing, and only
    "AURE3S" and "BBAS3S" are ever rejected. *)
Theorem header_word_never_captured :
  forall line ativo cotacao posicao,
    line_regex_search line = Some (ativo, cotacao, posicao) ->
    is_ticker ativo
    /\ ativo <> "Ativo"
    /\ (In ativo denylist -> ativo = "AURE3S" \/ ativo = "BBAS3S").
Proof.
  intros line ativo cotacao posicao H.
  apply line_regex_search_sound in H.
  destruct H as [pre [s [_ [w1 [mid [w2 [w3 [post [_ [T _]]]]]]]]]].
  assert (N : ativo <> "Ativo").
  { intro E. subst ativo. destruct T as [_ T]. discriminate T. }
  split; [exact T|]. split; [exact N|].
  intros [E|[E|[E|[]]]]; auto. symmetry in E. contradiction.
Qed.

Lemma header_word_never_captured_witness :
  is_ticker "PETR4"
  /\ "PETR4" <> "Ativo"
  /\ (In "PETR4" denylist -> "PETR4" = "AURE3S" \/ "PETR4" = "BBAS3S").
Proof.
  apply (header_word_never_captured "PETR4  100  R$ 30,50  R$ 3.050,00"
           "PETR4" "R$ 30,50" "R$ 3.050,00").
  reflexivity.
Defined.

Lemma line_rows_in (line : string) (row : HoldingRow) :
  In row (line_rows line) ->
  exists cotacao posicao,
    line_regex_search line = Some (h_Ticker row, cotacao, posicao)
    /\ not_in (h_Ticker row) denylist = true
    /\ clean_value (PStr cotacao) = Ok (h_Ultima_Cotacao row)
    /\ clean_value (PStr posicao) = Ok (h_Posicao row).
Proof.
  unfold line_rows.
  destruct (line_regex_search line) as [[[a q] p]|]; [|intros []].
  destruct (not_in a denylist) eqn:D; [|intros []].
  intros [<-|[]]. exists q, p. cbn [h_Ticker h_Ultima_Cotacao h_Posicao].
  destruct (clean_value_str_returns q) as [x ->].
  destruct (clean_value_str_returns p) as [y ->]. auto.
Qed.

Lemma not_in_spec (x : string) (l : list string) :
  not_in x l = true <-> ~ In x l.
Proof.
  unfold not_in. rewrite negb_true_iff. split.
  - intros H Hin. assert (E : existsb (String.eqb x) l = true).
    { apply existsb_exists. exists x. split; [exact Hin|apply String.eqb_refl]. }
    congruence.
  - intro H. destruct (existsb (String.eqb x) l) eqn:E; [|reflexivity].
    apply existsb_exists in E. destruct E as [y [Hy Hxy]].
    apply String.eqb_eq in Hxy. subst y. contradiction.
Qed.

(** X3: in a text of ASCII characters, every extracted row comes from a
    line of the text that contains the pattern, with the ticker of the row
    as its first group; the ticker is a non-empty run of capitals and
    digits outside the denylist. *)
Theorem extracted_rows_come_from_lines :
  forall text row,
    is_ascii text = true ->
    In row (process_portfolio_text text) ->
    exists line cotacao posicao,
      In line (split_lines (strip text))
      /\ pattern_in line (h_Ticker row) cotacao posicao
      /\ is_ticker (h_Ticker row)
      /\ ~ In (h_Ticker row) denylist.
Proof.
  intros text row _ H. rewrite process_portfolio_text_rows in H.
  apply in_flat_map in H. destruct H as [line [Hl Hr]].
  apply line_rows_in in Hr. destruct Hr as [q [p [Hs [Hd _]]]].
  pose proof (line_regex_search_sound _ _ _ _ Hs) as P.
  exists line, q, p. split; [exact Hl|]. split; [exact P|].
  split; [|now apply not_in_spec].
  destruct P as [pre [s [_ [w1 [mid [w2 [w3 [post [_ [T _]]]]]]]]]]. exact T.
Qed.

Lemma sample_text_rows :
  process_portfolio_text sample_text
  = [ mkHolding "PETR4" (Fin (Q2Qc (61 # 2))) (Fin (qz 3050));
      mkHolding "VALE3" (Fin (qz 60)) (Fin (qz 420)) ].
Proof. vm_compute. same_values. Qed.

Lemma extracted_rows_come_from_lines_witness :
  exists line cotacao posicao,
    In line (split_lines (strip sample_text))
    /\ pattern_in line "VALE3" cotacao posicao
    /\ is_ticker "VALE3"
    /\ ~ In "VALE3" denylist.
Proof.
  apply (extracted_rows_come_from_lines sample_text
           (mkHolding "VALE3" (Fin (qz 60)) (Fin (qz 420)))).
  - reflexivity.
  - rewrite sample_text_rows. right. left. reflexivity.
Defined.

(** ** Extracted amounts *)

Ltac by_char c :=
  destruct c as [[] [] [] [] [] [] [] []];
  try discriminate; try reflexivity; auto.

Lemma all_chars_app (p : ascii -> bool) (a b : string) :
  all_chars p (a ++ b) = all_chars p a && all_chars p b.
Proof.
  induction a as [|c a IH]; simpl; [reflexivity|].
  now rewrite IH, andb_assoc.
Qed.

Lemma all_chars_impl (p q : ascii -> bool) (s : string) :
  (forall c, p c = true -> q c = true) ->
  all_chars p s = true -> all_chars q s = true.
Proof.
  intro H. induction s as [|c s IH]; simpl; [reflexivity|].
  intro A. apply andb_prop in A. destruct A as [C A].
  now rewrite (H c C), IH.
Qed.

Lemma replace_currency_absent (new s : string) :
  all_chars (fun c => negb (Ascii.eqb c "R"%char)) s = true ->
  replace_from "R$" new 0 s = s.
Proof.
  induction s as [|c s IH]; [reflexivity|].
  simpl all_chars. intro A. apply andb_prop in A. destruct A as [C A].
  cbn [replace_from startswith].
  rewrite Ascii.eqb_sym. apply negb_true_iff in C. rewrite C.
  simpl. now rewrite IH.
Qed.

Lemma replace_char_cons (a : ascii) (new : string) (c : ascii) (s : string) :
  replace (String a EmptyString) new (String c s)
  = if Ascii.eqb a c
    then (new ++ replace (String a EmptyString) new s)%string
    else String c (replace (String a EmptyString) new s).
Proof.
  unfold replace. cbn [replace_from startswith String.length Nat.sub].
  destruct (Ascii.eqb a c); [|reflexivity].
  destruct s; reflexivity.
Qed.

Lemma lstrip_spaces (sp s : string) :
  all_chars is_space sp = true -> lstrip (sp ++ s) = lstrip s.
Proof.
  induction sp as [|c sp IH]; [reflexivity|].
  simpl. intro A. apply andb_prop in A. destruct A as [C A].
  rewrite C. now apply IH.
Qed.

Lemma lstrip_no_space (s : string) :
  all_chars (fun c => negb (is_space c)) s = true -> lstrip s = s.
Proof.
  destruct s as [|c s]; [reflexivity|]. simpl. intro A.
  apply andb_prop in A. destruct A as [C _].
  apply negb_true_iff in C. now rewrite C.
Qed.

Lemma rstrip_no_space (s : string) :
  all_chars (fun c => negb (is_space c)) s = true -> rstrip s = s.
Proof.
  induction s as [|c s IH]; [reflexivity|]. simpl. intro A.
  apply andb_prop in A. destruct A as [C A]. rewrite (IH A).
  apply negb_true_iff in C. rewrite C. now destruct s.
Qed.

Lemma float_space_is_space (c : ascii) :
  negb (is_space c) = true -> negb (is_float_space c) = true.
Proof. by_char c. Qed.

Lemma float_strip_no_space (s : string) :
  all_chars (fun c => negb (is_space c)) s = true -> float_strip s = s.
Proof.
  intro A.
  apply (all_chars_impl _ (fun c => negb (is_float_space c)) s
           float_space_is_space) in A.
  unfold float_strip.
  assert (L : float_lstrip s = s).
  { destruct s as [|c s]; [reflexivity|]. simpl in *.
    apply andb_prop in A. destruct A as [C _].
    apply negb_true_iff in C. now rewrite C. }
  rewrite L. clear L.
  induction s as [|c s IH]; [reflexivity|]. simpl in *.
  apply andb_prop in A. destruct A as [C A]. rewrite (IH A).
  apply negb_true_iff in C. rewrite C. now destruct s.
Qed.

Lemma amount_char_no_space (c : ascii) :
  is_amount_char c = true -> negb (is_space c) = true.
Proof. by_char c. Qed.

Lemma amount_char_no_R (c : ascii) :
  is_amount_char c = true -> negb (Ascii.eqb c "R"%char) = true.
Proof. by_char c. Qed.

Lemma space_no_R (c : ascii) :
  is_space c = true -> negb (Ascii.eqb c "R"%char) = true.
Proof. by_char c. Qed.

Lemma plain_no_space (c : ascii) :
  is_plain c = true -> negb (is_space c) = true.
Proof. by_char c. Qed.

Lemma plain_no_underscore (c : ascii) :
  is_plain c = true -> Ascii.eqb c "_"%char = false.
Proof. by_char c. Qed.

(** Without points, then with points for commas. *)
Lemma cleaned_amount_plain (ds : string) :
  all_chars is_amount_char ds = true ->
  all_chars is_plain (replace "," "." (replace "." "" ds)) = true.
Proof.
  induction ds as [|c ds IH]; [reflexivity|].
  simpl all_chars. intro A. apply andb_prop in A. destruct A as [C A].
  specialize (IH A). rewrite replace_char_cons.
  destruct (Ascii.eqb "." c) eqn:E; [exact IH|].
  rewrite replace_char_cons.
  destruct (Ascii.eqb "," c) eqn:E'.
  - simpl. exact IH.
  - simpl. rewrite IH, andb_true_r.
    revert C E E'. clear. by_char c.
Qed.

Lemma stripped_amount_of_group (g : string) :
  is_amount g -> all_chars is_plain (stripped_amount g) = true.
Proof.
  intros [sp [ds [-> [Hsp [Hne Hds]]]]]. unfold stripped_amount.
  assert (E : replace "R$" "" ("R$" ++ sp ++ ds) = (sp ++ ds)%string).
  { unfold replace. cbn [append replace_from startswith Ascii.eqb Bool.eqb
                           andb String.length Nat.sub].
    apply replace_currency_absent. rewrite all_chars_app.
    rewrite (all_chars_impl _ _ sp space_no_R Hsp).
    now rewrite (all_chars_impl _ _ ds amount_char_no_R Hds). }
  rewrite E. unfold strip. rewrite (lstrip_spaces sp ds Hsp).
  pose proof (all_chars_impl _ _ ds amount_char_no_space Hds) as N.
  rewrite (lstrip_no_space ds N), (rstrip_no_space ds N).
  now apply cleaned_amount_plain.
Qed.

Lemma Q2Qc_nonneg (q : Q) : (0 <= q)%Q -> (0 <= Q2Qc q)%Qc.
Proof.
  intro H. change (0 <= Qred q)%Q. now rewrite Qred_correct.
Qed.

Lemma scale10_nonneg (mantissa : N) (exponent : Z) :
  (0 <= scale10 mantissa exponent)%Qc.
Proof.
  unfold scale10. destruct (0 <=? exponent)%Z eqn:E.
  - apply Q2Qc_nonneg. unfold Qle. simpl.
    apply Z.leb_le in E. rewrite Z.mul_1_r.
    apply Z.mul_nonneg_nonneg; [apply N2Z.is_nonneg|].
    now apply Z.pow_nonneg.
  - apply Q2Qc_nonneg. unfold Qle. simpl. rewrite Z.mul_1_r.
    apply N2Z.is_nonneg.
Qed.

Lemma parse_decimal_nonneg (s : string) (q : Qc) :
  parse_decimal s = Some q -> (0 <= q)%Qc.
Proof.
  unfold parse_decimal.
  destruct (span is_digit s) as [ip r1].
  destruct (match r1 with
            | String "."%char r => span is_digit r
            | _ => (EmptyString, r1)
            end) as [fp r2].
  destruct (String.length ip + String.length fp =? 0)%nat; [discriminate|].
  destruct r2 as [|c r3].
  - intro H. injection H as <-. apply scale10_nonneg.
  - destruct (Ascii.eqb (to_lower c) "e"); [|discriminate].
    destruct (read_sign r3) as [eneg r4].
    destruct (span is_digit r4) as [ed r5].
    destruct ed; [discriminate|]. destruct r5; [|discriminate].
    intro H. injection H as <-. apply scale10_nonneg.
Qed.

Lemma underscore_case {A : Type} (prev : option ascii) (x y : A) :
  match prev with Some "_"%char => x | _ => y end
  = if match prev with Some p => Ascii.eqb p "_"%char | None => false end
    then x else y.
Proof.
  destruct prev as [p|]; [|reflexivity]. by_char p.
Qed.

Lemma drop_underscores_none (prev : option ascii) (s : string) :
  match prev with Some p => Ascii.eqb p "_"%char | None => false end = false ->
  all_chars is_plain s = true ->
  drop_underscores prev s = Some s.
Proof.
  revert prev. induction s as [|c s IH]; intros prev P A.
  - simpl. rewrite underscore_case, P. reflexivity.
  - simpl in A. apply andb_prop in A. destruct A as [C A].
    pose proof (plain_no_underscore c C) as U.
    cbn [drop_underscores]. rewrite U, underscore_case, P.
    rewrite (IH (Some c) U A). reflexivity.
Qed.

Lemma read_sign_plain (s : string) :
  all_chars is_plain s = true -> read_sign s = (false, s).
Proof.
  destruct s as [|c s]; [reflexivity|]. simpl all_chars. intro A.
  apply andb_prop in A. destruct A as [C _]. revert C. by_char c.
Qed.

Lemma plain_not_a_word (s : string) :
  all_chars is_plain s = true ->
  String.eqb (lower s) "inf" || String.eqb (lower s) "infinity" = false
  /\ String.eqb (lower s) "nan" = false.
Proof.
  destruct s as [|c s]; [split; reflexivity|]. simpl all_chars. intro A.
  apply andb_prop in A. destruct A as [C _].
  cbn [lower String.eqb].
  assert (I : Ascii.eqb (to_lower c) "i" = false) by (revert C; by_char c).
  assert (N : Ascii.eqb (to_lower c) "n" = false) by (revert C; by_char c).
  rewrite I, N. split; reflexivity.
Qed.

(** On digits and points [float] gives a non-negative number or fails. *)
Lemma py_float_plain (s : string) :
  all_chars is_plain s = true ->
  match py_float_str s with
  | Some x => exists q, x = Fin q /\ (0 <= q)%Qc
  | None => True
  end.
Proof.
  intro A. unfold py_float_str.
  rewrite (float_strip_no_space s (all_chars_impl _ _ s plain_no_space A)).
  rewrite (drop_underscores_none None s eq_refl A).
  rewrite (read_sign_plain s A).
  destruct (plain_not_a_word s A) as [-> ->].
  destruct (parse_decimal s) as [q|] eqn:E; [|exact I].
  exists q. split; [reflexivity|exact (parse_decimal_nonneg s q E)].
Qed.

Lemma clean_amount_nonneg (g : string) :
  is_amount g -> exists q, clean_value (PStr g) = Ok (Fin q) /\ (0 <= q)%Qc.
Proof.
  intro H. rewrite clean_value_str.
  pose proof (py_float_plain _ (stripped_amount_of_group g H)) as P.
  destruct (py_float_str (stripped_amount g)) as [x|].
  - destruct P as [q [-> Hq]]. eauto.
  - exists (qz 0). split; [reflexivity|]. rewrite qz0. apply Qcle_refl.
Qed.

(** The quote and the position of every extracted row are finite and not
    negative. *)
Lemma extracted_values_nonnegative :
  forall text row,
    In row (process_portfolio_text text) ->
    exists q p,
      h_Ultima_Cotacao row = Fin q /\ (0 <= q)%Qc
      /\ h_Posicao row = Fin p /\ (0 <= p)%Qc.
Proof.
  intros text row H. rewrite process_portfolio_text_rows in H.
  apply in_flat_map in H. destruct H as [line [_ Hr]].
  apply line_rows_in in Hr. destruct Hr as [cq [cp [Hs [_ [Hq Hp]]]]].
  apply line_regex_search_sound in Hs.
  destruct Hs as [pre [s [_ [w1 [mid [w2 [w3 [post [_ [_ [_ [_ [_ [A2 [_ A3]]]]]]]]]]]]]]].
  destruct (clean_amount_nonneg cq A2) as [q [Eq Hq0]].
  destruct (clean_amount_nonneg cp A3) as [p [Ep Hp0]].
  exists q, p. rewrite Eq in Hq. rewrite Ep in Hp.
  injection Hq as <-. injection Hp as <-. auto.
Qed.

(** ** The loader, success path *)

Lemma has_expected_cols (cols : list string) :
  forallb (fun col => str_in col cols) expected_cols = true
  <-> forall col, In col expected_cols -> In col cols.
Proof.
  rewrite forallb_forall. split; intros H col Hc; specialize (H col Hc).
  - unfold str_in in H. apply existsb_exists in H.
    destruct H as [x [Hx E]]. apply String.eqb_eq in E. now subst x.
  - unfold str_in. apply existsb_exists. exists col.
    split; [exact H|apply String.eqb_refl].
Qed.

(** X4: the loader returns a table exactly when the sheet "Recomendações" can
    be read and has the five expected columns, and then it is that sheet as
    read: other columns and the column order do not matter. *)
Theorem loader_returns_sheet_iff :
  forall (f : excel_file) (df : DataFrame),
    load_recommendations_from_excel f = Ok df
    <-> read_excel f "Recomendações" = Ok df
        /\ forall col, In col expected_cols -> In col (df_columns df).
Proof.
  intros f df. unfold load_recommendations_from_excel.
  destruct (read_excel f "Recomendações") as [sheet|e] eqn:E;
    unfold bind, try_except.
  - destruct (forallb (fun col => str_in col (df_columns sheet)) expected_cols)
      eqn:C; cbn [negb].
    + split.
      * intro H. injection H as <-. split; [reflexivity|].
        now apply has_expected_cols.
      * intros [H _]. exact H.
    + rewrite build_fallback_raises. split; [discriminate|].
      intros [H Hc]. injection H as ->.
      apply has_expected_cols in Hc. congruence.
  - rewrite build_fallback_raises. split; [discriminate|].
    intros [H _]. discriminate H.
Qed.

(** ** The left join, row by row *)

Lemma merge_one_in (reco_df : list RecoRow) (h : HoldingRow) (m : MergedRow) :
  In m (merge_one reco_df h)
  <-> (exists r, In r reco_df /\ r_Ticker r = h_Ticker h /\ m = joined h r)
      \/ ((forall r, In r reco_df -> r_Ticker r <> h_Ticker h)
          /\ m = unmatched h).
Proof.
  split.
  - unfold merge_one.
    destruct (filter _ reco_df) as [|r0 rs] eqn:F.
    + intros [<-|[]]. right. split; [|reflexivity].
      intros r Hr E.
      assert (Hin : In r (filter (fun r => String.eqb (r_Ticker r) (h_Ticker h))
                                 reco_df)).
      { apply filter_In. split; [exact Hr|now apply String.eqb_eq]. }
      rewrite F in Hin. exact Hin.
    + intro H. apply in_map_iff in H. destruct H as [r [<- Hr]].
      rewrite <- F in Hr. apply filter_In in Hr. destruct Hr as [Hr E].
      apply String.eqb_eq in E. left. eauto.
  - intros [[r [Hr [E ->]]]|[Hno ->]].
    + unfold merge_one.
      assert (Hin : In r (filter (fun r => String.eqb (r_Ticker r) (h_Ticker h))
                                 reco_df)).
      { apply filter_In. split; [exact Hr|now apply String.eqb_eq]. }
      destruct (filter _ reco_df) as [|r0 rs]; [destruct Hin|].
      now apply in_map.
    + rewrite (merge_one_unmatched reco_df h Hno). now left.
Qed.

Lemma analysis_row_joined (h : HoldingRow) (r : RecoRow) :
  analysis_row (joined h r)
  = let target :=
      match r_Preco_Alvo r with NaN => Fin (qz 0) | _ => r_Preco_Alvo r end in
    let raw :=
      fmul (fsub (fdiv target (h_Ultima_Cotacao h)) (Fin (qz 1)))
           (Fin (qz 100)) in
    mkAnalysis (h_Ticker h) (h_Ultima_Cotacao h) (h_Posicao h) (r_Empresa r)
      (match r_Setor r with Some s => s | None => "Não Classificado" end)
      (r_Recomendacao r) target
      (if fgt (h_Ultima_Cotacao h) (Fin (qz 0))
       then match raw with NaN => Fin (qz 0) | _ => raw end
       else Fin (qz 0)).
Proof.
  unfold analysis_row, joined, where_, fillna_str.
  cbn [m_Ticker m_Ultima_Cotacao m_Posicao m_Empresa m_Setor m_Recomendacao
       m_Preco_Alvo].
  assert (F : forall x, fillna (Fin (qz 0)) x
                        = match x with NaN => Fin (qz 0) | _ => x end).
  { intros []; reflexivity. }
  cbv zeta. rewrite !F.
  destruct (fgt (h_Ultima_Cotacao h) (Fin (qz 0))); reflexivity.
Qed.

Lemma analysis_row_unmatched (h : HoldingRow) :
  analysis_row (unmatched h)
  = let raw :=
      fmul (fsub (fdiv (Fin (qz 0)) (h_Ultima_Cotacao h)) (Fin (qz 1)))
           (Fin (qz 100)) in
    mkAnalysis (h_Ticker h) (h_Ultima_Cotacao h) (h_Posicao h) None
      "Não Classificado" None (Fin (qz 0))
      (if fgt (h_Ultima_Cotacao h) (Fin (qz 0))
       then match raw with NaN => Fin (qz 0) | _ => raw end
       else Fin (qz 0)).
Proof.
  unfold analysis_row, unmatched, where_, fillna_str.
  cbn [m_Ticker m_Ultima_Cotacao m_Posicao m_Empresa m_Setor m_Recomendacao
       m_Preco_Alvo].
  assert (F : forall x, fillna (Fin (qz 0)) x
                        = match x with NaN => Fin (qz 0) | _ => x end).
  { intros []; reflexivity. }
  cbv zeta. rewrite !F.
  destruct (fgt (h_Ultima_Cotacao h) (Fin (qz 0))); reflexivity.
Qed.

(** X5: the rows of the analysis table are exactly these.  For a holding
    and each recommendation row of the same ticker: the holding's ticker,
    quote and position; the recommendation's company and label as they
    are; its sector, or "Não Classificado" when the sector is missing; its
    target price, or 0 when the price is missing; and the upside.  For a
    holding whose ticker no recommendation row has: the holding's ticker,
    quote and position, no company, the sector "Não Classificado", no
    label, the target price 0, and the upside.  The upside is
    (target / quote - 1) * 100 with NaN replaced by 0 where the quote is
    above 0, and 0 elsewhere. *)
Theorem analysis_rows_are_the_left_join :
  forall (portfolio_df : list HoldingRow) (reco_df : list RecoRow)
         (a : AnalysisRow),
    let upside := fun quote target : fval =>
      let raw :=
        fmul (fsub (fdiv target quote) (Fin (qz 1))) (Fin (qz 100)) in
      if fgt quote (Fin (qz 0))
      then match raw with NaN => Fin (qz 0) | _ => raw end
      else Fin (qz 0) in
    let filled := fun target : fval =>
      match target with NaN => Fin (qz 0) | _ => target end in
    In a (analysis_df portfolio_df reco_df)
    <-> exists h,
        In h portfolio_df
        /\ ((exists r,
               In r reco_df /\ r_Ticker r = h_Ticker h
               /\ a = mkAnalysis (h_Ticker h) (h_Ultima_Cotacao h)
                        (h_Posicao h) (r_Empresa r)
                        (match r_Setor r with
                         | Some s => s
                         | None => "Não Classificado"
                         end)
                        (r_Recomendacao r) (filled (r_Preco_Alvo r))
                        (upside (h_Ultima_Cotacao h) (filled (r_Preco_Alvo r))))
            \/ ((forall r, In r reco_df -> r_Ticker r <> h_Ticker h)
                /\ a = mkAnalysis (h_Ticker h) (h_Ultima_Cotacao h)
                         (h_Posicao h) None "Não Classificado" None
                         (Fin (qz 0))
                         (upside (h_Ultima_Cotacao h) (Fin (qz 0))))).
Proof.
  intros portfolio_df reco_df a upside filled. subst upside filled.
  rewrite in_analysis_df. split.
  - intros [h [m [Hh [Hm ->]]]]. exists h. split; [exact Hh|].
    apply merge_one_in in Hm.
    destruct Hm as [[r [Hr [E ->]]]|[Hno ->]].
    + left. exists r. split; [exact Hr|]. split; [exact E|].
      apply analysis_row_joined.
    + right. split; [exact Hno|]. apply analysis_row_unmatched.
  - intros [h [Hh [[r [Hr [E ->]]]|[Hno ->]]]].
    + exists h, (joined h r). split; [exact Hh|].
      split; [|symmetry; apply analysis_row_joined].
      apply merge_one_in. left. eauto.
    + exists h, (unmatched h). split; [exact Hh|].
      split; [|symmetry; apply analysis_row_unmatched].
      apply merge_one_in. right. auto.
Qed.

Lemma fillna_not_nan (v x : fval) : is_nan v = false -> is_nan (fillna v x) = false.
Proof. intro H. unfold fillna. destruct x; simpl; auto. Qed.

(** X6: in every analysis row the target price and the upside are numbers
    (never NaN), and the upside is 0 unless the quote is positive: a
    missing, zero or negative quote all give 0. *)
Theorem analysis_rows_populated :
  forall (portfolio_df : list HoldingRow) (reco_df : list RecoRow)
         (a : AnalysisRow),
    In a (analysis_df portfolio_df reco_df) ->
    is_nan (Preco_Alvo a) = false
    /\ is_nan (Potencial a) = false
    /\ (fgt (Ultima_Cotacao a) (Fin (qz 0)) = false ->
        Potencial a = Fin (qz 0)).
Proof.
  intros portfolio_df reco_df a H.
  apply in_analysis_df in H. destruct H as [h [m [_ [_ ->]]]].
  unfold analysis_row. cbn [Preco_Alvo Potencial Ultima_Cotacao].
  split; [now apply fillna_not_nan|]. split; [now apply fillna_not_nan|].
  intros ->. reflexivity.
Qed.

Lemma analysis_rows_populated_witness :
  is_nan (Preco_Alvo sample_row_D) = false
  /\ is_nan (Potencial sample_row_D) = false
  /\ (fgt (Ultima_Cotacao sample_row_D) (Fin (qz 0)) = false ->
      Potencial sample_row_D = Fin (qz 0)).
Proof.
  exact (analysis_rows_populated sample_holdings sample_reco sample_row_D
           sample_row_D_in).
Defined.

(** ** The sector table of the page *)

Lemma sector_allocation_keys (df : list AnalysisRow) :
  map (fun row => fst (fst row)) (sector_allocation df) = group_keys df.
Proof.
  unfold sector_allocation, groupby_sum. rewrite !map_map. simpl.
  apply map_id.
Qed.

(** X7: the sector table has one row for each sector of the analysis table
    and no other row. *)
Theorem sector_table_lists_each_sector_once :
  forall df : list AnalysisRow,
    NoDup (map (fun row => fst (fst row)) (sector_allocation df))
    /\ forall s, In s (map (fun row => fst (fst row)) (sector_allocation df))
                 <-> In s (map Setor df).
Proof.
  intro df. rewrite sector_allocation_keys. split.
  - apply group_keys_nodup.
  - intro s. apply group_keys_in.
Qed.

(** X8: when the total is a number, the sums of the sector table add up to
    it: no position is lost or counted twice by the grouping. *)
Theorem sector_sums_add_up_to_total :
  forall (df : list AnalysisRow) (total : Qc),
    fsum (map Posicao df) = Fin total ->
    fsum (map (fun row => snd (fst row)) (sector_allocation df)) = Fin total.
Proof.
  intros df total Htot. destruct (fsum_fin _ _ Htot) as [Hfin Hq].
  unfold sector_allocation, groupby_sum. rewrite !map_map. simpl.
  rewrite (map_ext _ (fun k => Fin (sector_q df k))).
  2:{ intro k. now apply sector_sum_fin. }
  rewrite fsum_of_fin_or_nan.
  2:{ apply Forall_forall. intros x Hx. apply in_map_iff in Hx.
      destruct Hx as [k [<- _]]. exact I. }
  f_equal. rewrite qsum_map_fin, ksum_sectors, Hq.
  - reflexivity.
  - apply group_keys_nodup.
  - intros r Hr. apply group_keys_in, in_map, Hr.
Qed.

Lemma sector_sums_add_up_to_total_witness :
  fsum (map (fun row => snd (fst row)) (sector_allocation sample_analysis))
  = Fin (qz 1000).
Proof.
  exact (sector_sums_add_up_to_total sample_analysis (qz 1000)
           sample_analysis_total).
Defined.

(** X9: the shares printed by the narrative are those of the page's sector
    table, sector by sector: the two computations only differ in the order
    of the rows. *)
Theorem narrative_shares_agree_with_sector_table :
  forall df : list AnalysisRow,
    Permutation
      (map (fun row => (fst (fst row), snd row)) (sector_allocation df))
      (sector_percent df).
Proof.
  intro df. unfold sector_percent, sector_allocation, percent_of,
              sort_values_desc.
  rewrite map_map. simpl. apply Permutation_map, sort_by_perm.
Qed.

(** ** The page: lines 180-197 *)

Lemma truthy_false (x : fval) : truthy x = false <-> x = Fin (qz 0).
Proof.
  destruct x as [q| | |]; simpl; try (split; discriminate).
  rewrite negb_false_iff, Qc_is_zero_true. split; congruence.
Qed.

Lemma Z_to_string_first (z : Z) :
  exists c rest, Z_to_string z = String c rest /\ is_digit c = true.
Proof.
  unfold Z_to_string, NilZero.string_of_uint.
  destruct (N.to_uint (Z.to_N z)); simpl; eauto.
Qed.

Lemma percentage_is_not_na (x : fval) :
  (format_fixed 2 x ++ "%")%string <> "N/A".
Proof.
  destruct x as [q| | |]; try discriminate.
  unfold format_fixed. destruct (Qc_ltb q (qz 0)); [discriminate|].
  destruct (Z_to_string_first
              (round_half_even (Qabs q * inject_Z (10 ^ Z.of_nat 2))
               / 10 ^ Z.of_nat 2)) as [c [rest [-> D]]].
  simpl. intro H. injection H as -> _. discriminate D.
Qed.

(** X12: the upside metric of the page reads "N/A" exactly when the upside is
    0 or the target price is not positive; so it reads "N/A" for a holding
    without recommendation, whose upside is not 0, and for a holding whose
    quote is not positive. *)
Theorem upside_metric_spec :
  forall (portfolio_df : list HoldingRow) (reco_df : list RecoRow)
         (a : AnalysisRow),
    In a (analysis_df portfolio_df reco_df) ->
    (potencial_metric a = "N/A"
     <-> Potencial a = Fin (qz 0) \/ fgt (Preco_Alvo a) (Fin (qz 0)) = false)
    /\ ((forall r, In r reco_df -> r_Ticker r <> Ticker a) ->
        potencial_metric a = "N/A")
    /\ (fgt (Ultima_Cotacao a) (Fin (qz 0)) = false ->
        potencial_metric a = "N/A").
Proof.
  intros portfolio_df reco_df a Ha.
  assert (Hiff : potencial_metric a = "N/A"
                 <-> Potencial a = Fin (qz 0)
                     \/ fgt (Preco_Alvo a) (Fin (qz 0)) = false).
  { unfold potencial_metric. rewrite <- truthy_false.
    destruct (truthy (Potencial a)); destruct (fgt (Preco_Alvo a) (Fin (qz 0)));
      simpl; try tauto.
    split; [intro H; now apply percentage_is_not_na in H|].
    intros [H|H]; discriminate H. }
  split; [exact Hiff|]. split.
  - intro Hno. apply Hiff. right.
    apply in_analysis_df in Ha. destruct Ha as [h [m [Hh [Hm ->]]]].
    destruct (merge_one_ticker reco_df h m Hm) as [Ht _].
    rewrite (merge_one_unmatched reco_df h) in Hm.
    + destruct Hm as [<-|[]]. reflexivity.
    + intros r Hr. rewrite <- Ht. exact (Hno r Hr).
  - intro Hq. apply Hiff. left.
    apply in_analysis_df in Ha. destruct Ha as [h [m [_ [_ ->]]]].
    unfold analysis_row in *. cbn [Potencial Ultima_Cotacao] in *.
    rewrite Hq. reflexivity.
Qed.

Lemma upside_metric_spec_witness :
  potencial_metric sample_row_D = "N/A"
  /\ Potencial sample_row_D = Fin (qz (-100)).
Proof.
  split; [|reflexivity].
  exact (proj1 (proj2 (upside_metric_spec sample_holdings sample_reco
                         sample_row_D sample_row_D_in))
               sample_reco_lacks_D).
Defined.

(** ** Formatting a position and reading it back *)

Lemma swap_replaces (c : ascii) (s : string) :
  negb (Ascii.eqb c "X"%char) = true ->
  replace "X" "." (replace "." "," (replace "," "X" (String c s)))
  = String (swap_separators c)
           (replace "X" "." (replace "." "," (replace "," "X" s))).
Proof.
  unfold replace. revert c. intro c. by_char c.
Qed.

(** The three replacements of line 185 exchange commas and points. *)
Lemma three_replacements (s : string) :
  all_chars (fun c => negb (Ascii.eqb c "X"%char)) s = true ->
  replace "X" "." (replace "." "," (replace "," "X" s))
  = map_string swap_separators s.
Proof.
  induction s as [|c s IH]; [reflexivity|].
  simpl all_chars. intro A. apply andb_prop in A. destruct A as [C A].
  rewrite (swap_replaces c s C), (IH A). reflexivity.
Qed.

Lemma map_string_app (f : ascii -> ascii) (a b : string) :
  map_string f (a ++ b) = (map_string f a ++ map_string f b)%string.
Proof.
  induction a as [|c a IH]; simpl; [reflexivity|now rewrite IH].
Qed.

Lemma map_string_id (f : ascii -> ascii) (p : ascii -> bool) (s : string) :
  (forall c, p c = true -> f c = c) ->
  all_chars p s = true -> map_string f s = s.
Proof.
  intro H. induction s as [|c s IH]; simpl; [reflexivity|].
  intro A. apply andb_prop in A. destruct A as [C A].
  now rewrite (H c C), (IH A).
Qed.

Lemma digit_facts (c : ascii) :
  is_digit c = true ->
  swap_separators c = c
  /\ negb (Ascii.eqb c "X"%char) = true
  /\ negb (Ascii.eqb c "R"%char) = true
  /\ negb (is_space c) = true
  /\ Ascii.eqb "."%char c = false
  /\ Ascii.eqb ","%char c = false
  /\ is_plain c = true.
Proof. by_char c; repeat split. Qed.

Lemma swap_grouped (s : string) :
  all_chars is_digit s = true ->
  map_string swap_separators (group_digits ","%char s) = group_digits "."%char s.
Proof.
  induction s as [|c s IH]; [reflexivity|].
  simpl all_chars. intro A. apply andb_prop in A. destruct A as [C A].
  destruct (digit_facts c C) as [S _]. cbn [group_digits].
  destruct (group_boundary (String.length s));
    cbn [map_string]; rewrite S, (IH A); reflexivity.
Qed.

Lemma grouped_chars (p : ascii -> bool) (sep : ascii) (s : string) :
  p sep = true -> (forall c, is_digit c = true -> p c = true) ->
  all_chars is_digit s = true ->
  all_chars p (group_digits sep s) = true.
Proof.
  intros Hsep Hd. induction s as [|c s IH]; [reflexivity|].
  simpl all_chars. intro A. apply andb_prop in A. destruct A as [C A].
  cbn [group_digits].
  destruct (group_boundary (String.length s));
    cbn [all_chars]; rewrite (Hd c C), ?Hsep, (IH A); reflexivity.
Qed.

Lemma replace_char_app (a : ascii) (new s t : string) :
  replace (String a EmptyString) new (s ++ t)
  = (replace (String a EmptyString) new s
       ++ replace (String a EmptyString) new t)%string.
Proof.
  induction s as [|c s IH]; [reflexivity|].
  cbn [append]. rewrite !replace_char_cons, IH.
  destruct (Ascii.eqb a c); [now rewrite append_assoc|reflexivity].
Qed.

Lemma replace_char_absent (a : ascii) (new s : string) :
  all_chars (fun c => negb (Ascii.eqb a c)) s = true ->
  replace (String a EmptyString) new s = s.
Proof.
  induction s as [|c s IH]; [reflexivity|].
  simpl all_chars. intro A. apply andb_prop in A. destruct A as [C A].
  rewrite replace_char_cons. apply negb_true_iff in C. rewrite C.
  now rewrite (IH A).
Qed.

(** Dropping the points of a grouped number gives its digits back. *)
Lemma ungroup (s : string) :
  all_chars is_digit s = true ->
  replace "." "" (group_digits "."%char s) = s.
Proof.
  induction s as [|c s IH]; [reflexivity|].
  simpl all_chars. intro A. apply andb_prop in A. destruct A as [C A].
  destruct (digit_facts c C) as [_ [_ [_ [_ [P _]]]]].
  cbn [group_digits].
  destruct (group_boundary (String.length s)).
  - rewrite replace_char_cons, P, replace_char_cons.
    cbn [Ascii.eqb Bool.eqb andb append]. now rewrite (IH A).
  - rewrite replace_char_cons, P. now rewrite (IH A).
Qed.

Lemma digits_value_app (acc : N) (a b : string) :
  digits_value acc (a ++ b) = digits_value (digits_value acc a) b.
Proof.
  revert acc. induction a as [|c a IH]; intro acc; simpl; [reflexivity|].
  apply IH.
Qed.

Lemma digits_value_shift (acc : N) (s : string) :
  digits_value acc s
  = (acc * 10 ^ N.of_nat (String.length s) + digits_value 0 s)%N.
Proof.
  revert acc. induction s as [|c s IH]; intro acc.
  - simpl. lia.
  - cbn [digits_value String.length]. rewrite IH.
    rewrite (IH (0 * 10 + _)%N). rewrite Nat2N.inj_succ, N.pow_succ_r'. lia.
Qed.

Lemma uint_string_digits (d : Decimal.uint) :
  all_chars is_digit (NilEmpty.string_of_uint d) = true.
Proof. induction d; simpl; auto. Qed.

Ltac digit_step IH acc :=
  cbn [NilEmpty.string_of_uint digits_value];
  match goal with
  | |- context [N.of_nat (code ?c - 48)] =>
      let v := eval vm_compute in (N.of_nat (code c - 48)) in
      change (N.of_nat (code c - 48)) with v
  end;
  rewrite IH; destruct acc as [|p];
  cbn [N.mul N.add N.of_uint Pos.of_uint Pos.of_uint_acc];
  [reflexivity | do 2 f_equal; lia].

Lemma uint_string_value (d : Decimal.uint) (acc : N) :
  digits_value acc (NilEmpty.string_of_uint d)
  = match acc with
    | N0 => N.of_uint d
    | Npos p => Npos (Pos.of_uint_acc d p)
    end.
Proof.
  revert acc. induction d; intro acc; [destruct acc; reflexivity|..];
    digit_step IHd acc.
Qed.

(** The decimal digits of a natural number, and the number they spell. *)
Lemma Z_to_string_spec (z : Z) :
  (0 <= z)%Z ->
  all_chars is_digit (Z_to_string z) = true
  /\ Z_to_string z <> EmptyString
  /\ digits_value 0 (Z_to_string z) = Z.to_N z.
Proof.
  intros _. unfold Z_to_string, NilZero.string_of_uint.
  pose proof (DecimalN.Unsigned.of_to (Z.to_N z)) as E.
  destruct (N.to_uint (Z.to_N z)) as [|d|d|d|d|d|d|d|d|d|d] eqn:U;
    try (split; [apply (uint_string_digits (_ d))|];
         split; [discriminate|];
         rewrite (uint_string_value (_ d) 0); exact E).
  split; [reflexivity|]. split; [discriminate|]. simpl in E. now rewrite <- E.
Qed.

Lemma pad_two_digits (m : Z) :
  (0 <= m < 100)%Z ->
  all_chars is_digit (pad_digits 2 m) = true
  /\ String.length (pad_digits 2 m) = 2%nat
  /\ digits_value 0 (pad_digits 2 m) = Z.to_N m.
Proof.
  intro H.
  assert (T : forallb two_digits_ok (seq 0 100) = true) by (vm_compute; reflexivity).
  rewrite forallb_forall in T. specialize (T (Z.to_nat m)).
  assert (I : In (Z.to_nat m) (seq 0 100)) by (apply in_seq; lia).
  specialize (T I). unfold two_digits_ok in T.
  rewrite Z2Nat.id in T by lia.
  apply andb_prop in T. destruct T as [T V].
  apply andb_prop in T. destruct T as [D L].
  apply Nat.eqb_eq in L. apply N.eqb_eq in V.
  repeat split; [exact D|exact L|]. rewrite V. lia.
Qed.

Lemma span_all (p : ascii -> bool) (s : string) :
  all_chars p s = true -> span p s = (s, EmptyString).
Proof.
  induction s as [|c s IH]; [reflexivity|]. simpl. intro A.
  apply andb_prop in A. destruct A as [C A]. now rewrite C, (IH A).
Qed.

Lemma span_until (p : ascii -> bool) (s : string) (c : ascii) (rest : string) :
  all_chars p s = true -> p c = false ->
  span p (s ++ String c rest) = (s, String c rest).
Proof.
  intros A C. induction s as [|x s IH]; simpl.
  - now rewrite C.
  - simpl in A. apply andb_prop in A. destruct A as [X A].
    now rewrite X, (IH A).
Qed.

Lemma drop_underscores_absent (prev : option ascii) (s : string) :
  match prev with Some p => Ascii.eqb p "_"%char | None => false end = false ->
  all_chars (fun c => negb (Ascii.eqb c "_"%char)) s = true ->
  drop_underscores prev s = Some s.
Proof.
  revert prev. induction s as [|c s IH]; intros prev P A.
  - simpl. rewrite underscore_case, P. reflexivity.
  - simpl in A. apply andb_prop in A. destruct A as [C A].
    apply negb_true_iff in C.
    cbn [drop_underscores]. rewrite C, underscore_case, P.
    rewrite (IH (Some c) C A). reflexivity.
Qed.

Lemma signed_amount_char_facts (c : ascii) :
  is_signed_amount_char c = true ->
  negb (Ascii.eqb c "R"%char) = true
  /\ negb (is_space c) = true
  /\ negb (Ascii.eqb c "_"%char) = true.
Proof. by_char c; repeat split. Qed.

Lemma digit_is_signed_amount_char (c : ascii) :
  is_digit c = true -> is_signed_amount_char c = true.
Proof. by_char c. Qed.

Lemma parse_decimal_point (ip fp : string) :
  all_chars is_digit ip = true -> all_chars is_digit fp = true ->
  fp <> EmptyString ->
  parse_decimal (ip ++ String "."%char fp)
  = Some (scale10 (digits_value 0 (ip ++ fp))
                  (- Z.of_nat (String.length fp))).
Proof.
  intros Hi Hf Hne. unfold parse_decimal.
  rewrite (span_until is_digit ip "."%char fp Hi eq_refl).
  rewrite (span_all is_digit fp Hf).
  destruct fp as [|c fp]; [congruence|].
  replace (String.length ip + String.length (String c fp) =? 0)%nat with false.
  - reflexivity.
  - symmetry. apply Nat.eqb_neq. simpl. lia.
Qed.

Lemma float_of_decimal (neg : bool) (ip fp : string) :
  all_chars is_digit ip = true -> ip <> EmptyString ->
  all_chars is_digit fp = true -> fp <> EmptyString ->
  py_float_str ((if neg then "-" else "") ++ ip ++ String "."%char fp)
  = Some (Fin (let v := scale10 (digits_value 0 (ip ++ fp))
                                (- Z.of_nat (String.length fp)) in
               if neg then (- v)%Qc else v)).
Proof.
  intros Hi Hin Hf Hfn.
  set (body := (ip ++ String "."%char fp)%string).
  assert (Hbody : all_chars is_plain body = true).
  { unfold body. rewrite all_chars_app. cbn [all_chars].
    rewrite (all_chars_impl is_digit is_plain ip), (all_chars_impl is_digit is_plain fp);
      auto; intros c C; apply (digit_facts c C). }
  assert (Hall : all_chars is_signed_amount_char
                   ((if neg then "-" else "") ++ body) = true).
  { rewrite all_chars_app.
    rewrite (all_chars_impl is_plain is_signed_amount_char body); [|
      intros c; by_char c | exact Hbody].
    now destruct neg. }
  unfold py_float_str.
  rewrite float_strip_no_space.
  2:{ eapply all_chars_impl; [|exact Hall].
      intros c C. apply (signed_amount_char_facts c C). }
  rewrite (drop_underscores_absent None _ eq_refl).
  2:{ eapply all_chars_impl; [|exact Hall].
      intros c C. apply (signed_amount_char_facts c C). }
  assert (Hsign : read_sign ((if neg then "-" else "") ++ body) = (neg, body)).
  { destruct neg; [reflexivity|]. now apply read_sign_plain. }
  rewrite Hsign. destruct (plain_not_a_word body Hbody) as [-> ->].
  unfold body. rewrite (parse_decimal_point ip fp Hi Hf Hfn).
  now destruct neg.
Qed.

(** What [clean_value] reads in a number written the Brazilian way. *)
Lemma clean_brazilian (neg : bool) (ip fp : string) :
  all_chars is_digit ip = true -> ip <> EmptyString ->
  all_chars is_digit fp = true -> fp <> EmptyString ->
  clean_value
    (PStr ("R$ " ++ (if neg then "-" else "")
             ++ group_digits "."%char ip ++ String ","%char fp))
  = Ok (Fin (let v := scale10 (digits_value 0 (ip ++ fp))
                              (- Z.of_nat (String.length fp)) in
             if neg then (- v)%Qc else v)).
Proof.
  intros Hi Hin Hf Hfn. rewrite clean_value_str.
  set (sign := if neg then "-" else "").
  set (rest := (sign ++ group_digits "."%char ip ++ String ","%char fp)%string).
  assert (Hrest : all_chars is_signed_amount_char rest = true).
  { unfold rest. rewrite !all_chars_app. cbn [all_chars].
    rewrite (grouped_chars is_signed_amount_char "."%char ip eq_refl
               digit_is_signed_amount_char Hi).
    rewrite (all_chars_impl _ _ fp digit_is_signed_amount_char Hf).
    unfold sign. now destruct neg. }
  assert (E : stripped_amount ("R$ " ++ rest)
              = (sign ++ ip ++ String "."%char fp)%string).
  { unfold stripped_amount.
    assert (R : replace "R$" "" ("R$ " ++ rest) = String " "%char rest).
    { unfold replace. cbn [append replace_from startswith Ascii.eqb Bool.eqb
                             andb String.length Nat.sub].
      apply (replace_currency_absent "" (String " "%char rest)).
      cbn [all_chars]. eapply all_chars_impl; [|exact Hrest].
      intros c C. apply (signed_amount_char_facts c C). }
    rewrite R. unfold strip. cbn [lstrip].
    replace (is_space " "%char) with true by reflexivity.
    assert (N : all_chars (fun c => negb (is_space c)) rest = true).
    { eapply all_chars_impl; [|exact Hrest].
      intros c C. apply (signed_amount_char_facts c C). }
    rewrite (lstrip_no_space rest N), (rstrip_no_space rest N).
    unfold rest. rewrite !replace_char_app.
    rewrite (ungroup ip Hi).
    rewrite (replace_char_cons "."%char "" ","%char fp).
    cbn [Ascii.eqb Bool.eqb andb].
    rewrite (replace_char_absent "."%char "" fp).
    2:{ eapply all_chars_impl; [|exact Hf]. intros c C.
        destruct (digit_facts c C) as [_ [_ [_ [_ [P _]]]]]. now rewrite P. }
    assert (S1 : replace "." "" sign = sign) by (unfold sign; now destruct neg).
    assert (S2 : replace "," "." sign = sign) by (unfold sign; now destruct neg).
    rewrite S1, S2.
    rewrite (replace_char_absent ","%char "." ip).
    2:{ eapply all_chars_impl; [|exact Hi]. intros c C.
        destruct (digit_facts c C) as [_ [_ [_ [_ [_ [P _]]]]]]. now rewrite P. }
    rewrite (replace_char_cons ","%char "." ","%char fp).
    cbn [Ascii.eqb Bool.eqb andb append].
    rewrite (replace_char_absent ","%char "." fp).
    2:{ eapply all_chars_impl; [|exact Hf]. intros c C.
        destruct (digit_facts c C) as [_ [_ [_ [_ [_ [P _]]]]]]. now rewrite P. }
    reflexivity. }
  change ("R$ " ++ sign ++ group_digits "."%char ip ++ String ","%char fp)%string
    with ("R$ " ++ rest)%string.
  rewrite E. unfold sign.
  now rewrite (float_of_decimal neg ip fp Hi Hin Hf Hfn).
Qed.

Lemma round_half_even_nonneg (q : Q) : (0 <= q)%Q -> (0 <= round_half_even q)%Z.
Proof.
  intro H. unfold round_half_even.
  pose proof (Qfloor_resp_le _ _ H) as F. change (Qfloor 0) with 0%Z in F.
  destruct (Qcompare _ _); [destruct (Z.even _)| |]; lia.
Qed.

Lemma round_half_even_comp (x y : Q) :
  x == y -> round_half_even x = round_half_even y.
Proof.
  intro E. unfold round_half_even.
  rewrite (Qfloor_comp x y E).
  assert (C : Qcompare (x - inject_Z (Qfloor y)) (1 # 2)
              = Qcompare (y - inject_Z (Qfloor y)) (1 # 2)).
  { apply Qcompare_comp; [now rewrite E|reflexivity]. }
  now rewrite C.
Qed.

Lemma round_half_even_Z (z : Z) : round_half_even (inject_Z z) = z.
Proof.
  unfold round_half_even. rewrite Qfloor_Z.
  destruct (Qcompare_spec (inject_Z z - inject_Z z) (1 # 2)) as [E|E|E];
    [exfalso|reflexivity|exfalso]; lra.
Qed.

(** The text written for a position: thousands separated by points, a
    comma before the two digits of the cents. *)
Lemma posicao_formatada_text (q : Qc) :
  let n := round_half_even (Qabs q * inject_Z 100)%Q in
  posicao_formatada (Fin q)
  = ("R$ " ++ (if Qc_ltb q (qz 0) then "-" else "")
       ++ group_digits "."%char (Z_to_string (n / 100))
       ++ String ","%char (pad_digits 2 (n mod 100)))%string.
Proof.
  intro n.
  assert (Hn : (0 <= n)%Z).
  { apply round_half_even_nonneg. apply Qmult_le_0_compat; [apply Qabs_nonneg|].
    unfold Qle. simpl. lia. }
  destruct (Z_to_string_spec (n / 100)) as [Hi _]; [apply Z.div_pos; lia|].
  destruct (pad_two_digits (n mod 100)) as [Hf _];
    [apply Z.mod_pos_bound; lia|].
  unfold posicao_formatada, format_grouped.
  change (10 ^ Z.of_nat 2)%Z with 100%Z. fold n.
  set (ipart := Z_to_string (n / 100)) in *.
  set (fpart := pad_digits 2 (n mod 100)) in *.
  rewrite three_replacements.
  - rewrite !map_string_app. cbn [map_string append].
    rewrite (swap_grouped ipart Hi).
    rewrite (map_string_id swap_separators is_digit fpart); [|
      intros c C; apply (digit_facts c C) | exact Hf].
    now destruct (Qc_ltb q (qz 0)).
  - rewrite !all_chars_app. cbn [all_chars].
    rewrite (grouped_chars (fun c => negb (Ascii.eqb c "X"%char)) ","%char
               ipart eq_refl); [| intros c C; apply (digit_facts c C) | exact Hi].
    rewrite (all_chars_impl is_digit _ fpart); [|
      intros c C; apply (digit_facts c C) | exact Hf].
    now destruct (Qc_ltb q (qz 0)).
Qed.

Lemma to_cents_of_cents (z : Z) : to_cents (Q2Qc (z # 100)) = Q2Qc (z # 100).
Proof.
  unfold to_cents.
  assert (N : round_half_even (Qabs (Q2Qc (z # 100)) * inject_Z 100)%Q = Z.abs z).
  { rewrite <- (round_half_even_Z (Z.abs z)). apply round_half_even_comp.
    change (this (Q2Qc (z # 100))) with (Qred (z # 100)).
    rewrite Qred_correct. unfold Qeq. simpl. lia. }
  rewrite N.
  destruct (Qc_ltb (Q2Qc (z # 100)) (qz 0)) eqn:L.
  - apply Qc_ltb_true in L.
    change (Qred (z # 100) < Qred (inject_Z 0))%Q in L.
    rewrite !Qred_correct in L. unfold Qlt in L. simpl in L.
    apply Qc_is_canon.
    change (Qred (- Qred (Z.abs z # 100)) == Qred (z # 100)).
    rewrite !Qred_correct. unfold Qeq. simpl. lia.
  - apply Qc_ltb_false in L.
    change (Qred (inject_Z 0) <= Qred (z # 100))%Q in L.
    rewrite !Qred_correct in L. unfold Qle in L. simpl in L.
    replace (Z.abs z) with z by lia. reflexivity.
Qed.

(** X13: [clean_value] reads the page's own text for a position back as the
    position rounded to cents; a position that is a whole number of cents
    is read back unchanged, whatever its sign and size. *)
Theorem formatted_position_reads_back :
  (forall q : Qc,
      clean_value (PStr (posicao_formatada (Fin q))) = Ok (Fin (to_cents q)))
  /\ (forall z : Z,
        clean_value (PStr (posicao_formatada (Fin (Q2Qc (z # 100)))))
        = Ok (Fin (Q2Qc (z # 100)))).
Proof.
  assert (G : forall q : Qc,
             clean_value (PStr (posicao_formatada (Fin q)))
             = Ok (Fin (to_cents q))).
  { intro q. rewrite posicao_formatada_text.
    set (n := round_half_even (Qabs q * inject_Z 100)%Q).
    assert (Hn : (0 <= n)%Z).
    { apply round_half_even_nonneg.
      apply Qmult_le_0_compat; [apply Qabs_nonneg|].
      unfold Qle. simpl. lia. }
    destruct (Z_to_string_spec (n / 100)) as [Hi [Hin Hiv]];
      [apply Z.div_pos; lia|].
    destruct (pad_two_digits (n mod 100)) as [Hf [Hfl Hfv]];
      [apply Z.mod_pos_bound; lia|].
    rewrite clean_brazilian; auto.
    2:{ intro E. rewrite E in Hfl. discriminate Hfl. }
    rewrite Hfl, digits_value_app, Hiv, digits_value_shift, Hfl, Hfv.
    assert (V : (Z.to_N (n / 100) * 10 ^ N.of_nat 2 + Z.to_N (n mod 100))%N
                = Z.to_N n).
    { change (10 ^ N.of_nat 2)%N with 100%N.
      pose proof (Z.div_mod n 100) as D.
      pose proof (Z.div_pos n 100) as P.
      pose proof (Z.mod_pos_bound n 100) as B. lia. }
    rewrite V. unfold to_cents. fold n.
    assert (S : scale10 (Z.to_N n) (- Z.of_nat 2) = Q2Qc (n # 100)).
    { unfold scale10. cbn. rewrite Z2N.id by exact Hn. reflexivity. }
    rewrite S. reflexivity. }
  split; [exact G|].
  intro z. rewrite G. now rewrite to_cents_of_cents.
Qed.

(** ** Separators in amounts *)

Lemma stripped_amount_group (sp ds : string) :
  all_chars is_space sp = true ->
  all_chars is_amount_char ds = true ->
  stripped_amount ("R$" ++ sp ++ ds) = replace "," "." (replace "." "" ds).
Proof.
  intros Hsp Hds. unfold stripped_amount.
  assert (E : replace "R$" "" ("R$" ++ sp ++ ds) = (sp ++ ds)%string).
  { unfold replace. cbn [append replace_from startswith Ascii.eqb Bool.eqb
                           andb String.length Nat.sub].
    apply replace_currency_absent. rewrite all_chars_app.
    rewrite (all_chars_impl _ _ sp space_no_R Hsp).
    now rewrite (all_chars_impl _ _ ds amount_char_no_R Hds). }
  rewrite E.
  pose proof (all_chars_impl _ _ ds amount_char_no_space Hds) as N.
  destruct ds as [|c ds].
  - rewrite append_empty_r.
    assert (L : lstrip sp = EmptyString).
    { rewrite <- (append_empty_r sp) at 1. now rewrite lstrip_spaces. }
    unfold strip. now rewrite L.
  - unfold strip. rewrite (lstrip_spaces sp _ Hsp).
    now rewrite (lstrip_no_space _ N), (rstrip_no_space _ N).
Qed.

Lemma digit_is_amount_char (c : ascii) :
  is_digit c = true -> is_amount_char c = true.
Proof. by_char c. Qed.

Lemma digits_no_point (s : string) :
  all_chars is_digit s = true ->
  all_chars (fun c => negb (Ascii.eqb "."%char c)) s = true.
Proof.
  apply all_chars_impl. intros c C.
  destruct (digit_facts c C) as [_ [_ [_ [_ [P _]]]]]. now rewrite P.
Qed.

Lemma digits_no_comma (s : string) :
  all_chars is_digit s = true ->
  all_chars (fun c => negb (Ascii.eqb ","%char c)) s = true.
Proof.
  apply all_chars_impl. intros c C.
  destruct (digit_facts c C) as [_ [_ [_ [_ [_ [P _]]]]]]. now rewrite P.
Qed.




(** X15: an amount with two commas is not a number for [float] and is read as
    0.0. *)
Theorem two_commas_read_as_zero :
  forall sp a b c : string,
    all_chars is_space sp = true ->
    all_chars is_digit a = true -> all_chars is_digit b = true ->
    all_chars is_amount_char c = true ->
    clean_value
      (PStr ("R$" ++ sp ++ a ++ String ","%char (b ++ String ","%char c)))
    = Ok (Fin (qz 0)).
Proof.
  intros sp a b c Hsp Ha Hb Hc. rewrite clean_value_str.
  rewrite stripped_amount_group; [|exact Hsp|].
  2:{ rewrite all_chars_app. cbn [all_chars]. rewrite all_chars_app.
      cbn [all_chars].
      rewrite (all_chars_impl _ _ a digit_is_amount_char Ha).
      now rewrite (all_chars_impl _ _ b digit_is_amount_char Hb), Hc. }
  rewrite (replace_char_app "."%char "" a).
  rewrite (replace_char_cons "."%char "" ","%char _).
  cbn [Ascii.eqb Bool.eqb andb].
  rewrite (replace_char_app "."%char "" b).
  rewrite (replace_char_cons "."%char "" ","%char c).
  cbn [Ascii.eqb Bool.eqb andb].
  rewrite (replace_char_absent "."%char "" a (digits_no_point a Ha)).
  rewrite (replace_char_absent "."%char "" b (digits_no_point b Hb)).
  rewrite (replace_char_app ","%char "." a).
  rewrite (replace_char_cons ","%char "." ","%char _).
  cbn [Ascii.eqb Bool.eqb andb append].
  rewrite (replace_char_app ","%char "." b).
  rewrite (replace_char_cons ","%char "." ","%char _).
  cbn [Ascii.eqb Bool.eqb andb append].
  rewrite (replace_char_absent ","%char "." a (digits_no_comma a Ha)).
  rewrite (replace_char_absent ","%char "." b (digits_no_comma b Hb)).
  set (tail := replace "," "." (replace "." "" c)).
  assert (Htail : all_chars is_plain tail = true)
    by (now apply cleaned_amount_plain).
  set (text := (a ++ String "."%char (b ++ String "."%char tail))%string).
  assert (P : all_chars is_plain text = true).
  { unfold text. rewrite all_chars_app. cbn [all_chars]. rewrite all_chars_app.
    cbn [all_chars].
    rewrite (all_chars_impl is_digit is_plain a), (all_chars_impl is_digit is_plain b),
      Htail; auto; intros x X; apply (digit_facts x X). }
  assert (F : py_float_str text = None).
  { unfold py_float_str.
    rewrite (float_strip_no_space text (all_chars_impl _ _ text plain_no_space P)).
    rewrite (drop_underscores_none None text eq_refl P), (read_sign_plain text P).
    destruct (plain_not_a_word text P) as [-> ->].
    unfold parse_decimal, text.
    rewrite (span_until is_digit a "."%char _ Ha eq_refl).
    rewrite (span_until is_digit b "."%char _ Hb eq_refl).
    destruct (String.length a + String.length b =? 0)%nat; reflexivity. }
  now rewrite F.
Qed.

Lemma two_commas_read_as_zero_witness :
  clean_value (PStr ("R$" ++ " " ++ "1" ++ String ","%char ("2" ++ String ","%char "3")))
  = Ok (Fin (qz 0)).
Proof.
  apply (two_commas_read_as_zero " " "1" "2" "3"); reflexivity.
Defined.

(** ** From the text to the analysis table *)

Lemma qsum_nonneg (l : list fval) :
  Forall nonneg_number l -> (0 <= qsum l)%Qc.
Proof.
  induction 1 as [|x l [q [-> Hq]] _ IH]; simpl.
  - apply Qcle_refl.
  - replace 0%Qc with (0 + 0)%Qc by ring. now apply Qcplus_le_compat.
Qed.

Lemma nonneg_not_negative (x : fval) : nonneg_number x -> not_negative x.
Proof.
  intros [q [-> Hq]]. split; [reflexivity|].
  simpl. apply Qc_ltb_false. now rewrite qz0.
Qed.

(** X16: whatever the text and the recommendation table: in every extracted
    row, and in every row of the analysis of the extracted portfolio, the
    quote and the position are neither NaN nor negative, and neither is
    the total position value. *)
Theorem extracted_portfolio_is_well_formed :
  forall (text : string) (reco_df : list RecoRow),
    (forall h, In h (process_portfolio_text text) ->
       not_negative (h_Ultima_Cotacao h) /\ not_negative (h_Posicao h))
    /\ (forall a, In a (analysis_df (process_portfolio_text text) reco_df) ->
          not_negative (Ultima_Cotacao a) /\ not_negative (Posicao a))
    /\ not_negative
         (fsum (map Posicao (analysis_df (process_portfolio_text text) reco_df))).
Proof.
  intros text reco_df.
  assert (H : forall h, In h (process_portfolio_text text) ->
             nonneg_number (h_Ultima_Cotacao h) /\ nonneg_number (h_Posicao h)).
  { intros h Hh.
    destruct (extracted_values_nonnegative text h Hh) as [q [p [Eq [Hq0 [Ep Hp0]]]]].
    rewrite Eq, Ep. split; [exists q|exists p]; auto. }
  assert (R : forall a,
             In a (analysis_df (process_portfolio_text text) reco_df) ->
             nonneg_number (Ultima_Cotacao a) /\ nonneg_number (Posicao a)).
  { intros a Ha. apply in_analysis_df in Ha.
    destruct Ha as [h [m [Hh [Hm ->]]]].
    destruct (merge_one_ticker reco_df h m Hm) as [_ [Hq Hp]].
    unfold analysis_row. cbn [Ultima_Cotacao Posicao]. rewrite Hq, Hp.
    exact (H h Hh). }
  split.
  { intros h Hh. destruct (H h Hh).
    split; now apply nonneg_not_negative. }
  split.
  { intros a Ha. destruct (R a Ha).
    split; now apply nonneg_not_negative. }
  set (df := analysis_df (process_portfolio_text text) reco_df) in *.
  assert (F : Forall nonneg_number (map Posicao df)).
  { apply Forall_forall. intros x Hx. apply in_map_iff in Hx.
    destruct Hx as [a [<- Ha]]. apply (R a Ha). }
  apply nonneg_not_negative. exists (qsum (map Posicao df)). split.
  - apply fsum_of_fin_or_nan. eapply Forall_impl; [|exact F].
    intros x [q [-> _]]. exact I.
  - now apply qsum_nonneg.
Qed.

(** * The narrative over binary64 *)

(** ** Binary64 numbers and their text *)

Lemma exact_35 : exact 35 = Fin (qz 35).
Proof. vm_compute. same_values. Qed.

Lemma exact_0 : exact 0 = Fin (qz 0).
Proof. vm_compute. same_values. Qed.

Lemma Q2Qc_pos (q : Q) : (0 < q)%Q -> (0 < Q2Qc q)%Qc.
Proof.
  intro H. change (0 < Qred q)%Q. now rewrite Qred_correct.
Qed.

(** A finite binary64 number that is not a zero is negative exactly when
    its sign bit is set. *)
Lemma exact_sign (x : float) (q : Qc) :
  exact x = Fin q ->
  Qc_is_zero q = false ->
  Qc_ltb q (qz 0) = sign_bit x.
Proof.
  unfold exact, sign_bit.
  destruct (Prim2SF x) as [s|s| |s m e]; try discriminate.
  - intros E Z. apply (f_equal fin_part) in E. simpl in E. subst q.
    discriminate Z.
  - destruct s; discriminate.
  - intros E _. apply (f_equal fin_part) in E. cbn [fin_part] in E. subst q.
    set (v := if (0 <=? e)%Z then qz (Z.pos m * 2 ^ e)
              else Q2Qc (Z.pos m # Z.to_pos (2 ^ (- e)))).
    assert (P : (0 < v)%Qc).
    { unfold v. destruct (0 <=? e)%Z eqn:E.
      - apply qz_pos. apply Z.leb_le in E.
        apply Z.mul_pos_pos; [lia|]. now apply Z.pow_pos_nonneg.
      - apply Q2Qc_pos. unfold Qlt. simpl. lia. }
    rewrite qz0. destruct s.
    + apply Qc_ltb_true. apply Qclt_minus_iff.
      now replace (0 + - - v)%Qc with v by ring.
    + apply Qc_ltb_false. now apply Qclt_le_weak.
Qed.

Lemma round_half_even_tie (q : Q) :
  (Qabs (inject_Z (round_half_even q) - q) == 1 # 2)%Q ->
  Z.even (round_half_even q) = true.
Proof.
  unfold round_half_even.
  pose proof (Qfloor_le q) as L. pose proof (Qlt_floor q) as U.
  rewrite inject_Z_plus in U. change (inject_Z 1) with 1%Q in U.
  destruct (Qcompare_spec (q - inject_Z (Qfloor q)) (1 # 2)) as [E|E|E].
  - destruct (Z.even (Qfloor q)) eqn:V; [intros _; exact V|].
    intros _. rewrite Z.even_add, V. reflexivity.
  - intro H. exfalso.
    set (f := inject_Z (Qfloor q)) in *.
    rewrite Qabs_neg in H by lra. lra.
  - intro H. exfalso.
    rewrite inject_Z_plus in H. change (inject_Z 1) with 1%Q in H.
    set (f := inject_Z (Qfloor q)) in *.
    rewrite Qabs_pos in H by lra. lra.
Qed.

Lemma pad_one_digit (m : Z) :
  (0 <= m < 10)%Z ->
  all_chars is_digit (pad_digits 1 m) = true
  /\ String.length (pad_digits 1 m) = 1%nat
  /\ digits_value 0 (pad_digits 1 m) = Z.to_N m.
Proof.
  intro H.
  assert (T : forallb one_digit_ok (seq 0 10) = true) by (vm_compute; reflexivity).
  rewrite forallb_forall in T. specialize (T (Z.to_nat m)).
  assert (I : In (Z.to_nat m) (seq 0 10)) by (apply in_seq; lia).
  specialize (T I). unfold one_digit_ok in T.
  rewrite Z2Nat.id in T by lia.
  apply andb_prop in T. destruct T as [T V].
  apply andb_prop in T. destruct T as [D L].
  apply Nat.eqb_eq in L. apply N.eqb_eq in V.
  repeat split; [exact D|exact L|]. rewrite V. lia.
Qed.

Lemma Z_to_string_normal (z : Z) :
  Z_to_string z = "0" \/ startswith "0" (Z_to_string z) = false.
Proof.
  unfold Z_to_string. set (n := Z.to_N z).
  assert (E : N.to_uint n = Decimal.unorm (N.to_uint n)).
  { rewrite <- (DecimalN.Unsigned.to_of (N.to_uint n)) at 1.
    now rewrite DecimalN.Unsigned.of_to. }
  unfold Decimal.unorm in E.
  pose proof (DecimalFacts.nzhead_nonzero (N.to_uint n)) as NZ.
  destruct (Decimal.nzhead (N.to_uint n)) as [|d|d|d|d|d|d|d|d|d|d];
    rewrite E; [left; reflexivity|exfalso; exact (NZ d eq_refl)|..];
    right; reflexivity.
Qed.

(** The digits [format_fixed] writes for a finite number. *)
Lemma format_fixed_digits (decimals : nat) (q : Qc) :
  decimals = 1%nat \/ decimals = 2%nat ->
  exists ip fp : string,
    format_fixed decimals (Fin q)
    = ((if Qc_ltb q (qz 0) then "-" else "") ++ ip ++ "." ++ fp)%string
    /\ ip <> EmptyString /\ all_chars is_digit ip = true
    /\ (ip = "0" \/ startswith "0" ip = false)
    /\ String.length fp = decimals /\ all_chars is_digit fp = true
    /\ Z.of_N (digits_value 0 (ip ++ fp))
       = round_half_even (Qabs q * inject_Z (10 ^ Z.of_nat decimals)).
Proof.
  intro D.
  set (unit := (10 ^ Z.of_nat decimals)%Z).
  set (n := round_half_even (Qabs q * inject_Z unit)).
  assert (Hu : (unit = 10 \/ unit = 100)%Z).
  { unfold unit. destruct D as [-> | ->]; [left|right]; reflexivity. }
  assert (Hn : (0 <= n)%Z).
  { apply round_half_even_nonneg. apply Qmult_le_0_compat; [apply Qabs_nonneg|].
    unfold Qle. simpl. lia. }
  destruct (Z_to_string_spec (n / unit)) as [Hi [Hne Hv]];
    [apply Z.div_pos; lia|].
  assert (Hp : all_chars is_digit (pad_digits decimals (n mod unit)) = true
               /\ String.length (pad_digits decimals (n mod unit)) = decimals
               /\ digits_value 0 (pad_digits decimals (n mod unit))
                  = Z.to_N (n mod unit)).
  { destruct D as [-> | ->].
    - apply pad_one_digit. apply Z.mod_pos_bound. unfold unit. simpl. lia.
    - apply pad_two_digits. apply Z.mod_pos_bound. unfold unit. simpl. lia. }
  destruct Hp as [Hf [Hl Hw]].
  exists (Z_to_string (n / unit)), (pad_digits decimals (n mod unit)).
  split.
  { unfold format_fixed. fold unit. fold n.
    destruct D as [-> | ->]; reflexivity. }
  split; [exact Hne|]. split; [exact Hi|].
  split; [apply Z_to_string_normal|]. split; [exact Hl|].
  split; [exact Hf|].
  rewrite digits_value_app, digits_value_shift, Hv, Hw, Hl.
  assert (Hpow : (10 ^ N.of_nat decimals)%N = Z.to_N unit).
  { unfold unit. destruct D as [-> | ->]; reflexivity. }
  rewrite Hpow.
  pose proof (Z.div_mod n unit) as DM.
  pose proof (Z.mod_pos_bound n unit) as MB.
  pose proof (Z.div_pos n unit) as DP.
  rewrite N2Z.inj_add, N2Z.inj_mul, !Z2N.id by lia.
  rewrite (Z.mul_comm (n / unit) unit). symmetry. apply DM. lia.
Qed.

(** [format_float] prints the number rounded half to even. *)
Lemma format_float_rounds (decimals : nat) (x : float) :
  decimals = 1%nat \/ decimals = 2%nat ->
  shows_rounded decimals x (format_float decimals x).
Proof.
  intro D. unfold shows_rounded, format_float.
  destruct (exact x) as [q| | |] eqn:E; try reflexivity.
  destruct (format_fixed_digits decimals q D)
    as [ip [fp [F [Hne [Hi [Hz [Hl [Hf Hv]]]]]]]].
  exists ip, fp.
  split.
  { rewrite F. destruct (Qc_is_zero q) eqn:Z.
    - apply Qc_is_zero_true in Z. subst q.
      change (Qc_ltb (qz 0) (qz 0)) with false.
      destruct (sign_bit x); reflexivity.
    - rewrite (exact_sign x q E Z). reflexivity. }
  split; [exact Hne|]. split; [exact Hi|]. split; [exact Hz|].
  split; [exact Hl|]. split; [exact Hf|].
  cbv zeta. rewrite Hv. split.
  - apply round_half_even_near.
  - apply round_half_even_tie.
Qed.

(** ** The text as a sequence of blocks *)

Lemma fold_left_append {A : Type} (f : A -> string) (l : list A) (init : string) :
  fold_left (fun text x => (text ++ f x)%string) l init
  = (init ++ String.concat "" (map f l))%string.
Proof.
  revert init. induction l as [|x l IH]; intro init.
  - simpl. now rewrite append_empty_r.
  - cbn [fold_left map]. rewrite IH, concat_cons. apply append_assoc.
Qed.

Lemma fold_left_append_if {A : Type} (c : A -> bool) (f : A -> string)
      (l : list A) (init : string) :
  fold_left (fun text x => if c x then (text ++ f x)%string else text) l init
  = (init ++ String.concat "" (map f (filter c l)))%string.
Proof.
  revert init. induction l as [|x l IH]; intro init.
  - simpl. now rewrite append_empty_r.
  - cbn [fold_left map filter]. rewrite IH. destruct (c x); [|reflexivity].
    cbn [map]. rewrite concat_cons. apply append_assoc.
Qed.

Lemma filter_perm {A : Type} (f : A -> bool) (l l' : list A) :
  Permutation l l' -> Permutation (filter f l) (filter f l').
Proof.
  induction 1 as [|x l l' _ IH|x y l|l l' l'' _ IH1 _ IH2]; simpl.
  - constructor.
  - destruct (f x); [now constructor|exact IH].
  - destruct (f x), (f y); try reflexivity. apply perm_swap.
  - now transitivity (filter f l').
Qed.

Lemma filter_twice {A : Type} (f g : A -> bool) (l : list A) :
  filter f (filter g l) = filter (fun x => g x && f x) l.
Proof.
  induction l as [|x l IH]; simpl; [reflexivity|].
  destruct (g x); simpl; [destruct (f x)|]; now rewrite IH.
Qed.

Section Binary64Facts.
Variables series_sum group_sum : list float -> float.
Variable sort_sums : list (string * float) -> list (string * float).
Variable sort_rows : list Row64 -> list Row64.

Local Notation "'narrative'" :=
  (generate_recommendation_text64 series_sum group_sum sort_sums sort_rows).
Local Notation "'percents'" := (sector_percent64 series_sum group_sum sort_sums).
Local Notation "'sums'" := (sector_allocation64 group_sum sort_sums).
Local Notation "'compra_rows'" := (compra_rows64 sort_rows).

(** The text the function returns, block by block. *)
Lemma narrative_text (df : list Row64) :
  narrative df
  = match firstn 3 (percents df) with
    | [] => Raise (IndexError "single positional indexer is out-of-bounds")
    | largest :: _ =>
        Ok (opening_text ++ allocation_text (firstn 3 (percents df))
            ++ remark_text largest ++ nl
            ++ buy_text (compra_rows df) ++ nl
            ++ attention_text (reavaliar_rows64 df) ++ nl
            ++ closing_text)%string
    end.
Proof.
  unfold generate_recommendation_text64. cbv zeta.
  rewrite (fold_left_append allocation_line_text).
  destruct (firstn 3 (percents df)) as [|largest rest]; [reflexivity|].
  unfold iloc0, bind. f_equal.
  set (alloc := allocation_text (largest :: rest)).
  assert (B : forall init,
             match compra_rows df with
             | [] => init
             | _ =>
                 fold_left
                   (fun text row =>
                      if float_gt (Potencial64 row) 0
                      then (text ++ buy_line_text row)%string
                      else text)
                   (compra_rows df)
                   (init
                    ++ "👍 **Pontos Fortes e Oportunidades (Recomendação de Compra):**"
                    ++ nl)%string
             end
             = (init ++ buy_text (compra_rows df))%string).
  { intro init. unfold buy_text.
    destruct (compra_rows df) as [|r rows]; [now rewrite append_empty_r|].
    rewrite (fold_left_append_if (fun row => float_gt (Potencial64 row) 0)
               buy_line_text).
    now rewrite !append_assoc. }
  assert (T : forall init,
             match reavaliar_rows64 df with
             | [] => init
             | _ =>
                 fold_left
                   (fun text row => (text ++ attention_line_text row)%string)
                   (reavaliar_rows64 df)
                   (init
                    ++ "⚠️ **Pontos de Atenção (Recomendação Neutra ou Venda):**"
                    ++ nl)%string
             end
             = (init ++ attention_text (reavaliar_rows64 df))%string).
  { intro init. unfold attention_text.
    destruct (reavaliar_rows64 df) as [|r rows]; [now rewrite append_empty_r|].
    rewrite (fold_left_append attention_line_text).
    now rewrite !append_assoc. }
  unfold buy_line_text, attention_line_text in B, T.
  rewrite T, B.
  unfold remark_text, opening_text, closing_text.
  destruct (float_gt (snd largest) 35); now rewrite !append_assoc.
Qed.

(** ** The sector sums *)

Hypothesis sort_sums_perm : forall s, Permutation (sort_sums s) s.
Hypothesis sort_sums_sorted :
  forall s, StronglySorted (fun a b => by_sum a b = true) (sort_sums s).
Hypothesis sort_rows_perm : forall df, Permutation (sort_rows df) df.
Hypothesis sort_rows_sorted :
  forall df,
    StronglySorted (fun a b => by_potencial64 a b = true) (sort_rows df).

Lemma group_keys64_in (df : list Row64) (s : string) :
  In s (group_keys64 df) <-> In s (map Setor64 df).
Proof.
  unfold group_keys64. rewrite sort_by_in. apply nodup_In.
Qed.

Lemma group_keys64_nodup (df : list Row64) : NoDup (group_keys64 df).
Proof.
  unfold group_keys64.
  apply (Permutation_NoDup (sort_by_perm String.leb _)), NoDup_nodup.
Qed.

Lemma sums_in (df : list Row64) (s : string) (v : float) :
  In (s, v) (sums df)
  <-> In s (map Setor64 df)
      /\ v = group_sum
               (map Posicao64 (filter (fun r => String.eqb (Setor64 r) s) df)).
Proof.
  unfold sector_allocation64.
  assert (P : In (s, v) (sort_sums (groupby_sum64 group_sum df))
              <-> In (s, v) (groupby_sum64 group_sum df)).
  { split; apply Permutation_in;
      [apply sort_sums_perm|apply Permutation_sym, sort_sums_perm]. }
  rewrite P. unfold groupby_sum64.
  rewrite in_map_iff. split.
  - intros [k [E Hk]]. inversion E. subst.
    split; [now apply group_keys64_in|reflexivity].
  - intros [Hs ->]. exists s. split; [reflexivity|now apply group_keys64_in].
Qed.

Lemma sums_keys (df : list Row64) :
  Permutation (map fst (sums df)) (group_keys64 df).
Proof.
  unfold sector_allocation64.
  rewrite (sort_sums_perm (groupby_sum64 group_sum df)).
  unfold groupby_sum64. rewrite map_map. simpl. now rewrite map_id.
Qed.

Lemma desc_before_not_gt (x y : fval) :
  desc_before x y = true -> fgt y x = false.
Proof.
  unfold desc_before. destruct y as [b| | |], x as [a| | |]; simpl;
    try reflexivity; try discriminate; intro H;
    now apply negb_true_iff in H.
Qed.

Lemma fgt_irrefl (x : fval) : fgt x x = false.
Proof.
  destruct x as [a| | |]; try reflexivity. simpl.
  apply Qc_ltb_false, Qcle_refl.
Qed.

Lemma sums_nonempty (df : list Row64) : df <> [] -> sums df <> [].
Proof.
  destruct df as [|r df]; [congruence|]. intros _ E.
  assert (H : In (Setor64 r) (map fst (sums (r :: df)))).
  { apply (Permutation_in _ (Permutation_sym (sums_keys (r :: df)))).
    apply group_keys64_in. now left. }
  rewrite E in H. exact H.
Qed.

(** On a table with rows the function returns, and the first sector is
    the one the remark is about. *)
Lemma narrative_largest (df : list Row64) :
  df <> [] ->
  exists sector sum others,
    sums df = (sector, sum) :: others
    /\ firstn 3 (percents df)
       = (sector, (sum / series_sum (map Posicao64 df) * 100)%float)
         :: firstn 2 (map (fun kv =>
                             (fst kv,
                              (snd kv / series_sum (map Posicao64 df) * 100)%float))
                          others)
    /\ narrative df
       = Ok (opening_text ++ allocation_text (firstn 3 (percents df))
             ++ remark_text
                  (sector, (sum / series_sum (map Posicao64 df) * 100)%float)
             ++ nl
             ++ buy_text (compra_rows df) ++ nl
             ++ attention_text (reavaliar_rows64 df) ++ nl
             ++ closing_text)%string.
Proof.
  intro N. apply sums_nonempty in N.
  rewrite narrative_text. unfold sector_percent64.
  destruct (sums df) as [|[sector sum] others]; [congruence|].
  cbn [map firstn fst snd]. exists sector, sum, others.
  split; [reflexivity|]. split; reflexivity.
Qed.

(** C8: in the text the function returns, the concentration remark comes
    right after the allocation lines, or not at all.  It names the sector
    whose sum of positions comes first in descending order, so that no
    sector has a larger sum, and it is there exactly when the percentage
    computed for that sector, its sum divided by the total and multiplied
    by 100 in binary64, is above 35. *)
Theorem concentration_remark_iff :
  forall (df : list Row64),
    df <> [] ->
    exists (sector : string) (sum : float) (others : list (string * float)),
      sums df = (sector, sum) :: others
      /\ In sector (map Setor64 df)
      /\ sum = group_sum
                 (map Posicao64
                      (filter (fun r => String.eqb (Setor64 r) sector) df))
      /\ (forall s v, In (s, v) (sums df) -> fgt (exact v) (exact sum) = false)
      /\ narrative df
         = Ok (opening_text ++ allocation_text (firstn 3 (percents df))
               ++ (if fgt (exact (sum / series_sum (map Posicao64 df) * 100)%float)
                          (Fin (qz 35))
                   then
                     nl
                     ++ "Sua carteira apresenta uma concentração um pouco maior no setor de **"
                     ++ sector
                     ++ "**. Podemos avaliar estratégias para diversificar e mitigar riscos, se estiver de acordo com seu perfil."
                     ++ nl
                   else "")
               ++ nl
               ++ buy_text (compra_rows df) ++ nl
               ++ attention_text (reavaliar_rows64 df) ++ nl
               ++ closing_text)%string.
Proof.
  intros df N.
  destruct (narrative_largest df N) as [sector [sum [others [S [_ T]]]]].
  exists sector, sum, others.
  assert (I : In (sector, sum) (sums df)) by (rewrite S; now left).
  apply sums_in in I. destruct I as [I1 I2].
  split; [exact S|]. split; [exact I1|]. split; [exact I2|]. split.
  - intros s v Hv.
    pose proof (sort_sums_sorted (groupby_sum64 group_sum df)) as Sd.
    fold (sums df) in Sd. rewrite S in *.
    destruct Hv as [E|Hv].
    + inversion E. apply fgt_irrefl.
    + inversion Sd as [|? ? _ Hall]; subst.
      rewrite Forall_forall in Hall.
      exact (desc_before_not_gt _ _ (Hall (s, v) Hv)).
  - rewrite T. unfold remark_text, float_gt. cbn [fst snd].
    now rewrite exact_35.
Qed.

(** ** The buy block *)

Lemma compra_rows_label (df : list Row64) (row : Row64) :
  In row (compra_rows df)
  <-> In row df /\ Recomendacao64 row = Some "Compra".
Proof.
  unfold compra_rows64.
  assert (P : forall l, In row (sort_rows l) <-> In row l).
  { intro l. split; apply Permutation_in;
      [apply sort_rows_perm|apply Permutation_sym, sort_rows_perm]. }
  rewrite P, filter_In. now rewrite label_is_true.
Qed.

Lemma compra_rows_none (df : list Row64) :
  compra_rows df = []
  <-> forall r, In r df -> Recomendacao64 r <> Some "Compra".
Proof.
  split.
  - intros E r Hr Hc.
    assert (H : In r (compra_rows df)) by (apply compra_rows_label; auto).
    rewrite E in H. exact H.
  - intro H. destruct (compra_rows df) as [|r rows] eqn:E; [reflexivity|].
    assert (Hr : In r (compra_rows df)) by (rewrite E; now left).
    apply compra_rows_label in Hr. destruct Hr as [Hin Hc].
    exfalso. exact (H r Hin Hc).
Qed.

(** C9: the rows labelled "Compra", ordered by descending upside, make the
    buy block: it stands between the blank line that follows the
    allocation block and the blank line before the attention block; it is
    empty when no row is labelled "Compra"; otherwise it is the header
    followed by one line for each of these rows whose upside is above 0,
    in that order.  A line shows the ticker, the sector, the upside and
    the target price, the two numbers rounded half to even at two decimal
    places. *)
Theorem buy_block_spec :
  forall (df : list Row64),
    df <> [] ->
    let compra_df := compra_rows df in
    let printed :=
      filter (fun row => fgt (exact (Potencial64 row)) (Fin (qz 0)))
             compra_df in
    (compra_df = []
     <-> forall r, In r df -> Recomendacao64 r <> Some "Compra")
    /\ Permutation printed
         (filter (fun row =>
                    match Recomendacao64 row with
                    | Some label =>
                        String.eqb label "Compra"
                        && fgt (exact (Potencial64 row)) (Fin (qz 0))
                    | None => false
                    end)
                 df)
    /\ StronglySorted
         (fun a b =>
            desc_before (exact (Potencial64 a)) (exact (Potencial64 b)) = true)
         printed
    /\ (exists largest,
          iloc0 (firstn 3 (percents df)) = Ok largest
          /\ narrative df
             = Ok
               (opening_text ++ allocation_text (firstn 3 (percents df))
                ++ remark_text largest ++ nl
                ++ match compra_df with
                   | [] => ""
                   | _ =>
                       "👍 **Pontos Fortes e Oportunidades (Recomendação de Compra):**"
                       ++ nl
                       ++ String.concat ""
                            (map (fun row =>
                                    "- **" ++ Ticker64 row ++ " ("
                                    ++ Setor64 row
                                    ++ "):** Mantemos uma visão positiva para o ativo, com um potencial de valorização de **"
                                    ++ format_float 2 (Potencial64 row)
                                    ++ "%** em relação ao nosso preço-alvo de R$ "
                                    ++ format_float 2 (Preco_Alvo64 row)
                                    ++ "." ++ nl)
                                 printed)
                   end
                ++ nl
                ++ attention_text (reavaliar_rows64 df) ++ nl
                ++ closing_text)%string)
    /\ (forall x : float, shows_rounded 2 x (format_float 2 x)).
Proof.
  intros df N compra_df printed. subst compra_df printed.
  split; [apply compra_rows_none|].
  split.
  { unfold compra_rows64.
    rewrite (filter_perm _ _ _ (sort_rows_perm _)), filter_twice.
    erewrite filter_ext; [reflexivity|].
    intro r. unfold label_is. now destruct (Recomendacao64 r). }
  split.
  { apply StronglySorted_filter. apply sort_rows_sorted. }
  split.
  - destruct (narrative_largest df N) as [sector [sum [others [_ [F T]]]]].
    rewrite T, F. eexists. split; [reflexivity|].
    unfold buy_text, float_gt. rewrite exact_0. reflexivity.
  - intro x. apply format_float_rounds. now right.
Qed.

(** ** The allocation lines *)

(** X10: after the header of the allocation block the text has one line
    for each of the first three sectors, all of them when there are fewer,
    in descending order of their sums of positions.  A line shows the
    sector and its percentage, the sum of the sector divided by the total
    and multiplied by 100 in binary64, rounded half to even at one decimal
    place. *)
Theorem allocation_lines_top3 :
  forall (df : list Row64),
    df <> [] ->
    let total_value := series_sum (map Posicao64 df) in
    let top_sectors :=
      map (fun kv => (fst kv, (snd kv / total_value * 100)%float))
          (firstn 3 (sums df)) in
    List.length top_sectors
    = Nat.min 3 (List.length (nodup string_dec (map Setor64 df)))
    /\ NoDup (map fst (sums df))
    /\ (forall s v,
          In (s, v) (sums df)
          <-> In s (map Setor64 df)
              /\ v = group_sum
                       (map Posicao64
                            (filter (fun r => String.eqb (Setor64 r) s) df)))
    /\ StronglySorted
         (fun a b => desc_before (exact (snd a)) (exact (snd b)) = true)
         (sums df)
    /\ (exists largest,
          iloc0 top_sectors = Ok largest
          /\ narrative df
             = Ok
               ("Olá! Tudo bem?" ++ nl ++ nl
                ++ "Fiz uma análise da sua carteira de investimentos com base nas nossas recomendações mais recentes e na alocação atual. Seguem os principais pontos:"
                ++ nl ++ nl
                ++ "📊 **Alocação Setorial:**" ++ nl
                ++ String.concat ""
                     (map (fun kv =>
                             "- **" ++ fst kv ++ ":** "
                             ++ format_float 1 (snd kv) ++ "%" ++ nl)
                          top_sectors)
                ++ remark_text largest ++ nl
                ++ buy_text (compra_rows df) ++ nl
                ++ attention_text (reavaliar_rows64 df) ++ nl
                ++ closing_text)%string)
    /\ (forall x : float, shows_rounded 1 x (format_float 1 x)).
Proof.
  intros df N total_value top_sectors.
  assert (E : top_sectors = firstn 3 (percents df)).
  { unfold top_sectors, sector_percent64. fold total_value.
    symmetry. apply firstn_map. }
  split.
  { unfold top_sectors. rewrite length_map, length_firstn.
    f_equal. rewrite <- (length_map fst).
    rewrite (Permutation_length (sums_keys df)). unfold group_keys64.
    apply sort_by_length. }
  split.
  { apply (Permutation_NoDup (Permutation_sym (sums_keys df))).
    apply group_keys64_nodup. }
  split; [apply sums_in|]. split; [apply sort_sums_sorted|]. split.
  - rewrite E.
    destruct (narrative_largest df N) as [sector [sum [others [_ [F T]]]]].
    rewrite T, F. eexists. split; [reflexivity|].
    unfold opening_text. now rewrite !append_assoc.
  - intro x. apply format_float_rounds. now left.
Qed.

(** ** The attention block *)

(** X11: the rows labelled "Neutro" or "Venda", in the order of the table,
    make the attention block: it stands between the blank line that
    follows the buy block and the blank line before the closing; it is
    empty when there is no such row; otherwise it is the header followed
    by one line for each of these rows, showing its ticker, its sector
    and its label. *)
Theorem attention_block_spec :
  forall (df : list Row64),
    df <> [] ->
    let reavaliar_df :=
      filter (fun r =>
                match Recomendacao64 r with
                | Some label =>
                    String.eqb label "Neutro" || String.eqb label "Venda"
                | None => false
                end) df in
    exists largest,
      iloc0 (firstn 3 (percents df)) = Ok largest
      /\ narrative df
         = Ok
           (opening_text ++ allocation_text (firstn 3 (percents df))
            ++ remark_text largest ++ nl
            ++ buy_text (compra_rows df) ++ nl
            ++ match reavaliar_df with
               | [] => ""
               | _ =>
                   "⚠️ **Pontos de Atenção (Recomendação Neutra ou Venda):**"
                   ++ nl
                   ++ String.concat ""
                        (map (fun row =>
                                "- **" ++ Ticker64 row ++ " (" ++ Setor64 row
                                ++ "):** Nossa recomendação atual é **"
                                ++ match Recomendacao64 row with
                                   | Some label => label
                                   | None => "nan"
                                   end
                                ++ "**. Seria interessante conversarmos sobre a possibilidade de realocar essa posição para ativos com maior potencial de crescimento no setor ou em outros setores estratégicos."
                                ++ nl)
                             reavaliar_df)
               end
            ++ nl ++ closing_text)%string.
Proof.
  intros df N reavaliar_df.
  assert (E : reavaliar_df = reavaliar_rows64 df).
  { unfold reavaliar_df, reavaliar_rows64. apply filter_ext. intro r.
    unfold label_isin, label_is. cbn [existsb].
    destruct (Recomendacao64 r); [now rewrite orb_false_r|reflexivity]. }
  rewrite E.
  destruct (narrative_largest df N) as [sector [sum [others [_ [F T]]]]].
  rewrite T, F. eexists. split; reflexivity.
Qed.

End Binary64Facts.
(** ** The sample tables *)

Lemma stable_sort_sums_perm (s : list (string * float)) :
  Permutation (stable_sort_sums s) s.
Proof. symmetry. apply sort_by_perm. Qed.

Lemma stable_sort_sums_sorted (s : list (string * float)) :
  StronglySorted (fun a b => by_sum a b = true) (stable_sort_sums s).
Proof.
  apply sort_by_sorted.
  - intros x y. apply desc_before_total.
  - intros x y z. apply desc_before_trans.
Qed.

Lemma stable_sort_rows_perm (df : list Row64) :
  Permutation (stable_sort_rows df) df.
Proof. symmetry. apply sort_by_perm. Qed.

Lemma stable_sort_rows_sorted (df : list Row64) :
  StronglySorted (fun a b => by_potencial64 a b = true) (stable_sort_rows df).
Proof.
  apply sort_by_sorted.
  - intros x y. apply desc_before_total.
  - intros x y z. apply desc_before_trans.
Qed.

(** With 400 of 1000 in sector "X", the text has the remark and names
    "X". *)
Lemma sample_rows_text : narrative64 sample_rows = Ok sample_narrative.
Proof. vm_compute. reflexivity. Qed.

Lemma concentration_remark_iff_witness :
    exists (sector : string) (sum : float) (others : list (string * float)),
      sector_allocation64 sequential_sum stable_sort_sums sample_rows = (sector, sum) :: others
      /\ In sector (map Setor64 sample_rows)
      /\ sum = sequential_sum
                 (map Posicao64
                      (filter (fun r => String.eqb (Setor64 r) sector) sample_rows))
      /\ (forall s v, In (s, v) (sector_allocation64 sequential_sum stable_sort_sums sample_rows) -> fgt (exact v) (exact sum) = false)
      /\ narrative64 sample_rows
         = Ok (opening_text ++ allocation_text (firstn 3 (sector_percent64 sequential_sum sequential_sum stable_sort_sums sample_rows))
               ++ (if fgt (exact (sum / sequential_sum (map Posicao64 sample_rows) * 100)%float)
                          (Fin (qz 35))
                   then
                     nl
                     ++ "Sua carteira apresenta uma concentração um pouco maior no setor de **"
                     ++ sector
                     ++ "**. Podemos avaliar estratégias para diversificar e mitigar riscos, se estiver de acordo com seu perfil."
                     ++ nl
                   else "")
               ++ nl
               ++ buy_text (compra_rows64 stable_sort_rows sample_rows) ++ nl
               ++ attention_text (reavaliar_rows64 sample_rows) ++ nl
               ++ closing_text)%string.
Proof.
  apply (concentration_remark_iff sequential_sum sequential_sum stable_sort_sums
           stable_sort_rows stable_sort_sums_perm stable_sort_sums_sorted sample_rows).
  discriminate.
Defined.

Lemma buy_block_spec_witness :
    let compra_df := compra_rows64 stable_sort_rows sample_rows in
    let printed :=
      filter (fun row => fgt (exact (Potencial64 row)) (Fin (qz 0)))
             compra_df in
    (compra_df = []
     <-> forall r, In r sample_rows -> Recomendacao64 r <> Some "Compra")
    /\ Permutation printed
         (filter (fun row =>
                    match Recomendacao64 row with
                    | Some label =>
                        String.eqb label "Compra"
                        && fgt (exact (Potencial64 row)) (Fin (qz 0))
                    | None => false
                    end)
                 sample_rows)
    /\ StronglySorted
         (fun a b =>
            desc_before (exact (Potencial64 a)) (exact (Potencial64 b)) = true)
         printed
    /\ (exists largest,
          iloc0 (firstn 3 (sector_percent64 sequential_sum sequential_sum stable_sort_sums sample_rows)) = Ok largest
          /\ narrative64 sample_rows
             = Ok
               (opening_text ++ allocation_text (firstn 3 (sector_percent64 sequential_sum sequential_sum stable_sort_sums sample_rows))
                ++ remark_text largest ++ nl
                ++ match compra_df with
                   | [] => ""
                   | _ =>
                       "👍 **Pontos Fortes e Oportunidades (Recomendação de Compra):**"
                       ++ nl
                       ++ String.concat ""
                            (map (fun row =>
                                    "- **" ++ Ticker64 row ++ " ("
                                    ++ Setor64 row
                                    ++ "):** Mantemos uma visão positiva para o ativo, com um potencial de valorização de **"
                                    ++ format_float 2 (Potencial64 row)
                                    ++ "%** em relação ao nosso preço-alvo de R$ "
                                    ++ format_float 2 (Preco_Alvo64 row)
                                    ++ "." ++ nl)
                                 printed)
                   end
                ++ nl
                ++ attention_text (reavaliar_rows64 sample_rows) ++ nl
                ++ closing_text)%string)
    /\ (forall x : float, shows_rounded 2 x (format_float 2 x)).
Proof.
  apply (buy_block_spec sequential_sum sequential_sum stable_sort_sums
           stable_sort_rows stable_sort_sums_perm stable_sort_rows_perm
           stable_sort_rows_sorted sample_rows).
  discriminate.
Defined.

Lemma allocation_lines_top3_witness :
    let total_value := sequential_sum (map Posicao64 sample_rows) in
    let top_sectors :=
      map (fun kv => (fst kv, (snd kv / total_value * 100)%float))
          (firstn 3 (sector_allocation64 sequential_sum stable_sort_sums sample_rows)) in
    List.length top_sectors
    = Nat.min 3 (List.length (nodup string_dec (map Setor64 sample_rows)))
    /\ NoDup (map fst (sector_allocation64 sequential_sum stable_sort_sums sample_rows))
    /\ (forall s v,
          In (s, v) (sector_allocation64 sequential_sum stable_sort_sums sample_rows)
          <-> In s (map Setor64 sample_rows)
              /\ v = sequential_sum
                       (map Posicao64
                            (filter (fun r => String.eqb (Setor64 r) s) sample_rows)))
    /\ StronglySorted
         (fun a b => desc_before (exact (snd a)) (exact (snd b)) = true)
         (sector_allocation64 sequential_sum stable_sort_sums sample_rows)
    /\ (exists largest,
          iloc0 top_sectors = Ok largest
          /\ narrative64 sample_rows
             = Ok
               ("Olá! Tudo bem?" ++ nl ++ nl
                ++ "Fiz uma análise da sua carteira de investimentos com base nas nossas recomendações mais recentes e na alocação atual. Seguem os principais pontos:"
                ++ nl ++ nl
                ++ "📊 **Alocação Setorial:**" ++ nl
                ++ String.concat ""
                     (map (fun kv =>
                             "- **" ++ fst kv ++ ":** "
                             ++ format_float 1 (snd kv) ++ "%" ++ nl)
                          top_sectors)
                ++ remark_text largest ++ nl
                ++ buy_text (compra_rows64 stable_sort_rows sample_rows) ++ nl
                ++ attention_text (reavaliar_rows64 sample_rows) ++ nl
                ++ closing_text)%string)
    /\ (forall x : float, shows_rounded 1 x (format_float 1 x)).
Proof.
  apply (allocation_lines_top3 sequential_sum sequential_sum stable_sort_sums
           stable_sort_rows stable_sort_sums_perm stable_sort_sums_sorted sample_rows).
  discriminate.
Defined.

Lemma attention_block_spec_witness :
    let reavaliar_df :=
      filter (fun r =>
                match Recomendacao64 r with
                | Some label =>
                    String.eqb label "Neutro" || String.eqb label "Venda"
                | None => false
                end) sample_rows in
    exists largest,
      iloc0 (firstn 3 (sector_percent64 sequential_sum sequential_sum stable_sort_sums sample_rows)) = Ok largest
      /\ narrative64 sample_rows
         = Ok
           (opening_text ++ allocation_text (firstn 3 (sector_percent64 sequential_sum sequential_sum stable_sort_sums sample_rows))
            ++ remark_text largest ++ nl
            ++ buy_text (compra_rows64 stable_sort_rows sample_rows) ++ nl
            ++ match reavaliar_df with
               | [] => ""
               | _ =>
                   "⚠️ **Pontos de Atenção (Recomendação Neutra ou Venda):**"
                   ++ nl
                   ++ String.concat ""
                        (map (fun row =>
                                "- **" ++ Ticker64 row ++ " (" ++ Setor64 row
                                ++ "):** Nossa recomendação atual é **"
                                ++ match Recomendacao64 row with
                                   | Some label => label
                                   | None => "nan"
                                   end
                                ++ "**. Seria interessante conversarmos sobre a possibilidade de realocar essa posição para ativos com maior potencial de crescimento no setor ou em outros setores estratégicos."
                                ++ nl)
                             reavaliar_df)
               end
            ++ nl ++ closing_text)%string.
Proof.
  apply (attention_block_spec sequential_sum sequential_sum stable_sort_sums
           stable_sort_rows stable_sort_sums_perm sample_rows).
  discriminate.
Defined.

(** The positions 139.32, 209.58, 251.44 and 118.06 add up to 718.40, of
    which 251.44 is 35%, not more; the binary64 numbers nearest to them
    give sector "C" a share below 35%.  Added up from the left in binary64
    they give 718.3999999999999, and the percentage computed for "C" is
    35.00000000000001: the text has the remark. *)
Lemma remark_without_excess :
  (Q2Qc (25144 # 100)
   / (Q2Qc (13932 # 100) + Q2Qc (20958 # 100) + Q2Qc (25144 # 100)
      + Q2Qc (11806 # 100)) * qz 100 = qz 35)%Qc
  /\ (exact_share boundary_rows "C" < qz 35)%Qc
  /\ narrative64 boundary_rows = Ok boundary_narrative
  /\ occurs "concentração um pouco maior no setor de **C**" boundary_narrative.
Proof.
  split; [apply Qc_is_canon; reflexivity|].
  split; [apply Qc_ltb_true; vm_compute; reflexivity|].
  split; [vm_compute; reflexivity|].
  unfold occurs, boundary_narrative.
  exists (opening_text ++ "- **C:** 35.0%" ++ nl ++ "- **B:** 29.2%" ++ nl
          ++ "- **A:** 19.4%" ++ nl ++ nl ++ "Sua carteira apresenta uma ")%string.
  exists (". Podemos avaliar estratégias para diversificar e mitigar riscos, se estiver de acordo com seu perfil."
          ++ nl ++ nl ++ nl ++ nl ++ closing_text)%string.
  vm_compute. reflexivity.
Qed.
